(** * sdvx-rgb: the tape LED transform and its configuration

    A shallow embedding of [SDVXTapeLedHook/transform.h], [transform.cpp]
    and of the hook function of [dllmain.cpp] with its shared memory.

    Conventions.
    - C++ [int] is [Z]; [/] and [%] are the truncating [Z.quot] and [Z.rem].
      Every integer the pipeline computes stays far inside the 32-bit range
      for the buffers the hook passes (at most 282 bytes), so no overflow
      case is written out.
    - [uint8_t] is a [Z] in [0, 255]; a cast [(uint8_t) x] is [to_u8 x].
    - [float] and what the code takes from the C runtime and from Win32
      ([powf], [atof], [sprintf_s], the integer conversion of
      [GetPrivateProfileIntA]) form the interface [Runtime].
    - The configuration file is seen through the profile API only: an
      [IniFile] maps a section and a key to the text of the value. *)

From Stdlib Require Import ZArith QArith Qabs Qpower Qround Lia List Bool String Ascii.
Import ListNotations.
Local Open Scope string_scope.
Local Open Scope Z_scope.

(** ** The platform interface *)

Class Runtime (F : Type) : Type := {
  (** the literals [1.0f], [255.0f] and [0.5f] *)
  f_one : F;
  f_255 : F;
  f_half : F;
  (** [static_cast<float>(i)] *)
  f_of_int : Z -> F;
  (** [static_cast<int>(x)] *)
  f_to_int : F -> Z;
  (** [x == y] on floats; [x != y] is its negation *)
  f_eqb : F -> F -> bool;
  f_div : F -> F -> F;
  f_mul : F -> F -> F;
  f_add : F -> F -> F;
  f_powf : F -> F -> F;
  (** [static_cast<float>(atof(buf))] *)
  f_atof : string -> F;
  (** [sprintf_s(buf, "%.4f", x)] *)
  f_fmt4 : F -> string;
  (** the integer [GetPrivateProfileIntA] reads from the text of a value *)
  profile_int : string -> Z
}.

(** What the statements about [BuildGammaLUT] take from IEEE 754
    arithmetic and from the C library: the order of the floats, a few exact
    values, and that division, [powf] on a base in [0, 1] with an exponent
    that is not negative, and the rounding [x * 255 + 0.5] truncated to
    [int] are monotone.  ([powf (x, +-0)] is 1 for every [x], so an
    exponent of zero is within these laws.) *)
Class RuntimeLaws {F : Type} (RT : Runtime F) : Type := {
  (** [x <= y] *)
  f_le : F -> F -> Prop;
  law_div_255 : f_div (f_of_int 255) f_255 = f_one;
  law_div_0 : f_div (f_of_int 0) f_255 = f_of_int 0;
  law_pow_one : forall y, f_powf f_one y = f_one;
  law_pow_zero : forall y,
    f_le (f_of_int 0) y -> ~ f_le y (f_of_int 0) ->
    f_powf (f_of_int 0) y = f_of_int 0;
  law_round_one : f_to_int (f_add (f_mul f_one f_255) f_half) = 255;
  law_round_zero : f_to_int (f_add (f_mul (f_of_int 0) f_255) f_half) = 0;
  law_div_range : forall i, 0 <= i <= 255 ->
    f_le (f_of_int 0) (f_div (f_of_int i) f_255) /\
    f_le (f_div (f_of_int i) f_255) f_one;
  law_div_mono : forall i j, 0 <= i <= j -> j <= 255 ->
    f_le (f_div (f_of_int i) f_255) (f_div (f_of_int j) f_255);
  law_pow_range : forall x y,
    f_le (f_of_int 0) y -> f_le (f_of_int 0) x -> f_le x f_one ->
    f_le (f_of_int 0) (f_powf x y) /\ f_le (f_powf x y) f_one;
  law_pow_mono : forall x1 x2 y,
    f_le (f_of_int 0) y -> f_le (f_of_int 0) x1 -> f_le x1 x2 -> f_le x2 f_one ->
    f_le (f_powf x1 y) (f_powf x2 y);
  law_round_mono : forall a b,
    f_le (f_of_int 0) a -> f_le a b -> f_le b f_one ->
    f_to_int (f_add (f_mul a f_255) f_half)
    <= f_to_int (f_add (f_mul b f_255) f_half);
  law_inv_nonneg : forall g,
    f_le (f_of_int 0) g -> ~ f_le g (f_of_int 0) ->
    f_le (f_of_int 0) (f_div f_one g)
}.

(** ** transform.h *)

Inductive ChannelOrder : Type :=
  CH_RGB | CH_RBG | CH_GRB | CH_GBR | CH_BRG | CH_BGR.

Definition ChannelOrder_eqb (a b : ChannelOrder) : bool :=
  match a, b with
  | CH_RGB, CH_RGB | CH_RBG, CH_RBG | CH_GRB, CH_GRB
  | CH_GBR, CH_GBR | CH_BRG, CH_BRG | CH_BGR, CH_BGR => true
  | _, _ => false
  end.

Record FILETIME : Type := mkFILETIME {
  dwLowDateTime : Z;
  dwHighDateTime : Z
}.

Definition FILETIME_zero : FILETIME := mkFILETIME 0 0.

(** [CompareFileTime(a, b) == 0] *)
Definition FILETIME_eqb (a b : FILETIME) : bool :=
  (dwHighDateTime a =? dwHighDateTime b) && (dwLowDateTime a =? dwLowDateTime b).

Record StripTransform (F : Type) : Type := mkStrip {
  enabled : bool;
  channelOrder : ChannelOrder;
  gamma_r : F;
  gamma_g : F;
  gamma_b : F;
  hue_shift : Z;
  saturation : Z;
  brightness : Z;
  static_color_enabled : bool;
  static_r : Z;
  static_g : Z;
  static_b : Z;
  gradient_enabled : bool;
  gradient_r2 : Z;
  gradient_g2 : Z;
  gradient_b2 : Z;
  lut_r : list Z;
  lut_g : list Z;
  lut_b : list Z
}.

Arguments mkStrip {F}.
Arguments enabled {F}.
Arguments channelOrder {F}.
Arguments gamma_r {F}.
Arguments gamma_g {F}.
Arguments gamma_b {F}.
Arguments hue_shift {F}.
Arguments saturation {F}.
Arguments brightness {F}.
Arguments static_color_enabled {F}.
Arguments static_r {F}.
Arguments static_g {F}.
Arguments static_b {F}.
Arguments gradient_enabled {F}.
Arguments gradient_r2 {F}.
Arguments gradient_g2 {F}.
Arguments gradient_b2 {F}.
Arguments lut_r {F}.
Arguments lut_g {F}.
Arguments lut_b {F}.

(** [iniPath] is fixed once by [InitConfig]; the file it names is the
    [FileSys] argument of the functions below. *)
Record TransformConfig (F : Type) : Type := mkConfig {
  strips : list (StripTransform F);
  lastWriteTime : FILETIME;
  callCounter : Z
}.

Arguments mkConfig {F}.
Arguments strips {F}.
Arguments lastWriteTime {F}.
Arguments callCounter {F}.

(** ** Integer helpers *)

Definition to_u8 (x : Z) : Z := x mod 256.

Definition is_u8 (x : Z) : Prop := 0 <= x <= 255.

(** [for (int i = 0; i < 256; i++)] *)
Definition range256 : list Z := map Z.of_nat (seq 0 256).

(** [lut[c]] for a [uint8_t] index *)
Definition lut_at (lut : list Z) (c : Z) : Z := nth (Z.to_nat c) lut 0.

(** ** RGB <-> HSV (transform.cpp, integer arithmetic) *)

Definition RGBtoHSV (r g b : Z) : Z * Z * Z :=
  let maxVal := Z.max (Z.max r g) b in
  let minVal := Z.min (Z.min r g) b in
  let delta := maxVal - minVal in
  let v := maxVal in
  if maxVal =? 0 then (0, 0, v)
  else
    let s := Z.quot (delta * 255) maxVal in
    if delta =? 0 then (0, s, v)
    else
      let h :=
        if maxVal =? r then Z.quot (60 * (g - b)) delta
        else if maxVal =? g then 120 + Z.quot (60 * (b - r)) delta
        else 240 + Z.quot (60 * (r - g)) delta in
      ((if h <? 0 then h + 360 else h), s, v).

Definition HSVtoRGB (h s v : Z) : Z * Z * Z :=
  if s =? 0 then (to_u8 v, to_u8 v, to_u8 v)
  else
    let h := Z.rem h 360 in
    let region := Z.quot h 60 in
    let remainder := Z.rem h 60 in
    let p := Z.quot (v * (255 - s)) 255 in
    let q := Z.quot (v * (255 - Z.quot (s * remainder) 60)) 255 in
    let t := Z.quot (v * (255 - Z.quot (s * (60 - remainder)) 60)) 255 in
    match region with
    | 0 => (to_u8 v, to_u8 t, to_u8 p)
    | 1 => (to_u8 q, to_u8 v, to_u8 p)
    | 2 => (to_u8 p, to_u8 v, to_u8 t)
    | 3 => (to_u8 p, to_u8 q, to_u8 v)
    | 4 => (to_u8 t, to_u8 p, to_u8 v)
    | _ => (to_u8 v, to_u8 p, to_u8 q)
    end.

(** the three results of [RGBtoHSV] *)
Definition hsv_h (x : Z * Z * Z) : Z := fst (fst x).
Definition hsv_s (x : Z * Z * Z) : Z := snd (fst x).
Definition hsv_v (x : Z * Z * Z) : Z := snd x.

(** [HSVtoRGB] followed by [RGBtoHSV] *)
Definition hsv_round_trip (h s v : Z) : Z * Z * Z :=
  let '(r, g, b) := HSVtoRGB h s v in RGBtoHSV r g b.

(** the distance of two hues around the circle *)
Definition hue_dist (a b : Z) : Z :=
  Z.min (Z.abs (a - b)) (360 - Z.abs (a - b)).

(** ** Text parsing *)

Definition tolower (c : ascii) : ascii :=
  let n := nat_of_ascii c in
  if ((65 <=? n) && (n <=? 90))%nat then ascii_of_nat (n + 32) else c.

Fixpoint lower (s : string) : string :=
  match s with
  | EmptyString => EmptyString
  | String c r => String (tolower c) (lower r)
  end.

(** [_stricmp(a, b) == 0] *)
Definition stricmp_eq (a b : string) : bool := String.eqb (lower a) (lower b).

Definition ParseChannelOrder (str : string) : ChannelOrder :=
  if stricmp_eq str "RBG" then CH_RBG
  else if stricmp_eq str "GRB" then CH_GRB
  else if stricmp_eq str "GBR" then CH_GBR
  else if stricmp_eq str "BRG" then CH_BRG
  else if stricmp_eq str "BGR" then CH_BGR
  else CH_RGB.

Definition hex_digit (c : ascii) : option Z :=
  let n := Z.of_nat (nat_of_ascii c) in
  if (48 <=? n) && (n <=? 57) then Some (n - 48)
  else if (65 <=? n) && (n <=? 70) then Some (n - 55)
  else if (97 <=? n) && (n <=? 102) then Some (n - 87)
  else None.

(** [isspace] in the C locale *)
Definition is_space (c : ascii) : bool :=
  let n := nat_of_ascii c in
  ((n =? 32) || ((9 <=? n) && (n <=? 13)))%nat.

Fixpoint skip_spaces (s : string) : string :=
  match s with
  | String c r => if is_space c then skip_spaces r else s
  | EmptyString => s
  end.

(** The hexadecimal digits at the head of [s], at most [width] of them,
    accumulated on [acc]; the second component counts the digits read. *)
Fixpoint scan_hex_digits (width : nat) (s : string) (acc : Z) (n : nat) : Z * nat :=
  match width, s with
  | S w, String c r =>
      match hex_digit c with
      | Some d => scan_hex_digits w r (acc * 16 + d) (S n)
      | None => (acc, n)
      end
  | _, _ => (acc, n)
  end.

(** After the sign: an optional [0x] prefix, then digits, all inside the
    field width.  With no digit after the prefix, the 0 before the [x] is
    the number read. *)
Definition scan_hex_body (width : nat) (s : string) : option Z :=
  match width, s with
  | S (S w), String "0" (String x r) =>
      if (Ascii.eqb x "x" || Ascii.eqb x "X")%bool then
        match scan_hex_digits w r 0 0 with
        | (_, O) => Some 0
        | (a, _) => Some a
        end
      else
        match scan_hex_digits width s 0 0 with
        | (_, O) => None
        | (a, _) => Some a
        end
  | _, _ =>
      match scan_hex_digits width s 0 0 with
      | (_, O) => None
      | (a, _) => Some a
      end
  end.

(** [sscanf_s(hex, "%06x", &val)] of the C library: [Some val] when the
    call returns 1.  The conversion skips white space, then reads at most
    six characters of an optionally signed hexadecimal integer in the form
    [strtoul] accepts with base 16, stopping at the first character that
    does not fit, and stores the number as an [unsigned int]; it fails
    when it could read no digit. *)
Definition sscanf_06x (s : string) : option Z :=
  match skip_spaces s with
  | String "-" r =>
      match scan_hex_body 5 r with
      | Some a => Some ((- a) mod 2 ^ 32)
      | None => None
      end
  | String "+" r => scan_hex_body 5 r
  | t => scan_hex_body 6 t
  end.

(** [ParseHexColor]: [Some (r, g, b)] when it returns true (the three
    out-parameters are written only then), [None] when it returns false. *)
Definition ParseHexColor (str : string) : option (Z * Z * Z) :=
  match str with
  | EmptyString => None
  | String c rest =>
      let hex := if Ascii.eqb c "#" then rest else str in
      if negb (Nat.eqb (String.length hex) 6) then None
      else
        match sscanf_06x hex with
        | None => None
        | Some val =>
            Some (to_u8 (Z.land (Z.shiftr val 16) 255),
                  to_u8 (Z.land (Z.shiftr val 8) 255),
                  to_u8 (Z.land val 255))
        end
  end.

(** ** The configuration file as the profile API shows it *)

(** Section name, key name: the text after [key=], when the key is there. *)
Definition IniFile : Type := string -> string -> option string.

(** What the two file probes of [LoadConfig] and [CheckReload] return, and
    what the profile API reads. *)
Record FileSys : Type := mkFileSys {
  (** [GetFileAttributesW(iniPath) != INVALID_FILE_ATTRIBUTES] *)
  attributes_ok : bool;
  (** [CreateFileW] succeeded, with the last write time [GetFileTime] gives *)
  open_time : option FILETIME;
  profile : IniFile
}.

(** A file with no key at all, and a file with one more line [key=value]
    in a section (replacing the key if it is there). *)
Definition ini_empty : IniFile := fun _ _ => None.

Definition ini_set (section key value : string) (ini : IniFile) : IniFile :=
  fun s k =>
    if (String.eqb s section && String.eqb k key)%bool then Some value
    else ini s k.

(** The characters that fit a buffer of [nSize] bytes. *)
Definition truncate (nSize : nat) (s : string) : string :=
  substring 0 (nSize - 1) s.

Definition GetPrivateProfileStringA
  (ini : IniFile) (section key def : string) (nSize : nat) : string :=
  truncate nSize
    match ini section key with
    | Some v => v
    | None => def
    end.

Definition StripSectionNames : list string :=
  [ "title"; "upper_left_speaker"; "upper_right_speaker"; "left_wing";
    "right_wing"; "ctrl_panel"; "lower_left_speaker"; "lower_right_speaker";
    "woofer"; "v_unit" ].

(** How many hook calls between reload checks *)
Definition RELOAD_INTERVAL : Z := 300.

(** [arr[i] = f(arr[i])] on an array held as a list *)
Fixpoint list_update {A : Type} (i : nat) (f : A -> A) (l : list A) : list A :=
  match l, i with
  | [], _ => []
  | x :: r, O => f x :: r
  | x :: r, S j => x :: list_update j f r
  end.

(** The statements of a function body as successive writes on the object
    they mutate; running them in order is the function. *)
Definition run_steps {S : Type} (steps : list (S -> S)) (s : S) : S :=
  fold_left (fun st w => w st) steps s.

(** The object after each statement, the starting state first. *)
Fixpoint trace_steps {S : Type} (steps : list (S -> S)) (s : S) : list S :=
  match steps with
  | [] => [s]
  | w :: r => s :: trace_steps r (w s)
  end.

Section Model.

Context {F : Type} {RT : Runtime F}.

Local Abbreviation Strip := (StripTransform F).
Local Abbreviation Config := (TransformConfig F).

(** *** Field assignments *)

Definition set_enabled (x : bool) (s : Strip) : Strip :=
  mkStrip x (channelOrder s) (gamma_r s) (gamma_g s) (gamma_b s)
    (hue_shift s) (saturation s) (brightness s)
    (static_color_enabled s) (static_r s) (static_g s) (static_b s)
    (gradient_enabled s) (gradient_r2 s) (gradient_g2 s) (gradient_b2 s)
    (lut_r s) (lut_g s) (lut_b s).

Definition set_channelOrder (x : ChannelOrder) (s : Strip) : Strip :=
  mkStrip (enabled s) x (gamma_r s) (gamma_g s) (gamma_b s)
    (hue_shift s) (saturation s) (brightness s)
    (static_color_enabled s) (static_r s) (static_g s) (static_b s)
    (gradient_enabled s) (gradient_r2 s) (gradient_g2 s) (gradient_b2 s)
    (lut_r s) (lut_g s) (lut_b s).

Definition set_gamma_r (x : F) (s : Strip) : Strip :=
  mkStrip (enabled s) (channelOrder s) x (gamma_g s) (gamma_b s)
    (hue_shift s) (saturation s) (brightness s)
    (static_color_enabled s) (static_r s) (static_g s) (static_b s)
    (gradient_enabled s) (gradient_r2 s) (gradient_g2 s) (gradient_b2 s)
    (lut_r s) (lut_g s) (lut_b s).

Definition set_gamma_g (x : F) (s : Strip) : Strip :=
  mkStrip (enabled s) (channelOrder s) (gamma_r s) x (gamma_b s)
    (hue_shift s) (saturation s) (brightness s)
    (static_color_enabled s) (static_r s) (static_g s) (static_b s)
    (gradient_enabled s) (gradient_r2 s) (gradient_g2 s) (gradient_b2 s)
    (lut_r s) (lut_g s) (lut_b s).

Definition set_gamma_b (x : F) (s : Strip) : Strip :=
  mkStrip (enabled s) (channelOrder s) (gamma_r s) (gamma_g s) x
    (hue_shift s) (saturation s) (brightness s)
    (static_color_enabled s) (static_r s) (static_g s) (static_b s)
    (gradient_enabled s) (gradient_r2 s) (gradient_g2 s) (gradient_b2 s)
    (lut_r s) (lut_g s) (lut_b s).

Definition set_hue_shift (x : Z) (s : Strip) : Strip :=
  mkStrip (enabled s) (channelOrder s) (gamma_r s) (gamma_g s) (gamma_b s)
    x (saturation s) (brightness s)
    (static_color_enabled s) (static_r s) (static_g s) (static_b s)
    (gradient_enabled s) (gradient_r2 s) (gradient_g2 s) (gradient_b2 s)
    (lut_r s) (lut_g s) (lut_b s).

Definition set_saturation (x : Z) (s : Strip) : Strip :=
  mkStrip (enabled s) (channelOrder s) (gamma_r s) (gamma_g s) (gamma_b s)
    (hue_shift s) x (brightness s)
    (static_color_enabled s) (static_r s) (static_g s) (static_b s)
    (gradient_enabled s) (gradient_r2 s) (gradient_g2 s) (gradient_b2 s)
    (lut_r s) (lut_g s) (lut_b s).

Definition set_brightness (x : Z) (s : Strip) : Strip :=
  mkStrip (enabled s) (channelOrder s) (gamma_r s) (gamma_g s) (gamma_b s)
    (hue_shift s) (saturation s) x
    (static_color_enabled s) (static_r s) (static_g s) (static_b s)
    (gradient_enabled s) (gradient_r2 s) (gradient_g2 s) (gradient_b2 s)
    (lut_r s) (lut_g s) (lut_b s).

(** [static_color_enabled] and the three bytes of the static color *)
Definition set_static (en : bool) (c : Z * Z * Z) (s : Strip) : Strip :=
  let '(r, g, b) := c in
  mkStrip (enabled s) (channelOrder s) (gamma_r s) (gamma_g s) (gamma_b s)
    (hue_shift s) (saturation s) (brightness s)
    en r g b
    (gradient_enabled s) (gradient_r2 s) (gradient_g2 s) (gradient_b2 s)
    (lut_r s) (lut_g s) (lut_b s).

(** [gradient_enabled] and the three bytes of the gradient end color *)
Definition set_gradient (en : bool) (c : Z * Z * Z) (s : Strip) : Strip :=
  let '(r, g, b) := c in
  mkStrip (enabled s) (channelOrder s) (gamma_r s) (gamma_g s) (gamma_b s)
    (hue_shift s) (saturation s) (brightness s)
    (static_color_enabled s) (static_r s) (static_g s) (static_b s)
    en r g b
    (lut_r s) (lut_g s) (lut_b s).

Definition set_lut_r (x : list Z) (s : Strip) : Strip :=
  mkStrip (enabled s) (channelOrder s) (gamma_r s) (gamma_g s) (gamma_b s)
    (hue_shift s) (saturation s) (brightness s)
    (static_color_enabled s) (static_r s) (static_g s) (static_b s)
    (gradient_enabled s) (gradient_r2 s) (gradient_g2 s) (gradient_b2 s)
    x (lut_g s) (lut_b s).

Definition set_lut_g (x : list Z) (s : Strip) : Strip :=
  mkStrip (enabled s) (channelOrder s) (gamma_r s) (gamma_g s) (gamma_b s)
    (hue_shift s) (saturation s) (brightness s)
    (static_color_enabled s) (static_r s) (static_g s) (static_b s)
    (gradient_enabled s) (gradient_r2 s) (gradient_g2 s) (gradient_b2 s)
    (lut_r s) x (lut_b s).

Definition set_lut_b (x : list Z) (s : Strip) : Strip :=
  mkStrip (enabled s) (channelOrder s) (gamma_r s) (gamma_g s) (gamma_b s)
    (hue_shift s) (saturation s) (brightness s)
    (static_color_enabled s) (static_r s) (static_g s) (static_b s)
    (gradient_enabled s) (gradient_r2 s) (gradient_g2 s) (gradient_b2 s)
    (lut_r s) (lut_g s) x.

Definition set_strips (x : list Strip) (c : Config) : Config :=
  mkConfig x (lastWriteTime c) (callCounter c).

Definition set_lastWriteTime (x : FILETIME) (c : Config) : Config :=
  mkConfig (strips c) x (callCounter c).

Definition set_callCounter (x : Z) (c : Config) : Config :=
  mkConfig (strips c) (lastWriteTime c) x.

(** [config.strips[i]] is written by [w] *)
Definition on_strip (i : nat) (w : Strip -> Strip) (c : Config) : Config :=
  set_strips (list_update i w (strips c)) c.

(** *** BuildGammaLUT *)

Definition gamma_entry (inv : F) (i : Z) : Z :=
  let normalized := f_div (f_of_int i) f_255 in
  let corrected := f_powf normalized inv in
  let val := f_to_int (f_add (f_mul corrected f_255) f_half) in
  to_u8 (Z.min (Z.max val 0) 255).

Definition BuildGammaLUT (gamma : F) : list Z :=
  if f_eqb gamma f_one then map to_u8 range256
  else
    let inv := f_div f_one gamma in
    map (gamma_entry inv) range256.

(** *** Reading one section *)

Definition GetProfileFloat (ini : IniFile) (section key : string) (defaultVal : F) : F :=
  f_atof (GetPrivateProfileStringA ini section key (f_fmt4 defaultVal) 64).

Definition GetPrivateProfileIntA (ini : IniFile) (section key : string) (nDefault : Z) : Z :=
  match ini section key with
  | Some v => profile_int v
  | None => nDefault
  end.

Definition defOrder (o : ChannelOrder) : string :=
  match o with
  | CH_RBG => "RBG"
  | CH_GRB => "GRB"
  | CH_GBR => "GBR"
  | CH_BRG => "BRG"
  | CH_BGR => "BGR"
  | CH_RGB => "RGB"
  end.

Definition static_color (s : Strip) : Z * Z * Z := (static_r s, static_g s, static_b s).
Definition gradient_color (s : Strip) : Z * Z * Z :=
  (gradient_r2 s, gradient_g2 s, gradient_b2 s).

(** The body of [LoadStripFromSection], one entry per statement, in source
    order.  [defaults] is a reference: [dv] gives the object it names as a
    function of the strip being written, which is [fun _ => g] when it names
    another object [g] and the identity when it names the strip itself (the
    call for the global section). *)
Definition LoadStripFromSection_steps
  (ini : IniFile) (section : string) (dv : Strip -> Strip) : list (Strip -> Strip) :=
  [ (* channel_order *)
    (fun s => set_channelOrder
       (ParseChannelOrder
          (GetPrivateProfileStringA ini section "channel_order"
             (defOrder (channelOrder (dv s))) 16)) s);
    (fun s => set_gamma_r (GetProfileFloat ini section "gamma_r" (gamma_r (dv s))) s);
    (fun s => set_gamma_g (GetProfileFloat ini section "gamma_g" (gamma_g (dv s))) s);
    (fun s => set_gamma_b (GetProfileFloat ini section "gamma_b" (gamma_b (dv s))) s);
    (fun s => set_hue_shift
       (GetPrivateProfileIntA ini section "hue_shift" (hue_shift (dv s))) s);
    (fun s => set_saturation
       (GetPrivateProfileIntA ini section "saturation" (saturation (dv s))) s);
    (fun s => set_brightness
       (GetPrivateProfileIntA ini section "brightness" (brightness (dv s))) s);
    (* Clamp values *)
    (fun s => set_hue_shift (Z.rem (Z.rem (hue_shift s) 360 + 360) 360) s);
    (fun s => set_saturation (Z.min (Z.max (saturation s) 0) 200) s);
    (fun s => set_brightness (Z.min (Z.max (brightness s) 0) 200) s);
    (* static_color *)
    (fun s =>
       match ParseHexColor (GetPrivateProfileStringA ini section "static_color" "" 16) with
       | Some c => set_static true c s
       | None => set_static (static_color_enabled (dv s)) (static_color (dv s)) s
       end);
    (* gradient_color *)
    (fun s =>
       match (if static_color_enabled s
              then ParseHexColor (GetPrivateProfileStringA ini section "gradient_color" "" 16)
              else None) with
       | Some c => set_gradient true c s
       | None => set_gradient (gradient_enabled (dv s)) (gradient_color (dv s)) s
       end);
    (* Build gamma LUTs *)
    (fun s => set_lut_r (BuildGammaLUT (gamma_r s)) s);
    (fun s => set_lut_g (BuildGammaLUT (gamma_g s)) s);
    (fun s => set_lut_b (BuildGammaLUT (gamma_b s)) s);
    (* Determine if any transform is actually active *)
    (fun s => set_enabled
       (negb (ChannelOrder_eqb (channelOrder s) CH_RGB)
        || negb (f_eqb (gamma_r s) f_one)
        || negb (f_eqb (gamma_g s) f_one)
        || negb (f_eqb (gamma_b s) f_one)
        || negb (hue_shift s =? 0)
        || negb (saturation s =? 100)
        || negb (brightness s =? 100)
        || static_color_enabled s
        || gradient_enabled s) s) ].

Definition LoadStripFromSection
  (ini : IniFile) (section : string) (dv : Strip -> Strip) (strip : Strip) : Strip :=
  run_steps (LoadStripFromSection_steps ini section dv) strip.

(** *** InitConfig, LoadConfig, CheckReload *)

(** The identity defaults [InitConfig] and the reset of [CheckReload]
    assign to every strip. *)
Definition identity_strip : Strip :=
  mkStrip false CH_RGB f_one f_one f_one 0 100 100
    false 0 0 0 false 0 0 0
    (BuildGammaLUT f_one) (BuildGammaLUT f_one) (BuildGammaLUT f_one).

Definition InitConfig : Config :=
  mkConfig (repeat identity_strip 10) FILETIME_zero 0.

(** The local [globalDefaults] of [LoadConfig] before it is loaded.  The
    declaration leaves [enabled] and the three tables unset; every path of
    [LoadStripFromSection] writes them before anything reads them, and the
    values given to them here are never used. *)
Definition globalDefaults_start : Strip :=
  mkStrip false CH_RGB f_one f_one f_one 0 100 100
    false 0 0 0 false 0 0 0 [] [] [].

Definition globalDefaults (ini : IniFile) : Strip :=
  LoadStripFromSection ini "global" (fun s => s) globalDefaults_start.

(** The writes of [LoadConfig] on [config], in source order. *)
Definition LoadConfig_steps (fs : FileSys) : list (Config -> Config) :=
  if negb (attributes_ok fs) then
    map (fun i => on_strip i (set_enabled false)) (seq 0 10)
  else
    (fun c => match open_time fs with
              | Some t => set_lastWriteTime t c
              | None => c
              end)
    :: flat_map
         (fun i =>
            map (on_strip i)
              (LoadStripFromSection_steps (profile fs)
                 (nth i StripSectionNames "")
                 (fun _ => globalDefaults (profile fs))))
         (seq 0 10).

Definition LoadConfig (fs : FileSys) (config : Config) : Config :=
  run_steps (LoadConfig_steps fs) config.

(** What one call of [CheckReload] does with the file system. *)
Inductive ReloadEvent : Type :=
  | EvProbe        (* the [CreateFileW] of [CheckReload] *)
  | EvLoadConfig.  (* the call of [LoadConfig] *)

Definition lastWriteTime_set (c : Config) : bool :=
  negb (dwHighDateTime (lastWriteTime c) =? 0)
  || negb (dwLowDateTime (lastWriteTime c) =? 0).

(** [CheckReload], with the events of the call next to the new state. *)
Definition CheckReload (fs : FileSys) (config : Config) : Config * list ReloadEvent :=
  let config := set_callCounter (callCounter config + 1) config in
  if callCounter config <? RELOAD_INTERVAL then (config, [])
  else
    let config := set_callCounter 0 config in
    match open_time fs with
    | None =>
        if lastWriteTime_set config then
          (set_strips (map (fun _ => identity_strip) (strips config))
             (set_lastWriteTime FILETIME_zero config), [EvProbe])
        else (config, [EvProbe])
    | Some ft =>
        if negb (FILETIME_eqb ft (lastWriteTime config))
        then (LoadConfig fs config, [EvProbe; EvLoadConfig])
        else (config, [EvProbe])
    end.

(** *** TransformStrip *)

(** swap the channels *)
Definition reorder (o : ChannelOrder) (r g b : Z) : Z * Z * Z :=
  match o with
  | CH_RBG => (r, b, g)
  | CH_GRB => (g, r, b)
  | CH_GBR => (g, b, r)
  | CH_BRG => (b, r, g)
  | CH_BGR => (b, g, r)
  | CH_RGB => (r, g, b)
  end.

(** Step 2: gamma correction (LUT) *)
Definition gamma_stage (strip : Strip) (c : Z * Z * Z) : Z * Z * Z :=
  let '(cr, cg, cb) := c in
  (lut_at (lut_r strip) cr, lut_at (lut_g strip) cg, lut_at (lut_b strip) cb).

(** [staticH1, staticS1, staticV1] as computed before the loop *)
Definition static_hsv1 (strip : Strip) : Z * Z * Z :=
  if static_color_enabled strip
  then RGBtoHSV (static_r strip) (static_g strip) (static_b strip)
  else (0, 0, 0).

(** [staticH2, staticS2, staticV2] as computed before the loop *)
Definition static_hsv2 (strip : Strip) : Z * Z * Z :=
  if static_color_enabled strip && gradient_enabled strip
  then RGBtoHSV (gradient_r2 strip) (gradient_g2 strip) (gradient_b2 strip)
  else (0, 0, 0).

(** Step 3: static color / gradient OR hue shift / saturation, for the
    pixel at byte offset [i] of a buffer of [numLEDs] pixels *)
Definition color_stage (strip : Strip) (numLEDs i : Z) (c : Z * Z * Z) : Z * Z * Z :=
  let '(cr, cg, cb) := c in
  let needHSV := negb (hue_shift strip =? 0) || negb (saturation strip =? 100) in
  let staticH1 := hsv_h (static_hsv1 strip) in
  let staticS1 := hsv_s (static_hsv1 strip) in
  let staticH2 := hsv_h (static_hsv2 strip) in
  let staticS2 := hsv_s (static_hsv2 strip) in
  if static_color_enabled strip then
    let v := hsv_v (RGBtoHSV cr cg cb) in
    if gradient_enabled strip && (1 <? numLEDs) then
      let ledIdx := Z.quot i 3 in
      let hDiff := staticH2 - staticH1 in
      let hDiff := if 180 <? hDiff then hDiff - 360 else hDiff in
      let hDiff := if hDiff <? -180 then hDiff + 360 else hDiff in
      let interpH :=
        Z.rem (staticH1 + Z.quot (hDiff * ledIdx) (numLEDs - 1) + 360) 360 in
      let interpS :=
        staticS1 + Z.quot ((staticS2 - staticS1) * ledIdx) (numLEDs - 1) in
      HSVtoRGB interpH interpS v
    else HSVtoRGB staticH1 staticS1 v
  else if needHSV then
    let '(h, s, v) := RGBtoHSV cr cg cb in
    let h := Z.rem (h + hue_shift strip) 360 in
    let s := if negb (saturation strip =? 100)
             then Z.min (Z.quot (s * saturation strip) 100) 255
             else s in
    HSVtoRGB h s v
  else c.

(** brightness scaling *)
Definition brightness_stage (strip : Strip) (c : Z * Z * Z) : Z * Z * Z :=
  let '(cr, cg, cb) := c in
  if negb (brightness strip =? 100) then
    let br := Z.quot (cr * brightness strip) 100 in
    let bg := Z.quot (cg * brightness strip) 100 in
    let bb := Z.quot (cb * brightness strip) 100 in
    (to_u8 (Z.min br 255), to_u8 (Z.min bg 255), to_u8 (Z.min bb 255))
  else c.

(** One turn of the loop: the three bytes read at offset [i] and the three
    bytes written back. *)
Definition transform_pixel (strip : Strip) (numLEDs i : Z) (r g b : Z) : Z * Z * Z :=
  let '(cr, cg, cb) := reorder (channelOrder strip) r g b in
  brightness_stage strip
    (color_stage strip numLEDs i (gamma_stage strip (cr, cg, cb))).

(** [for (int i = 0; i < numBytes; i += 3)] over the bytes from offset [i]
    on.  The caller passes whole pixels; with one or two bytes left over the
    source would read past the buffer, and the model leaves them as they are. *)
Fixpoint TransformStrip_loop (strip : Strip) (numLEDs i : Z) (data : list Z) : list Z :=
  match data with
  | r :: g :: b :: rest =>
      let '(cr, cg, cb) := transform_pixel strip numLEDs i r g b in
      cr :: cg :: cb :: TransformStrip_loop strip numLEDs (i + 3) rest
  | _ => data
  end.

(** [TransformStrip(strip, data, numBytes)] with [numBytes] the length of
    [data]; the result is the buffer after the call. *)
Definition TransformStrip (strip : Strip) (data : list Z) : list Z :=
  if negb (enabled strip) then data
  else
    let numBytes := Z.of_nat (List.length data) in
    let numLEDs := Z.quot numBytes 3 in
    TransformStrip_loop strip numLEDs 0 data.

(** *** The hook (dllmain.cpp) *)

Definition TapeLedDataCount : list Z :=
  [ 74 * 3; 12 * 3; 12 * 3; 56 * 3; 56 * 3; 94 * 3; 12 * 3; 12 * 3; 14 * 3; 86 * 3 ].

(** [SetTapeLedDataHook]: the configuration after the call and the bytes
    handed on to the original function and to shared memory. *)
Definition SetTapeLedDataHook
  (fs : FileSys) (config : Config) (index : Z) (data : list Z) : Config * list Z :=
  if index <? 10 then
    let config := fst (CheckReload fs config) in
    let count := nth (Z.to_nat index) TapeLedDataCount 0 in
    let transformed := firstn (Z.to_nat count) data in
    (config,
     TransformStrip (nth (Z.to_nat index) (strips config) identity_strip) transformed)
  else (config, data).

(** the pixel number [k] of a buffer *)
Definition pixel_at (data : list Z) (k : nat) : Z * Z * Z :=
  (nth (3 * k) data 0, nth (3 * k + 1) data 0, nth (3 * k + 2) data 0).

(** *** Ranges

    The ranges the clamping of [LoadStripFromSection] gives to a strip. *)
Definition strip_in_range (s : Strip) : Prop :=
  0 <= hue_shift s <= 359 /\
  0 <= saturation s <= 200 /\
  0 <= brightness s <= 200.

(** The six color fields are [uint8_t]. *)
Definition strip_bytes (s : Strip) : Prop :=
  (is_u8 (static_r s) /\ is_u8 (static_g s) /\ is_u8 (static_b s)) /\
  (is_u8 (gradient_r2 s) /\ is_u8 (gradient_g2 s) /\ is_u8 (gradient_b2 s)).

Definition pixel_u8 (c : Z * Z * Z) : Prop :=
  is_u8 (fst (fst c)) /\ is_u8 (snd (fst c)) /\ is_u8 (snd c).

(** every channel of [c] is between 0 and [v] *)
Definition channels_le (c : Z * Z * Z) (v : Z) : Prop :=
  0 <= fst (fst c) <= v /\ 0 <= snd (fst c) <= v /\ 0 <= snd c <= v.

(** byte offset [i] is the start of one of the [numLEDs] pixels *)
Definition pixel_in_strip (numLEDs i : Z) : Prop :=
  0 <= i /\ Z.quot i 3 < numLEDs.

(** the value component [RGBtoHSV] gives for a pixel *)
Definition value_of (c : Z * Z * Z) : Z :=
  let '(r, g, b) := c in hsv_v (RGBtoHSV r g b).

(** *** Reachable configurations

    [DllMain] calls [InitConfig] and [LoadConfig]; afterwards every hook
    call runs [CheckReload], which may call [LoadConfig] again. *)
Inductive reachable : Config -> Prop :=
  | reach_init : reachable InitConfig
  | reach_load (fs : FileSys) (c : Config) :
      reachable c -> reachable (LoadConfig fs c)
  | reach_check (fs : FileSys) (c : Config) :
      reachable c -> reachable (fst (CheckReload fs c)).

(** a gradient is never active without an active static color *)
Definition gradient_needs_static (s : Strip) : Prop :=
  gradient_enabled s = true -> static_color_enabled s = true.

(** the three tables are the ones of the strip's own gamma fields *)
Definition luts_current (s : Strip) : Prop :=
  lut_r s = BuildGammaLUT (gamma_r s) /\
  lut_g s = BuildGammaLUT (gamma_g s) /\
  lut_b s = BuildGammaLUT (gamma_b s).

Definition strip_ok (s : Strip) : Prop :=
  strip_in_range s /\ strip_bytes s /\ gradient_needs_static s /\ luts_current s.

(** *** Successive hook calls

    The configuration after the calls of [CheckReload] for a sequence of
    file states, one per call, and the events of each call. *)
Fixpoint run_checks (fss : list FileSys) (c : Config) : Config * list (list ReloadEvent) :=
  match fss with
  | [] => (c, [])
  | fs :: rest =>
      let '(c1, ev) := CheckReload fs c in
      let '(c2, evs) := run_checks rest c1 in
      (c2, ev :: evs)
  end.

Definition is_probe (e : ReloadEvent) : bool :=
  match e with EvProbe => true | EvLoadConfig => false end.

Definition is_load (e : ReloadEvent) : bool :=
  match e with EvLoadConfig => true | EvProbe => false end.

(** the number of calls that went to the file system *)
Definition count_probes (evs : list (list ReloadEvent)) : Z :=
  Z.of_nat (List.length (filter (existsb is_probe) evs)).

Definition config_ok (c : Config) : Prop := Forall strip_ok (strips c).

(** the wrap of [LoadStripFromSection] on the hue shift *)
Definition hue_wrap (h : Z) : Z := Z.rem (Z.rem h 360 + 360) 360.

(** *** More of the hook: the shared memory (dllmain.cpp) *)

(** Offset of each tape led data in shared memory *)
Definition TapeLedDataOffset : list Z :=
  [ 0 * 3; 74 * 3; 86 * 3; 98 * 3; 154 * 3; 210 * 3; 304 * 3; 316 * 3; 328 * 3; 342 * 3 ].

(** the size of the mapping [DllMain] creates, and of the local buffer
    [transformed] of the hook *)
Definition SHARED_SIZE : Z := 1284.
Definition TRANSFORMED_SIZE : Z := 282.

(** [memcpy(dst + off, src, count)] on a buffer that holds [off + count]
    bytes at least, and a source of [count] bytes at least; the source
    writes past the buffer otherwise, which the model leaves out. *)
Definition memcpy_at (dst : list Z) (off : nat) (src : list Z) (count : nat) : list Z :=
  (firstn off dst ++ firstn count src ++ skipn (off + count) dst)%list.

(** The shared memory after a call of [SetTapeLedDataHook]; [lpBase] is
    [None] when the mapping could not be made. *)
Definition SetTapeLedDataHook_shared
  (fs : FileSys) (config : Config) (lpBase : option (list Z))
  (index : Z) (data : list Z) : option (list Z) :=
  if index <? 10 then
    match lpBase with
    | Some mem =>
        Some (memcpy_at mem
                (Z.to_nat (nth (Z.to_nat index) TapeLedDataOffset 0))
                (snd (SetTapeLedDataHook fs config index data))
                (Z.to_nat (nth (Z.to_nat index) TapeLedDataCount 0)))
    | None => None
    end
  else lpBase.

(** [g_transformConfig] as static storage initialises it, before
    [InitConfig] has run: every byte of it is zero. *)
Definition zero_strip : Strip :=
  mkStrip false CH_RGB (f_of_int 0) (f_of_int 0) (f_of_int 0) 0 0 0
    false 0 0 0 false 0 0 0
    (repeat 0 256) (repeat 0 256) (repeat 0 256).

Definition zero_config : Config :=
  mkConfig (repeat zero_strip 10) FILETIME_zero 0.

(** *** Vocabulary of the further properties *)

(** the smallest channel of a pixel, [minVal] of [RGBtoHSV] *)
Definition minVal_of (c : Z * Z * Z) : Z :=
  let '(r, g, b) := c in Z.min (Z.min r g) b.

(** the input channel a letter of a channel order names *)
Definition channel_named (c : ascii) (r g b : Z) : Z :=
  if Ascii.eqb c "R" then r else if Ascii.eqb c "G" then g else b.

(** the file is not there: no attributes, and it cannot be opened *)
Definition file_absent (fs : FileSys) : Prop :=
  attributes_ok fs = false /\ open_time fs = None.

(** A strip that changes colors by the channel order and the brightness
    only: gammas equal to 1 with their tables, no hue shift, saturation at
    100, no static color. *)
Definition plain_colors (s : Strip) : Prop :=
  f_eqb (gamma_r s) f_one = true /\ f_eqb (gamma_g s) f_one = true /\
  f_eqb (gamma_b s) f_one = true /\
  hue_shift s = 0 /\ saturation s = 100 /\ static_color_enabled s = false /\
  luts_current s.

End Model.

(** ** A reference implementation of the platform interface

    Exact rational arithmetic with the two infinities and NaN: no rounding
    and no negative zero.  It runs the model on the examples below. *)

Module Ideal.

Inductive num : Type :=
  | NaN
  | Inf (neg : bool)
  | Fin (q : Q).

(** finite values are kept in lowest terms *)
Definition fin (q : Q) : num := Fin (Qred q).

Definition of_int (z : Z) : num := fin (inject_Z z).

Definition is_neg (q : Q) : bool := Qnum q <? 0.
Definition is_zero (q : Q) : bool := Qnum q =? 0.

Definition eqb (x y : num) : bool :=
  match x, y with
  | Fin a, Fin b => Qeq_bool a b
  | Inf s, Inf t => Bool.eqb s t
  | _, _ => false
  end.

(** [x <= y]; false when either side is NaN *)
Definition leb (x y : num) : bool :=
  match x, y with
  | NaN, _ | _, NaN => false
  | Inf true, _ => true
  | _, Inf false => true
  | Inf false, _ => false
  | _, Inf true => false
  | Fin a, Fin b => Qle_bool a b
  end.

Definition div (x y : num) : num :=
  match x, y with
  | NaN, _ | _, NaN => NaN
  | Inf _, Inf _ => NaN
  | Inf s, Fin b => Inf (xorb s (is_neg b))
  | Fin _, Inf _ => fin 0
  | Fin a, Fin b =>
      if is_zero b then (if is_zero a then NaN else Inf (is_neg a))
      else fin (a / b)
  end.

Definition mul (x y : num) : num :=
  match x, y with
  | NaN, _ | _, NaN => NaN
  | Inf s, Inf t => Inf (xorb s t)
  | Inf s, Fin b => if is_zero b then NaN else Inf (xorb s (is_neg b))
  | Fin a, Inf t => if is_zero a then NaN else Inf (xorb (is_neg a) t)
  | Fin a, Fin b => fin (a * b)
  end.

Definition add (x y : num) : num :=
  match x, y with
  | NaN, _ | _, NaN => NaN
  | Inf s, Inf t => if Bool.eqb s t then Inf s else NaN
  | Inf s, Fin _ => Inf s
  | Fin _, Inf t => Inf t
  | Fin a, Fin b => fin (a + b)
  end.

(** the least integer not below [q] *)
Definition ceiling (q : Q) : Z := - ((- Qnum q) / Zpos (Qden q)).

(** [pow]: the values C fixes for the operands 1, 0 and the infinities;
    exact for an integer exponent, and with the exponent rounded up to the
    next integer otherwise. *)
Definition powf (x y : num) : num :=
  match x, y with
  | Fin a, _ =>
      if Qeq_bool a 1 then fin 1
      else
        match y with
        | NaN => NaN
        | Fin b =>
            if is_zero b then fin 1
            else if is_neg b then
              (if is_zero a then Inf false
               else fin (/ (Qpower a (- ceiling b))))
            else fin (Qpower a (ceiling b))
        | Inf false =>
            if Qle_bool 1 (Qabs a) then Inf false else fin 0
        | Inf true =>
            if Qle_bool 1 (Qabs a) then fin 0 else Inf false
        end
  | NaN, Fin b => if is_zero b then fin 1 else NaN
  | NaN, _ => NaN
  | Inf s, NaN => NaN
  | Inf s, Inf t => if t then fin 0 else Inf false
  | Inf s, Fin b =>
      if is_zero b then fin 1
      else if is_neg b then fin 0
      else Inf (s && Z.odd (ceiling b))
  end.

(** [powf] on a base in [0, 1] other than 1 with an exponent that is not
    negative, as a rational *)
Definition pow_unit (a : Q) (y : num) : Q :=
  match y with
  | Fin b => if is_zero b then 1%Q else Qpower a (ceiling b)
  | _ => 0%Q
  end.

(** [x <= y] as a proposition *)
Definition le (x y : num) : Prop := leb x y = true.

(** truncation toward zero; NaN and operands outside [int], where the C++
    cast is undefined, give the x86 result [INT_MIN] *)
Definition to_int (x : num) : Z :=
  match x with
  | Fin q =>
      let z := Z.quot (Qnum q) (Zpos (Qden q)) in
      if (- 2 ^ 31 <=? z) && (z <? 2 ^ 31) then z else - 2 ^ 31
  | _ => - 2 ^ 31
  end.

Definition digit (c : ascii) : option Z :=
  let n := Z.of_nat (nat_of_ascii c) in
  if (48 <=? n) && (n <=? 57) then Some (n - 48) else None.

(** the decimal digits at the head of [s]: their value on [acc], their
    number on [n], and the rest of the text *)
Fixpoint scan_digits (s : string) (acc : Z) (n : nat) : Z * nat * string :=
  match s with
  | String c r =>
      match digit c with
      | Some d => scan_digits r (acc * 10 + d) (S n)
      | None => (acc, n, s)
      end
  | EmptyString => (acc, n, s)
  end.

Definition scan_sign (s : string) : bool * string :=
  match s with
  | String "-" r => (true, r)
  | String "+" r => (false, r)
  | _ => (false, s)
  end.

(** decimal text [digits.digits] with an optional sign, and [inf], [nan];
    0 when no number is there *)
Definition atof (s : string) : num :=
  let '(neg, t) := scan_sign (skip_spaces s) in
  let sgn (q : Q) := if neg then (- q)%Q else q in
  if stricmp_eq (substring 0 3 t) "inf" then Inf neg
  else if stricmp_eq (substring 0 3 t) "nan" then NaN
  else
    let '(ip, _, r) := scan_digits t 0 0 in
    match r with
    | String "." r' =>
        let '(fp, k, _) := scan_digits r' 0 0 in
        fin (sgn (inject_Z ip + inject_Z fp / inject_Z (10 ^ Z.of_nat k))%Q)
    | _ => fin (sgn (inject_Z ip))
    end.

Definition digit_char (d : Z) : ascii := ascii_of_nat (Z.to_nat (48 + d)).

(** [n] in decimal on exactly [k] digits *)
Fixpoint digits_fixed (k : nat) (n : Z) (tail : string) : string :=
  match k with
  | O => tail
  | S k' => digits_fixed k' (n / 10) (String (digit_char (n mod 10)) tail)
  end.

(** the number of decimal digits of [n] (at least one), bounded by [fuel] *)
Fixpoint count_digits (fuel : nat) (n : Z) : nat :=
  match fuel with
  | O => 1
  | S f => if n <? 10 then 1 else S (count_digits f (n / 10))
  end.

Definition string_of_nonneg (n : Z) : string :=
  digits_fixed (count_digits (Z.to_nat (Z.log2 n)) n) n "".

(** [%.4f]: nearest multiple of 1/10000, halves away from zero *)
Definition fmt4 (x : num) : string :=
  match x with
  | NaN => "nan"
  | Inf s => if s then "-inf" else "inf"
  | Fin q =>
      let a := Qabs q in
      let n := (2 * Qnum a * 10000 + Zpos (Qden a)) / (2 * Zpos (Qden a)) in
      ((if is_neg q then "-" else "")
       ++ string_of_nonneg (n / 10000)
       ++ "."
       ++ digits_fixed 4 (n mod 10000) "")%string
  end.

(** a signed decimal integer at the head of the text, kept on 32 bits *)
Definition atoi (s : string) : Z :=
  let '(neg, t) := scan_sign (skip_spaces s) in
  let '(v, _, _) := scan_digits t 0 0 in
  let v := if neg then - v else v in
  (v + 2 ^ 31) mod 2 ^ 32 - 2 ^ 31.

End Ideal.

#[export] Instance ideal_runtime : Runtime Ideal.num := {
  f_one := Ideal.fin 1;
  f_255 := Ideal.fin 255;
  f_half := Ideal.fin (1 # 2);
  f_of_int := Ideal.of_int;
  f_to_int := Ideal.to_int;
  f_eqb := Ideal.eqb;
  f_div := Ideal.div;
  f_mul := Ideal.mul;
  f_add := Ideal.add;
  f_powf := Ideal.powf;
  f_atof := Ideal.atof;
  f_fmt4 := Ideal.fmt4;
  profile_int := Ideal.atoi
}.

(** ** Sample files

    The example of the README, with a hue shift beyond 359 on one strip. *)
Definition sample_ini : IniFile :=
  ini_set "global" "brightness" "80"
    (ini_set "title" "static_color" "FE01E4"
       (ini_set "left_wing" "static_color" "0000FF"
          (ini_set "left_wing" "gradient_color" "FF00FF"
             (ini_set "woofer" "hue_shift" "370" ini_empty)))).

Definition sample_fs : FileSys :=
  mkFileSys true (Some (mkFILETIME 7 1)) sample_ini.

(** the same file with a gradient color and no static color anywhere *)
Definition gradient_only_fs : FileSys :=
  mkFileSys true (Some (mkFILETIME 8 1))
    (ini_set "global" "gradient_color" "FF00FF" ini_empty).

(** A red title strip with an infinite gamma for the red channel. *)
Definition infinite_gamma_fs : FileSys :=
  mkFileSys true (Some (mkFILETIME 9 1))
    (ini_set "title" "gamma_r" "inf"
       (ini_set "title" "static_color" "FF0000" ini_empty)).

(** * Properties *)

(** ** Truncating division on the ranges the pipeline uses *)

Lemma quot_bounds (a d k : Z) :
  0 < d -> - (k * d) <= a <= k * d -> - k <= Z.quot a d <= k.
Proof.
  intros Hd [Hlo Hhi]. split.
  - rewrite <- (Z.quot_mul (- k) d) by lia.
    apply Z.quot_le_mono; lia.
  - rewrite <- (Z.quot_mul k d) by lia.
    apply Z.quot_le_mono; lia.
Qed.

Lemma quot_nonneg_bounds (a d k : Z) :
  0 < d -> 0 <= a <= k * d -> 0 <= Z.quot a d <= k.
Proof.
  intros Hd [Hlo Hhi]. split.
  - apply Z.quot_pos; lia.
  - rewrite <- (Z.quot_mul k d) by lia.
    apply Z.quot_le_mono; lia.
Qed.

Lemma quot_nonpos_bounds (a d k : Z) :
  0 < d -> - (k * d) <= a <= 0 -> - k <= Z.quot a d <= 0.
Proof.
  intros Hd [Hlo Hhi]. split.
  - rewrite <- (Z.quot_mul (- k) d) by lia.
    apply Z.quot_le_mono; lia.
  - replace 0 with (Z.quot 0 d) by (apply Z.quot_0_l; lia).
    apply Z.quot_le_mono; lia.
Qed.

Lemma to_u8_small (x : Z) : is_u8 x -> to_u8 x = x.
Proof. unfold is_u8, to_u8. intros H. apply Z.mod_small. lia. Qed.

(** [v * k / 255] for a weight [k] in [0, 255] *)
Lemma scale_bounds (v k : Z) :
  0 <= v -> 0 <= k <= 255 -> 0 <= Z.quot (v * k) 255 <= v.
Proof.
  intros Hv Hk. apply quot_nonneg_bounds; nia.
Qed.

(** [s * r / 60] for a sector position [r] in [0, 60] *)
Lemma sector_bounds (s r : Z) :
  0 <= s -> 0 <= r <= 60 -> 0 <= Z.quot (s * r) 60 <= s.
Proof.
  intros Hs Hr. apply quot_nonneg_bounds; nia.
Qed.

(** ** HSVtoRGB *)

(** The three weights of [HSVtoRGB] stay between 0 and [v]. *)
Lemma HSVtoRGB_weights (s v remainder : Z) :
  is_u8 s -> is_u8 v -> 0 <= remainder < 60 ->
  let p := Z.quot (v * (255 - s)) 255 in
  let q := Z.quot (v * (255 - Z.quot (s * remainder) 60)) 255 in
  let t := Z.quot (v * (255 - Z.quot (s * (60 - remainder)) 60)) 255 in
  (0 <= p <= v) /\ (0 <= q <= v) /\ (0 <= t <= v) /\ p <= q /\ p <= t.
Proof.
  unfold is_u8. intros Hs Hv Hr; cbv zeta.
  pose proof (sector_bounds s remainder ltac:(lia) ltac:(lia)) as Hq.
  pose proof (sector_bounds s (60 - remainder) ltac:(lia) ltac:(lia)) as Ht.
  repeat split; try (apply scale_bounds; lia);
    apply Z.quot_le_mono; nia.
Qed.

(** What [HSVtoRGB] returns, sector by sector, for a hue in [0, 359]. *)
Lemma HSVtoRGB_sectors (h s v : Z) :
  0 <= h <= 359 -> s <> 0 ->
  let remainder := Z.rem h 60 in
  let p := Z.quot (v * (255 - s)) 255 in
  let q := Z.quot (v * (255 - Z.quot (s * remainder) 60)) 255 in
  let t := Z.quot (v * (255 - Z.quot (s * (60 - remainder)) 60)) 255 in
  0 <= remainder < 60 /\
  (HSVtoRGB h s v = (to_u8 v, to_u8 t, to_u8 p) \/
   HSVtoRGB h s v = (to_u8 q, to_u8 v, to_u8 p) \/
   HSVtoRGB h s v = (to_u8 p, to_u8 v, to_u8 t) \/
   HSVtoRGB h s v = (to_u8 p, to_u8 q, to_u8 v) \/
   HSVtoRGB h s v = (to_u8 t, to_u8 p, to_u8 v) \/
   HSVtoRGB h s v = (to_u8 v, to_u8 p, to_u8 q)).
Proof.
  intros Hh Hs; cbv zeta.
  assert (Hrem : Z.rem h 360 = h) by (apply Z.rem_small; lia).
  split.
  - pose proof (Z.rem_bound_pos h 60 ltac:(lia) ltac:(lia)). lia.
  - unfold HSVtoRGB. destruct (Z.eqb_spec s 0) as [E | _]; [contradiction |].
    rewrite Hrem.
    assert (Hreg : 0 <= Z.quot h 60 <= 5).
    { split; [apply Z.quot_pos; lia |].
      change 5 with (Z.quot 359 60). apply Z.quot_le_mono; lia. }
    destruct (Z.quot h 60) as [ | n | n ]; [auto 10 | | lia].
    do 3 (try destruct n as [n | n | ]); try lia; auto 10.
Qed.

(** Every channel [HSVtoRGB] returns is between 0 and [v], and one of them
    is [v]. *)
Lemma HSVtoRGB_channels (h s v : Z) :
  0 <= h <= 359 -> is_u8 s -> is_u8 v ->
  exists r g b,
    HSVtoRGB h s v = (r, g, b) /\
    0 <= r <= v /\ 0 <= g <= v /\ 0 <= b <= v /\
    (r = v \/ g = v \/ b = v).
Proof.
  intros Hh Hs Hv.
  destruct (Z.eq_dec s 0) as [E | E].
  - subst s. unfold HSVtoRGB; simpl.
    rewrite (to_u8_small v Hv). exists v, v, v. unfold is_u8 in Hv.
    repeat split; lia.
  - destruct (HSVtoRGB_sectors h s v Hh E) as [Hr Hc].
    destruct (HSVtoRGB_weights s v (Z.rem h 60) Hs Hv Hr)
      as (Hp & Hq & Ht & _ & _).
    unfold is_u8 in Hv.
    rewrite !to_u8_small in Hc by (unfold is_u8; lia).
    destruct Hc as [Hc | [Hc | [Hc | [Hc | [Hc | Hc]]]]];
      rewrite Hc; do 3 eexists; (split; [reflexivity |]);
      repeat split; try lia; auto.
Qed.

(** ** RGBtoHSV *)

Lemma RGBtoHSV_v (r g b : Z) :
  hsv_v (RGBtoHSV r g b) = Z.max (Z.max r g) b.
Proof.
  unfold RGBtoHSV.
  destruct (Z.max (Z.max r g) b =? 0); [reflexivity |].
  destruct (Z.max (Z.max r g) b - Z.min (Z.min r g) b =? 0); reflexivity.
Qed.

(** [RGBtoHSV] of three bytes: hue in [0, 359], the other two in [0, 255]. *)
Lemma RGBtoHSV_range (r g b : Z) :
  is_u8 r -> is_u8 g -> is_u8 b ->
  0 <= hsv_h (RGBtoHSV r g b) <= 359 /\
  is_u8 (hsv_s (RGBtoHSV r g b)) /\
  is_u8 (hsv_v (RGBtoHSV r g b)).
Proof.
  unfold is_u8. intros Hr Hg Hb.
  rewrite RGBtoHSV_v. split; [| split; [| lia]].
  - unfold RGBtoHSV.
    destruct (Z.eqb_spec (Z.max (Z.max r g) b) 0) as [E | E]; [unfold hsv_h, hsv_s; cbn [fst snd]; lia |].
    set (d := Z.max (Z.max r g) b - Z.min (Z.min r g) b).
    destruct (Z.eqb_spec d 0) as [Ed | Ed]; [unfold hsv_h, hsv_s; cbn [fst snd]; lia |].
    assert (Hd : 0 < d) by (unfold d in *; lia).
    unfold hsv_h; cbn [fst snd].
    destruct (Z.eqb_spec (Z.max (Z.max r g) b) r) as [Er | Er].
    + pose proof (quot_bounds (60 * (g - b)) d 60 Hd ltac:(unfold d; lia)).
      destruct (Z.ltb_spec (Z.quot (60 * (g - b)) d) 0); lia.
    + destruct (Z.eqb_spec (Z.max (Z.max r g) b) g) as [Eg | Eg].
      * pose proof (quot_bounds (60 * (b - r)) d 60 Hd ltac:(unfold d; lia)).
        destruct (Z.ltb_spec (120 + Z.quot (60 * (b - r)) d) 0); lia.
      * pose proof (quot_bounds (60 * (r - g)) d 60 Hd ltac:(unfold d; lia)).
        destruct (Z.ltb_spec (240 + Z.quot (60 * (r - g)) d) 0); lia.
  - unfold RGBtoHSV.
    destruct (Z.eqb_spec (Z.max (Z.max r g) b) 0) as [E | E]; [unfold hsv_h, hsv_s; cbn [fst snd]; lia |].
    set (m := Z.max (Z.max r g) b).
    set (d := m - Z.min (Z.min r g) b).
    assert (Hs : 0 <= Z.quot (d * 255) m <= 255)
      by (apply quot_nonneg_bounds; unfold d, m in *; lia).
    destruct (d =? 0); unfold hsv_s; cbn [fst snd]; lia.
Qed.

(** ** The round trip HSV -> RGB -> HSV *)

Lemma RGBtoHSV_s (r g b : Z) :
  Z.max (Z.max r g) b <> 0 ->
  hsv_s (RGBtoHSV r g b)
  = Z.quot ((Z.max (Z.max r g) b - Z.min (Z.min r g) b) * 255) (Z.max (Z.max r g) b).
Proof.
  intros H. unfold RGBtoHSV.
  destruct (Z.eqb_spec (Z.max (Z.max r g) b) 0) as [E | _]; [contradiction |].
  destruct (_ =? 0); reflexivity.
Qed.

(** The largest channel [HSVtoRGB] returns is [v], the smallest is
    [v * (255 - s) / 255]. *)
Lemma HSVtoRGB_extremes (h s v : Z) :
  0 <= h <= 359 -> is_u8 s -> is_u8 v ->
  exists r g b,
    HSVtoRGB h s v = (r, g, b) /\
    is_u8 r /\ is_u8 g /\ is_u8 b /\
    Z.max (Z.max r g) b = v /\
    Z.min (Z.min r g) b = Z.quot (v * (255 - s)) 255.
Proof.
  intros Hh Hs Hv.
  destruct (Z.eq_dec s 0) as [E | E].
  - subst s. unfold HSVtoRGB; cbn [Z.eqb].
    rewrite (to_u8_small v Hv). exists v, v, v.
    replace (v * (255 - 0)) with (v * 255) by lia. rewrite Z.quot_mul by lia.
    unfold is_u8 in *. repeat split; lia.
  - destruct (HSVtoRGB_sectors h s v Hh E) as [Hr Hc].
    destruct (HSVtoRGB_weights s v (Z.rem h 60) Hs Hv Hr)
      as (Hp & Hq & Ht & Hpq & Hpt).
    unfold is_u8 in Hv.
    rewrite !to_u8_small in Hc by (unfold is_u8; lia).
    destruct Hc as [Hc | [Hc | [Hc | [Hc | [Hc | Hc]]]]];
      rewrite Hc; do 3 eexists; (split; [reflexivity |]);
      unfold is_u8; repeat split; lia.
Qed.

(** At full saturation and full value every hue comes back exactly. *)
Lemma full_color_round_trip (h : Z) :
  0 <= h <= 359 -> hsv_h (hsv_round_trip h 255 255) = h.
Proof.
  intros Hh.
  assert (A : forallb (fun x => hsv_h (hsv_round_trip x 255 255) =? x)
                (map Z.of_nat (seq 0 360)) = true) by (vm_compute; reflexivity).
  rewrite forallb_forall in A. apply Z.eqb_eq, A.
  apply in_map_iff. exists (Z.to_nat h). split; [lia |].
  apply in_seq. lia.
Qed.

(** The share of the way from [p] to [v] that a weight of [HSVtoRGB] covers
    decides the hue [RGBtoHSV] reads back.  With the 8-bit roundings it is
    within one sixtieth of [60 - n] as soon as [s * v] is large enough for
    the linear bounds on the roundings. *)
Lemma sector_weight_hue_large (s v n : Z) :
  1 <= s <= 255 -> 1 <= v <= 255 -> 15046 <= s * v -> 0 <= n <= 60 ->
  let p := Z.quot (v * (255 - s)) 255 in
  let w := Z.quot (v * (255 - Z.quot (s * n) 60)) 255 in
  59 - n <= (60 * (w - p)) / (v - p) <= 61 - n.
Proof.
  intros Hs Hv Hsv Hn; cbv zeta.
  rewrite (Z.quot_div_nonneg (s * n) 60) by nia.
  set (a := s * n / 60).
  assert (Ha : 60 * a <= s * n <= 60 * a + 59).
  { unfold a. pose proof (Z.mul_div_le (s * n) 60 ltac:(lia)).
    pose proof (Z.mul_succ_div_gt (s * n) 60 ltac:(lia)). lia. }
  assert (Ha0 : 0 <= a <= s) by nia.
  rewrite !Z.quot_div_nonneg by nia.
  set (p := v * (255 - s) / 255). set (w := v * (255 - a) / 255).
  assert (Hp : 255 * p <= v * (255 - s) <= 255 * p + 254).
  { unfold p. pose proof (Z.mul_div_le (v * (255 - s)) 255 ltac:(lia)).
    pose proof (Z.mul_succ_div_gt (v * (255 - s)) 255 ltac:(lia)). lia. }
  assert (Hw : 255 * w <= v * (255 - a) <= 255 * w + 254).
  { unfold w. pose proof (Z.mul_div_le (v * (255 - a)) 255 ltac:(lia)).
    pose proof (Z.mul_succ_div_gt (v * (255 - a)) 255 ltac:(lia)). lia. }
  assert (N1 : 60 * (v * a) <= v * (s * n) <= 60 * (v * a) + 59 * v) by nia.
  assert (N3 : v * s <= 255 * v) by nia.
  assert (N0 : 0 <= v * a <= v * s) by nia.
  assert (D : v * s <= 255 * (v - p) <= v * s + 254) by lia.
  assert (N4 : n * (v * s) <= n * (255 * (v - p)) <= n * (v * s + 254)) by nia.
  assert (Hvs : v * s = s * v) by lia.
  split.
  - apply Z.div_le_lower_bound; [lia |]. lia.
  - apply Z.lt_succ_r. apply Z.div_lt_upper_bound; [lia |]. lia.
Qed.

(** Below that, down to [s * v = 13516], the roundings are followed one
    by one. *)
Lemma sector_weight_hue_band (s v n : Z) :
  1 <= s <= 255 -> 1 <= v <= 255 -> 13516 <= s * v < 15046 -> 0 <= n <= 60 ->
  let p := Z.quot (v * (255 - s)) 255 in
  let w := Z.quot (v * (255 - Z.quot (s * n) 60)) 255 in
  59 - n <= (60 * (w - p)) / (v - p) <= 61 - n.
Proof.
  intros Hs Hv Hsv Hn; cbv zeta.
  assert (A : forallb (fun s0 => forallb (fun v0 =>
                if (13516 <=? s0 * v0) && (s0 * v0 <? 15046) then
                  (forallb (fun n0 =>
                     let p := Z.quot (v0 * (255 - s0)) 255 in
                     let w := Z.quot (v0 * (255 - Z.quot (s0 * n0) 60)) 255 in
                     (59 - n0 <=? (60 * (w - p)) / (v0 - p)) &&
                     ((60 * (w - p)) / (v0 - p) <=? 61 - n0))
                     (map Z.of_nat (seq 0 61)))
                else true)
                (map Z.of_nat (seq 54 202))) (map Z.of_nat (seq 54 202)) = true)
    by (vm_compute; reflexivity).
  rewrite forallb_forall in A.
  assert (Is : In s (map Z.of_nat (seq 54 202))).
  { apply in_map_iff. exists (Z.to_nat s). split; [nia |]. apply in_seq. nia. }
  specialize (A s Is). rewrite forallb_forall in A.
  assert (Iv : In v (map Z.of_nat (seq 54 202))).
  { apply in_map_iff. exists (Z.to_nat v). split; [nia |]. apply in_seq. nia. }
  specialize (A v Iv).
  replace ((13516 <=? s * v) && (s * v <? 15046)) with true in A
    by (symmetry; apply andb_true_iff; split;
        [apply Z.leb_le | apply Z.ltb_lt]; lia).
  rewrite forallb_forall in A.
  assert (In' : In n (map Z.of_nat (seq 0 61))).
  { apply in_map_iff. exists (Z.to_nat n). split; [lia |]. apply in_seq. lia. }
  specialize (A n In'). cbv zeta in A.
  apply andb_true_iff in A. destruct A as [A1 A2].
  apply Z.leb_le in A1. apply Z.leb_le in A2. split; assumption.
Qed.

Lemma sector_weight_hue (s v n : Z) :
  1 <= s <= 255 -> 1 <= v <= 255 -> 13516 <= s * v -> 0 <= n <= 60 ->
  let p := Z.quot (v * (255 - s)) 255 in
  let w := Z.quot (v * (255 - Z.quot (s * n) 60)) 255 in
  59 - n <= (60 * (w - p)) / (v - p) <= 61 - n.
Proof.
  intros Hs Hv Hsv Hn.
  destruct (Z.lt_ge_cases (s * v) 15046) as [Hlt | Hge].
  - apply sector_weight_hue_band; lia.
  - apply sector_weight_hue_large; lia.
Qed.

(** The hue [RGBtoHSV] gives to a pixel that is neither black nor gray. *)
Lemma RGBtoHSV_h (r g b : Z) :
  let m := Z.max (Z.max r g) b in
  let d := m - Z.min (Z.min r g) b in
  m <> 0 -> d <> 0 ->
  hsv_h (RGBtoHSV r g b)
  = (let h := if m =? r then Z.quot (60 * (g - b)) d
              else if m =? g then 120 + Z.quot (60 * (b - r)) d
              else 240 + Z.quot (60 * (r - g)) d in
     if h <? 0 then h + 360 else h).
Proof.
  cbv zeta. intros Hm Hd. unfold RGBtoHSV.
  destruct (Z.eqb_spec (Z.max (Z.max r g) b) 0) as [E | _]; [contradiction |].
  destruct (Z.eqb_spec (Z.max (Z.max r g) b - Z.min (Z.min r g) b) 0) as [E | _];
    [contradiction |].
  reflexivity.
Qed.

(** The pixel [HSVtoRGB] makes in each sector, without the casts. *)
Lemma HSVtoRGB_by_sector (h s v : Z) :
  0 <= h <= 359 -> 1 <= s <= 255 -> is_u8 v ->
  let k := Z.quot h 60 in
  let n := Z.rem h 60 in
  let p := Z.quot (v * (255 - s)) 255 in
  let q := Z.quot (v * (255 - Z.quot (s * n) 60)) 255 in
  let t := Z.quot (v * (255 - Z.quot (s * (60 - n)) 60)) 255 in
  h = 60 * k + n /\ 0 <= n < 60 /\
  ((k = 0 /\ HSVtoRGB h s v = (v, t, p)) \/
   (k = 1 /\ HSVtoRGB h s v = (q, v, p)) \/
   (k = 2 /\ HSVtoRGB h s v = (p, v, t)) \/
   (k = 3 /\ HSVtoRGB h s v = (p, q, v)) \/
   (k = 4 /\ HSVtoRGB h s v = (t, p, v)) \/
   (k = 5 /\ HSVtoRGB h s v = (v, p, q))).
Proof.
  intros Hh Hs Hv; cbv zeta.
  assert (Hn : 0 <= Z.rem h 60 < 60).
  { pose proof (Z.rem_bound_pos h 60 ltac:(lia) ltac:(lia)). lia. }
  assert (Hs8 : is_u8 s) by (unfold is_u8; lia).
  destruct (HSVtoRGB_weights s v (Z.rem h 60) Hs8 Hv Hn) as (Hp & Hq & Ht & _ & _).
  assert (Hk : 0 <= Z.quot h 60 <= 5).
  { split; [apply Z.quot_pos; lia |].
    change 5 with (Z.quot 359 60). apply Z.quot_le_mono; lia. }
  split; [apply Z.quot_rem'|]. split; [exact Hn |].
  unfold HSVtoRGB. destruct (Z.eqb_spec s 0) as [E | _]; [lia |].
  rewrite (Z.rem_small h 360) by lia.
  unfold is_u8 in Hv.
  rewrite !to_u8_small by (unfold is_u8; lia).
  assert (Ek : Z.quot h 60 = 0 \/ Z.quot h 60 = 1 \/ Z.quot h 60 = 2 \/
               Z.quot h 60 = 3 \/ Z.quot h 60 = 4 \/ Z.quot h 60 = 5) by lia.
  destruct Ek as [E | [E | [E | [E | [E | E]]]]]; rewrite E.
  - left; split; reflexivity.
  - right; left; split; reflexivity.
  - right; right; left; split; reflexivity.
  - right; right; right; left; split; reflexivity.
  - right; right; right; right; left; split; reflexivity.
  - right; right; right; right; right; split; reflexivity.
Qed.

(** When [s * v] is 13516 at least the hue comes back within one degree,
    around the circle. *)
Lemma round_trip_hue (h s v : Z) :
  0 <= h <= 359 -> 1 <= s <= 255 -> 1 <= v <= 255 -> 13516 <= s * v ->
  hue_dist (hsv_h (hsv_round_trip h s v)) h <= 1.
Proof.
  intros Hh Hs Hv Hsv.
  destruct (HSVtoRGB_by_sector h s v Hh Hs ltac:(unfold is_u8; lia))
    as (Eh & Hn & Hc).
  assert (Hs8 : is_u8 s) by (unfold is_u8; lia).
  assert (Hv8 : is_u8 v) by (unfold is_u8; lia).
  destruct (HSVtoRGB_weights s v (Z.rem h 60) Hs8 Hv8 ltac:(lia))
    as (Hp & Hq & Ht & Hpq & Hpt).
  pose proof (sector_weight_hue s v (Z.rem h 60) Hs Hv Hsv ltac:(lia)) as Fq.
  pose proof (sector_weight_hue s v (60 - Z.rem h 60) Hs Hv Hsv ltac:(lia))
    as Ft.
  cbv zeta in Fq, Ft.
  assert (Hd : 0 < v - Z.quot (v * (255 - s)) 255).
  { rewrite Z.quot_div_nonneg by nia.
    assert (v * (255 - s) / 255 < v); [| lia].
    apply Z.div_lt_upper_bound; nia. }
  unfold hsv_round_trip, hue_dist.
  set (n := Z.rem h 60) in *.
  set (p := Z.quot (v * (255 - s)) 255) in *.
  set (q := Z.quot (v * (255 - Z.quot (s * n) 60)) 255) in *.
  set (t := Z.quot (v * (255 - Z.quot (s * (60 - n)) 60)) 255) in *.
  replace (61 - (60 - n)) with (n + 1) in Ft by lia.
  replace (59 - (60 - n)) with (n - 1) in Ft by lia.
  assert (One : 60 * (v - p) / (v - p) = 60) by (apply Z.div_mul; lia).
  destruct Hc as [[Ek Hc] | [[Ek Hc] | [[Ek Hc] | [[Ek Hc] | [[Ek Hc] | [Ek Hc]]]]]];
    rewrite Hc; rewrite Ek in Eh; rewrite RGBtoHSV_h by lia; cbv zeta.
  - (* (v, t, p) *)
    replace (Z.max (Z.max v t) p) with v by lia.
    replace (Z.min (Z.min v t) p) with p by lia.
    rewrite Z.eqb_refl. rewrite Z.quot_div_nonneg by lia.
    destruct (Z.ltb_spec (60 * (t - p) / (v - p)) 0); lia.
  - (* (q, v, p) *)
    replace (Z.max (Z.max q v) p) with v by lia.
    replace (Z.min (Z.min q v) p) with p by lia.
    destruct (Z.eqb_spec v q) as [E | N].
    + rewrite <- E in *. rewrite Z.quot_div_nonneg by lia. rewrite One in *.
      cbn [Z.ltb Z.compare]. lia.
    + rewrite Z.eqb_refl.
      replace (60 * (p - q)) with (- (60 * (q - p))) by lia.
      rewrite Z.quot_opp_l by lia. rewrite Z.quot_div_nonneg by lia.
      destruct (Z.ltb_spec (120 + - (60 * (q - p) / (v - p))) 0); lia.
  - (* (p, v, t) *)
    replace (Z.max (Z.max p v) t) with v by lia.
    replace (Z.min (Z.min p v) t) with p by lia.
    destruct (Z.eqb_spec v p) as [E | _]; [lia |].
    rewrite Z.eqb_refl. rewrite Z.quot_div_nonneg by lia.
    destruct (Z.ltb_spec (120 + 60 * (t - p) / (v - p)) 0); lia.
  - (* (p, q, v) *)
    replace (Z.max (Z.max p q) v) with v by lia.
    replace (Z.min (Z.min p q) v) with p by lia.
    destruct (Z.eqb_spec v p) as [E | _]; [lia |].
    destruct (Z.eqb_spec v q) as [E | N].
    + rewrite <- E in *. rewrite Z.quot_div_nonneg by lia. rewrite One in *.
      cbn [Z.ltb Z.compare Z.add Pos.add Pos.succ Pos.add_carry]. lia.
    + replace (60 * (p - q)) with (- (60 * (q - p))) by lia.
      rewrite Z.quot_opp_l by lia. rewrite Z.quot_div_nonneg by lia.
      destruct (Z.ltb_spec (240 + - (60 * (q - p) / (v - p))) 0); lia.
  - (* (t, p, v) *)
    replace (Z.max (Z.max t p) v) with v by lia.
    replace (Z.min (Z.min t p) v) with p by lia.
    destruct (Z.eqb_spec v t) as [E | N].
    + rewrite <- E in *.
      replace (60 * (p - v)) with (- (60 * (v - p))) by lia.
      rewrite Z.quot_opp_l by lia. rewrite Z.quot_div_nonneg by lia.
      rewrite One in *. cbn [Z.ltb Z.compare Z.opp]. lia.
    + destruct (Z.eqb_spec v p) as [E | _]; [lia |].
      rewrite Z.quot_div_nonneg by lia.
      destruct (Z.ltb_spec (240 + 60 * (t - p) / (v - p)) 0); lia.
  - (* (v, p, q) *)
    replace (Z.max (Z.max v p) q) with v by lia.
    replace (Z.min (Z.min v p) q) with p by lia.
    rewrite Z.eqb_refl.
    replace (60 * (p - q)) with (- (60 * (q - p))) by lia.
    rewrite Z.quot_opp_l by lia. rewrite Z.quot_div_nonneg by lia.
    destruct (Z.ltb_spec (- (60 * (q - p) / (v - p))) 0); lia.
Qed.

(** C6 (as amended). For a hue in [0, 359] and a saturation and a value
    in [1, 255], [HSVtoRGB] followed by [RGBtoHSV] returns the value
    exactly, a hue in [0, 359], and a saturation [s'] with
    [s <= s' <= s + 254 / v]: within one unit of [s] when [v >= 128], and
    further off as [v] gets small.  The hue comes back within one degree,
    around the circle, as soon as [s * v >= 13516], and exactly at
    [s = v = 255].  So for [s] and [v] in [128, 255] all three components
    come back within one unit; below these bounds the hue and the
    saturation do not. *)
Theorem hsv_round_trip_value_exact (h s v : Z) :
  0 <= h <= 359 -> 1 <= s <= 255 -> 1 <= v <= 255 ->
  let h' := hsv_h (hsv_round_trip h s v) in
  let s' := hsv_s (hsv_round_trip h s v) in
  let v' := hsv_v (hsv_round_trip h s v) in
  v' = v /\
  s <= s' <= s + 254 / v /\
  (128 <= v -> Z.abs (s' - s) <= 1) /\
  0 <= h' <= 359 /\
  (s = 255 -> v = 255 -> h' = h) /\
  (13516 <= s * v -> hue_dist h' h <= 1) /\
  (128 <= s -> 128 <= v ->
   hue_dist h' h <= 1 /\ Z.abs (s' - s) <= 1 /\ Z.abs (v' - v) <= 1).
Proof.
  intros Hh Hs Hv; cbv zeta.
  assert (Hs8 : is_u8 s) by (unfold is_u8; lia).
  assert (Hv8 : is_u8 v) by (unfold is_u8; lia).
  destruct (HSVtoRGB_extremes h s v Hh Hs8 Hv8)
    as (r & g & b & E & Hr & Hg & Hb & Hmax & Hmin).
  assert (Hsat : s <= hsv_s (hsv_round_trip h s v) <= s + 254 / v).
  { unfold hsv_round_trip. rewrite E, RGBtoHSV_s by lia. rewrite Hmax, Hmin.
    set (p := Z.quot (v * (255 - s)) 255).
    assert (Hp : 255 * p <= v * (255 - s) < 255 * p + 255).
    { unfold p. rewrite Z.quot_div_nonneg by nia.
      pose proof (Z.mul_div_le (v * (255 - s)) 255 ltac:(lia)).
      pose proof (Z.mul_succ_div_gt (v * (255 - s)) 255 ltac:(lia)). lia. }
    assert (Hpv : 0 <= p <= v) by (apply scale_bounds; lia).
    rewrite Z.quot_div_nonneg by nia. split.
    - apply Z.div_le_lower_bound; nia.
    - replace (s + 254 / v) with ((s * v + 254) / v)
        by (rewrite Z.div_add_l by lia; reflexivity).
      apply Z.div_le_mono; nia. }
  assert (Hval : hsv_v (hsv_round_trip h s v) = v).
  { unfold hsv_round_trip. rewrite E, RGBtoHSV_v. exact Hmax. }
  assert (Hnear : 128 <= v -> Z.abs (hsv_s (hsv_round_trip h s v) - s) <= 1).
  { intros Hbig.
    assert (254 / v <= 1).
    { apply Z.lt_succ_r. apply Z.div_lt_upper_bound; lia. }
    lia. }
  repeat apply conj.
  - exact Hval.
  - apply Hsat.
  - apply Hsat.
  - exact Hnear.
  - unfold hsv_round_trip. rewrite E. apply RGBtoHSV_range; assumption.
  - unfold hsv_round_trip. rewrite E. apply RGBtoHSV_range; assumption.
  - intros -> ->. now apply full_color_round_trip.
  - intros Hsv. now apply round_trip_hue.
  - intros Hs1 Hv1. split; [apply round_trip_hue; nia |].
    split; [now apply Hnear |]. rewrite Hval. lia.
Qed.

(** Both bounds are as low as they can be: at [s * v = 13515] a hue is two
    degrees off, and at [v = 127] a saturation is two units off. *)
Example hue_35_comes_back_as_33 : hsv_round_trip 35 255 53 = (33, 255, 53).
Proof. reflexivity. Qed.

Example saturation_253_comes_back_as_255 :
  hsv_round_trip 0 253 127 = (0, 255, 127).
Proof. reflexivity. Qed.

(** C6 as stated fails: (0, 128, 1) becomes the pixel (1, 0, 0) and comes
    back as (0, 255, 1), a saturation 127 units away; (30, 1, 255) comes
    back with the hue 60. *)
Example hue_30_comes_back_as_60 : hsv_round_trip 30 1 255 = (60, 1, 255).
Proof. reflexivity. Qed.

Lemma hsv_round_trip_not_within_one :
  ~ (forall h s v : Z,
       0 <= h <= 359 -> 1 <= s <= 255 -> 1 <= v <= 255 ->
       hue_dist (hsv_h (hsv_round_trip h s v)) h <= 1 /\
       Z.abs (hsv_s (hsv_round_trip h s v) - s) <= 1 /\
       Z.abs (hsv_v (hsv_round_trip h s v) - v) <= 1).
Proof.
  intros H.
  destruct (H 0 128 1 ltac:(lia) ltac:(lia) ltac:(lia)) as (_ & Hs & _).
  vm_compute in Hs. apply Hs. reflexivity.
Qed.

(** ** The pipeline *)

Section Pipeline.

Context {F : Type} {RT : Runtime F}.

Local Abbreviation Strip := (StripTransform F).

Lemma static_hsv1_range (s : Strip) :
  strip_bytes s ->
  0 <= hsv_h (static_hsv1 s) <= 359 /\ is_u8 (hsv_s (static_hsv1 s)).
Proof.
  intros ((Hr & Hg & Hb) & _). unfold static_hsv1.
  destruct (static_color_enabled s).
  - pose proof (RGBtoHSV_range _ _ _ Hr Hg Hb). tauto.
  - unfold hsv_h, hsv_s, is_u8; cbn [fst snd]. lia.
Qed.

Lemma static_hsv2_range (s : Strip) :
  strip_bytes s ->
  0 <= hsv_h (static_hsv2 s) <= 359 /\ is_u8 (hsv_s (static_hsv2 s)).
Proof.
  intros (_ & (Hr & Hg & Hb)). unfold static_hsv2.
  destruct (static_color_enabled s && gradient_enabled s).
  - pose proof (RGBtoHSV_range _ _ _ Hr Hg Hb). tauto.
  - unfold hsv_h, hsv_s, is_u8; cbn [fst snd]. lia.
Qed.

(** The interpolated hue of the gradient is a hue. *)
Lemma interpH_range (h1 h2 idx n : Z) :
  0 <= h1 <= 359 -> 0 <= h2 <= 359 -> 1 < n -> 0 <= idx < n ->
  let hDiff := h2 - h1 in
  let hDiff := if 180 <? hDiff then hDiff - 360 else hDiff in
  let hDiff := if hDiff <? -180 then hDiff + 360 else hDiff in
  0 <= Z.rem (h1 + Z.quot (hDiff * idx) (n - 1) + 360) 360 <= 359.
Proof.
  intros H1 H2 Hn Hi; cbv zeta.
  set (d := if (if 180 <? h2 - h1 then h2 - h1 - 360 else h2 - h1) <? -180
            then (if 180 <? h2 - h1 then h2 - h1 - 360 else h2 - h1) + 360
            else (if 180 <? h2 - h1 then h2 - h1 - 360 else h2 - h1)).
  assert (Hd : -180 <= d <= 180).
  { unfold d. destruct (Z.ltb_spec 180 (h2 - h1));
      match goal with |- context [?a <? ?b] => destruct (Z.ltb_spec a b) end; lia. }
  pose proof (quot_bounds (d * idx) (n - 1) 180 ltac:(lia) ltac:(nia)) as Hq.
  pose proof (Z.rem_bound_pos (h1 + Z.quot (d * idx) (n - 1) + 360) 360
                ltac:(lia) ltac:(lia)).
  lia.
Qed.

(** The interpolated saturation lies between the two saturations. *)
Lemma interpS_range (s1 s2 idx n : Z) :
  is_u8 s1 -> is_u8 s2 -> 1 < n -> 0 <= idx < n ->
  is_u8 (s1 + Z.quot ((s2 - s1) * idx) (n - 1)).
Proof.
  unfold is_u8. intros H1 H2 Hn Hi.
  destruct (Z.le_ge_cases s1 s2) as [L | L].
  - pose proof (quot_nonneg_bounds ((s2 - s1) * idx) (n - 1) (s2 - s1)
                  ltac:(lia) ltac:(nia)). lia.
  - pose proof (quot_nonpos_bounds ((s2 - s1) * idx) (n - 1) (s1 - s2)
                  ltac:(lia) ltac:(nia)). lia.
Qed.

Lemma value_of_max (c : Z * Z * Z) :
  value_of c = Z.max (Z.max (fst (fst c)) (snd (fst c))) (snd c).
Proof. destruct c as [[r g] b]. apply RGBtoHSV_v. Qed.

(** [HSVtoRGB] on a hue, a saturation and a value in range: no channel is
    above [v], and the value of the result is [v]. *)
Lemma HSVtoRGB_value (h s v : Z) :
  0 <= h <= 359 -> is_u8 s -> is_u8 v ->
  channels_le (HSVtoRGB h s v) v /\ value_of (HSVtoRGB h s v) = v.
Proof.
  intros Hh Hs Hv.
  destruct (HSVtoRGB_channels h s v Hh Hs Hv) as (r & g & b & E & Hr & Hg & Hb & Hm).
  rewrite value_of_max, E. unfold channels_le; cbn [fst snd]. lia.
Qed.

(** Step 3 with a static color, on a pixel of the strip: no channel of the
    result is above the value of the pixel it was given, and the result has
    that same value. *)
Lemma color_stage_static (strip : Strip) (numLEDs i : Z) (c : Z * Z * Z) :
  static_color_enabled strip = true ->
  strip_bytes strip -> pixel_u8 c -> pixel_in_strip numLEDs i ->
  channels_le (color_stage strip numLEDs i c) (value_of c) /\
  value_of (color_stage strip numLEDs i c) = value_of c.
Proof.
  intros Hst Hby Hc [Hi0 Hi].
  pose proof (static_hsv1_range strip Hby) as [Hh1 Hs1].
  pose proof (static_hsv2_range strip Hby) as [Hh2 Hs2].
  destruct c as [[cr cg] cb]. destruct Hc as (Hr & Hg & Hb); cbn [fst snd] in *.
  pose proof (RGBtoHSV_range cr cg cb Hr Hg Hb) as (Hh & Hs & Hv).
  assert (Hidx : 0 <= Z.quot i 3) by (apply Z.quot_pos; lia).
  change (value_of (cr, cg, cb)) with (hsv_v (RGBtoHSV cr cg cb)).
  unfold color_stage. rewrite Hst.
  destruct (gradient_enabled strip && (1 <? numLEDs)) eqn:G.
  - apply andb_true_iff in G. destruct G as [_ G]. apply Z.ltb_lt in G.
    apply HSVtoRGB_value; [| | assumption].
    + apply interpH_range; lia.
    + apply interpS_range; [assumption | assumption | lia | lia].
  - apply HSVtoRGB_value; assumption.
Qed.

(** Step 3 without a static color: the same two facts, for a hue shift and
    a saturation in their ranges. *)
Lemma color_stage_hue_sat (strip : Strip) (numLEDs i : Z) (c : Z * Z * Z) :
  static_color_enabled strip = false ->
  strip_in_range strip -> pixel_u8 c ->
  channels_le (color_stage strip numLEDs i c) (value_of c) /\
  value_of (color_stage strip numLEDs i c) = value_of c.
Proof.
  intros Hst (Hhue & Hsat & _) Hc.
  destruct c as [[cr cg] cb]. destruct Hc as (Hr & Hg & Hb); cbn [fst snd] in *.
  pose proof (RGBtoHSV_range cr cg cb Hr Hg Hb) as (Hh & Hs & Hv).
  change (value_of (cr, cg, cb)) with (hsv_v (RGBtoHSV cr cg cb)).
  unfold color_stage. rewrite Hst.
  destruct (negb (hue_shift strip =? 0) || negb (saturation strip =? 100)).
  - destruct (RGBtoHSV cr cg cb) as [[h s] v] eqn:E.
    unfold hsv_h, hsv_s, hsv_v in Hh, Hs, Hv |- *; cbn [fst snd] in Hh, Hs, Hv |- *.
    apply HSVtoRGB_value; [| | assumption].
    + pose proof (Z.rem_bound_pos (h + hue_shift strip) 360 ltac:(lia) ltac:(lia)).
      lia.
    + unfold is_u8 in *.
      destruct (negb (saturation strip =? 100)); [| assumption].
      pose proof (Z.quot_pos (s * saturation strip) 100 ltac:(nia) ltac:(lia)).
      lia.
  - split; [| reflexivity]. rewrite RGBtoHSV_v.
    unfold channels_le, is_u8 in *; cbn [fst snd]. lia.
Qed.

(** Brightness scaling keeps a dark pixel dark. *)
Lemma brightness_stage_zero (strip : Strip) :
  brightness_stage strip (0, 0, 0) = (0, 0, 0).
Proof.
  unfold brightness_stage. destruct (negb (brightness strip =? 100)); reflexivity.
Qed.

(** C1. A strip whose [enabled] flag is false leaves every buffer as it is,
    byte for byte: [TransformStrip] returns at once.  The identity defaults
    that [InitConfig] gives to every strip are such a strip. *)
Theorem TransformStrip_inactive (strip : Strip) (data : list Z) :
  enabled strip = false ->
  TransformStrip strip data = data /\
  TransformStrip identity_strip data = data /\
  Forall (fun s => TransformStrip s data = data) (strips InitConfig).
Proof.
  intros H. unfold TransformStrip. rewrite H. repeat split.
  apply Forall_forall. intros s Hs. apply repeat_spec in Hs. now subst s.
Qed.

(** *** The loop over the buffer *)

Lemma TransformStrip_loop_length (strip : Strip) (numLEDs : Z) (data : list Z) (i : Z) :
  List.length (TransformStrip_loop strip numLEDs i data) = List.length data.
Proof.
  assert (G : forall (n : nat) (data : list Z) (i : Z),
             (List.length data <= n)%nat ->
             List.length (TransformStrip_loop strip numLEDs i data) = List.length data).
  { induction n as [| n IH]; intros d j Hn.
    - destruct d; [reflexivity | cbn in Hn; lia].
    - destruct d as [| r [| g [| b rest]]]; try reflexivity.
      cbn [TransformStrip_loop].
      destruct (transform_pixel strip numLEDs j r g b) as [[cr cg] cb].
      cbn [List.length] in *. rewrite IH by lia. reflexivity. }
  now apply (G (List.length data)).
Qed.

(** The loop writes to pixel [k] what [transform_pixel] makes, at the byte
    offset of that pixel, of the three bytes it reads there. *)
Lemma TransformStrip_loop_pixel
  (strip : Strip) (numLEDs : Z) (k : nat) (data : list Z) (i : Z) :
  (3 * k + 2 < List.length data)%nat ->
  pixel_at (TransformStrip_loop strip numLEDs i data) k
  = transform_pixel strip numLEDs (i + 3 * Z.of_nat k)
      (nth (3 * k) data 0) (nth (3 * k + 1) data 0) (nth (3 * k + 2) data 0).
Proof.
  revert data i. induction k as [| k IH]; intros data i Hk.
  - destruct data as [| r [| g [| b rest]]]; cbn [List.length] in Hk; try lia.
    cbn [TransformStrip_loop]. replace (i + 3 * Z.of_nat 0) with i by lia.
    unfold pixel_at. cbn [Nat.mul Nat.add nth].
    now destruct (transform_pixel strip numLEDs i r g b) as [[cr cg] cb].
  - destruct data as [| r [| g [| b rest]]]; cbn [List.length] in Hk; try lia.
    cbn [TransformStrip_loop].
    destruct (transform_pixel strip numLEDs i r g b) as [[cr cg] cb].
    unfold pixel_at in *.
    replace (3 * S k)%nat with (S (S (S (3 * k)))) by lia.
    cbn [Nat.add nth].
    specialize (IH rest (i + 3) ltac:(lia)).
    replace (i + 3 * Z.of_nat (S k)) with (i + 3 + 3 * Z.of_nat k) by lia.
    exact IH.
Qed.

(** Pixel [k] of a buffer of [n] whole pixels is a pixel of the strip, as
    [TransformStrip] counts them. *)
Lemma TransformStrip_pixel (strip : Strip) (data : list Z) (n k : nat) :
  enabled strip = true -> List.length data = (3 * n)%nat -> (k < n)%nat ->
  pixel_in_strip (Z.of_nat n) (3 * Z.of_nat k) /\
  pixel_at (TransformStrip strip data) k
  = transform_pixel strip (Z.of_nat n) (3 * Z.of_nat k)
      (nth (3 * k) data 0) (nth (3 * k + 1) data 0) (nth (3 * k + 2) data 0).
Proof.
  intros He Hn Hk. split.
  - unfold pixel_in_strip. split; [lia |].
    rewrite Z.mul_comm, Z.quot_mul by lia. lia.
  - unfold TransformStrip. rewrite He. cbn [negb].
    rewrite TransformStrip_loop_pixel by lia. f_equal.
    rewrite Hn, Nat2Z.inj_mul. change (Z.of_nat 3) with 3.
    rewrite Z.mul_comm, Z.quot_mul by lia. reflexivity.
Qed.

End Pipeline.

(** ** The gamma table *)

Lemma range256_nth (i : Z) :
  0 <= i <= 255 -> nth (Z.to_nat i) range256 0 = i.
Proof.
  intros H. unfold range256.
  change 0 with (Z.of_nat 0) at 1. rewrite map_nth.
  rewrite seq_nth by lia. lia.
Qed.

Lemma lut_at_map (f : Z -> Z) (i : Z) :
  0 <= i <= 255 -> lut_at (map f range256) i = f i.
Proof.
  intros H. unfold lut_at.
  rewrite (nth_indep _ 0 (f 0)).
  - rewrite map_nth. now rewrite range256_nth.
  - rewrite length_map. unfold range256. rewrite length_map, length_seq. lia.
Qed.

Section GammaTable.

Context {F : Type} {RT : Runtime F}.

(** An entry of the table, either branch. *)
Lemma BuildGammaLUT_at (gamma : F) (i : Z) :
  0 <= i <= 255 ->
  lut_at (BuildGammaLUT gamma) i
  = if f_eqb gamma f_one then i else gamma_entry (f_div f_one gamma) i.
Proof.
  intros H. unfold BuildGammaLUT. destruct (f_eqb gamma f_one).
  - rewrite lut_at_map by exact H. apply to_u8_small. exact H.
  - now rewrite lut_at_map.
Qed.

(** With [gamma == 1.0f] the table is the identity, whatever the floats do. *)
Lemma BuildGammaLUT_identity (gamma : F) (i : Z) :
  f_eqb gamma f_one = true -> 0 <= i <= 255 ->
  lut_at (BuildGammaLUT gamma) i = i.
Proof.
  intros E H. rewrite BuildGammaLUT_at by exact H. now rewrite E.
Qed.

(** When [powf] returns 1 for the exponent [1 / gamma] (as it does for an
    exponent of zero), every entry of the table is 255. *)
Lemma BuildGammaLUT_flat (gamma : F) (i : Z) :
  f_eqb gamma f_one = false ->
  (forall x, f_powf x (f_div f_one gamma) = f_one) ->
  f_to_int (f_add (f_mul f_one f_255) f_half) = 255 ->
  0 <= i <= 255 ->
  lut_at (BuildGammaLUT gamma) i = 255.
Proof.
  intros E Hp Hr H. rewrite BuildGammaLUT_at by exact H. rewrite E.
  unfold gamma_entry. rewrite Hp, Hr. reflexivity.
Qed.

(** Every entry read from a table is a byte. *)
Lemma BuildGammaLUT_u8 (gamma : F) (c : Z) : is_u8 (lut_at (BuildGammaLUT gamma) c).
Proof.
  assert (A : Forall is_u8 (BuildGammaLUT gamma)).
  { unfold BuildGammaLUT, gamma_entry, to_u8, is_u8.
    destruct (f_eqb gamma f_one); apply Forall_forall; intros x Hx;
      apply in_map_iff in Hx; destruct Hx as (i & <- & _);
      match goal with
      | |- 0 <= ?a mod 256 <= 255 =>
          pose proof (Z.mod_pos_bound a 256 ltac:(lia)); lia
      end. }
  unfold lut_at.
  destruct (Nat.lt_ge_cases (Z.to_nat c) (List.length (BuildGammaLUT gamma))) as [L | L].
  - rewrite Forall_forall in A. apply A. now apply nth_In.
  - rewrite nth_overflow by exact L. unfold is_u8. lia.
Qed.

(** The pixel after gamma correction, for a strip that has the tables of
    its gammas. *)
Lemma gamma_stage_u8 (strip : StripTransform F) (c : Z * Z * Z) :
  luts_current strip -> pixel_u8 (gamma_stage strip c).
Proof.
  intros (Er & Eg & Eb). destruct c as [[cr cg] cb].
  unfold gamma_stage, pixel_u8; cbn [fst snd]. rewrite Er, Eg, Eb.
  repeat split; apply BuildGammaLUT_u8.
Qed.

Context {L : RuntimeLaws RT}.

Lemma clamp_u8 (val : Z) :
  to_u8 (Z.min (Z.max val 0) 255) = Z.min (Z.max val 0) 255.
Proof. apply to_u8_small. unfold is_u8. lia. Qed.

Lemma gamma_entry_mono (inv : F) (i j : Z) :
  f_le (f_of_int 0) inv -> 0 <= i <= j -> j <= 255 ->
  gamma_entry inv i <= gamma_entry inv j.
Proof.
  intros Hinv Hij Hj. unfold gamma_entry. rewrite !clamp_u8.
  assert (Hi : 0 <= i <= 255) by lia.
  assert (Hj' : 0 <= j <= 255) by lia.
  destruct (law_div_range i Hi) as [Hi0 Hi1].
  destruct (law_div_range j Hj') as [Hj0 Hj1].
  pose proof (law_div_mono i j Hij Hj) as Hd.
  destruct (law_pow_range _ inv Hinv Hi0 Hi1) as [Hp0 _].
  destruct (law_pow_range _ inv Hinv Hj0 Hj1) as [_ Hp1].
  pose proof (law_pow_mono _ _ inv Hinv Hi0 Hd Hj1) as Hp.
  pose proof (law_round_mono _ _ Hp0 Hp Hp1). lia.
Qed.

(** C9 (as amended). With [gamma == 1.0f] the table is the identity,
    exactly.  Under the laws of [RuntimeLaws]: entry 255 is 255 for every
    gamma; entry 0 is 0 when [gamma == 1.0f] or [1 / gamma] is positive
    (every finite positive gamma; not an infinite one, for which the table
    is 255 throughout); and for a positive gamma the table does not
    decrease. *)
Theorem BuildGammaLUT_properties (gamma : F) :
  (f_eqb gamma f_one = true ->
   forall i, 0 <= i <= 255 -> lut_at (BuildGammaLUT gamma) i = i) /\
  lut_at (BuildGammaLUT gamma) 255 = 255 /\
  (f_eqb gamma f_one = true \/
   (f_le (f_of_int 0) (f_div f_one gamma) /\ ~ f_le (f_div f_one gamma) (f_of_int 0)) ->
   lut_at (BuildGammaLUT gamma) 0 = 0) /\
  (f_le (f_of_int 0) gamma -> ~ f_le gamma (f_of_int 0) ->
   forall i j, 0 <= i <= j -> j <= 255 ->
     lut_at (BuildGammaLUT gamma) i <= lut_at (BuildGammaLUT gamma) j).
Proof.
  repeat apply conj.
  - intros E i H. now apply BuildGammaLUT_identity.
  - rewrite BuildGammaLUT_at by lia. destruct (f_eqb gamma f_one); [reflexivity |].
    unfold gamma_entry. now rewrite law_div_255, law_pow_one, law_round_one.
  - intros H. rewrite BuildGammaLUT_at by lia.
    destruct (f_eqb gamma f_one); [reflexivity |].
    destruct H as [H | [H1 H2]]; [discriminate |].
    unfold gamma_entry. rewrite law_div_0, (law_pow_zero _ H1 H2), law_round_zero.
    reflexivity.
  - intros G1 G2 i j Hij Hj. rewrite !BuildGammaLUT_at by lia.
    destruct (f_eqb gamma f_one); [lia |].
    apply gamma_entry_mono; [| assumption | assumption].
    now apply law_inv_nonneg.
Qed.

(** Entry 0 of the table of a gamma that is 1.0f or has a positive
    [1 / gamma]. *)
Lemma BuildGammaLUT_dark (gamma : F) :
  f_eqb gamma f_one = true \/
  (f_le (f_of_int 0) (f_div f_one gamma) /\ ~ f_le (f_div f_one gamma) (f_of_int 0)) ->
  lut_at (BuildGammaLUT gamma) 0 = 0.
Proof.
  intros H. rewrite BuildGammaLUT_at by lia.
  destruct (f_eqb gamma f_one); [reflexivity |].
  destruct H as [H | [H1 H2]]; [discriminate |].
  unfold gamma_entry. rewrite law_div_0, (law_pow_zero _ H1 H2), law_round_zero.
  reflexivity.
Qed.

End GammaTable.

(** ** Loading the configuration *)

Lemma run_steps_app {S : Type} (a b : list (S -> S)) (s : S) :
  run_steps (a ++ b) s = run_steps b (run_steps a s).
Proof. unfold run_steps. apply fold_left_app. Qed.

Lemma run_steps_cons {S : Type} (w : S -> S) (r : list (S -> S)) (s : S) :
  run_steps (w :: r) s = run_steps r (w s).
Proof. reflexivity. Qed.

Lemma run_steps_nil {S : Type} (s : S) : run_steps [] s = s.
Proof. reflexivity. Qed.

Lemma list_update_twice {A : Type} (i : nat) (f g : A -> A) (l : list A) :
  list_update i g (list_update i f l) = list_update i (fun x => g (f x)) l.
Proof.
  revert i. induction l as [| x r IH]; intros [| j]; cbn; try reflexivity.
  now rewrite IH.
Qed.

Lemma list_update_id {A : Type} (i : nat) (l : list A) :
  list_update i (fun x => x) l = l.
Proof.
  revert i. induction l as [| x r IH]; intros [| j]; cbn; try reflexivity.
  now rewrite IH.
Qed.

Lemma Forall_list_update {A : Type} (P : A -> Prop) (i : nat) (f : A -> A) (l : list A) :
  (forall x, P x -> P (f x)) -> Forall P l -> Forall P (list_update i f l).
Proof.
  intros Hf. revert i. induction l as [| x r IH]; intros i H; [destruct i; constructor |].
  inversion H; subst. destruct i; cbn; constructor; auto.
Qed.

Section Loading.

Context {F : Type} {RT : Runtime F}.

Local Abbreviation Strip := (StripTransform F).
Local Abbreviation Config := (TransformConfig F).

Lemma on_strip_twice (i : nat) (f g : Strip -> Strip) (c : Config) :
  on_strip i g (on_strip i f c) = on_strip i (fun x => g (f x)) c.
Proof.
  unfold on_strip, set_strips; cbn. now rewrite list_update_twice.
Qed.

(** The writes of one [LoadStripFromSection] call on [config.strips[i]],
    taken together. *)
Lemma run_steps_on_strip (i : nat) (steps : list (Strip -> Strip)) (c : Config) :
  run_steps (map (on_strip i) steps) c = on_strip i (run_steps steps) c.
Proof.
  revert c.
  assert (G : forall (f : Strip -> Strip) c,
             run_steps (map (on_strip i) steps) (on_strip i f c)
             = on_strip i (fun x => run_steps steps (f x)) c).
  { induction steps as [| w r IH]; intros f c; [reflexivity |].
    cbn [map]. unfold run_steps in *; cbn [fold_left].
    rewrite on_strip_twice. apply (IH (fun x => w (f x))). }
  intros c. specialize (G (fun x => x) c).
  assert (E : on_strip i (fun x => x) c = c).
  { destruct c. unfold on_strip, set_strips; cbn. now rewrite list_update_id. }
  rewrite E in G. exact G.
Qed.

Lemma run_steps_flat_map
  (stepsf : nat -> list (Strip -> Strip)) (l : list nat) (c : Config) :
  run_steps (flat_map (fun i => map (on_strip i) (stepsf i)) l) c
  = fold_left (fun c i => on_strip i (run_steps (stepsf i)) c) l c.
Proof.
  revert c. induction l as [| i r IH]; intros c; [reflexivity |].
  cbn [flat_map fold_left]. rewrite run_steps_app, run_steps_on_strip. apply IH.
Qed.

(** [LoadConfig] when the file is there: the time stamp, then the ten
    strips, each loaded from its section with [globalDefaults] as defaults. *)
Lemma LoadConfig_present (fs : FileSys) (c : Config) :
  attributes_ok fs = true ->
  LoadConfig fs c =
  fold_left
    (fun c i =>
       on_strip i
         (LoadStripFromSection (profile fs) (nth i StripSectionNames "")
            (fun _ => globalDefaults (profile fs))) c)
    (seq 0 10)
    (match open_time fs with
     | Some t => set_lastWriteTime t c
     | None => c
     end).
Proof.
  intros H. unfold LoadConfig, LoadConfig_steps. rewrite H. cbn [negb].
  rewrite run_steps_cons.
  apply (run_steps_flat_map
           (fun i => LoadStripFromSection_steps (profile fs)
                       (nth i StripSectionNames "")
                       (fun _ => globalDefaults (profile fs)))).
Qed.

(** [LoadConfig] when the file is not there: every strip is switched off
    and nothing else changes. *)
Lemma LoadConfig_absent (fs : FileSys) (c : Config) :
  attributes_ok fs = false ->
  LoadConfig fs c =
  fold_left (fun c i => on_strip i (set_enabled false) c) (seq 0 10) c.
Proof.
  intros H. unfold LoadConfig, LoadConfig_steps. rewrite H. cbn [negb].
  generalize (seq 0 10). intros l. revert c.
  induction l as [| i r IH]; intros c; [reflexivity |].
  cbn [map fold_left]. unfold run_steps in *; cbn [fold_left]. apply IH.
Qed.

End Loading.

Lemma ParseHexColor_u8 (str : string) (c : Z * Z * Z) :
  ParseHexColor str = Some c -> pixel_u8 c.
Proof.
  unfold ParseHexColor. destruct str as [| a rest]; [discriminate |].
  destruct (negb _); [discriminate |].
  destruct (sscanf_06x _) as [val |]; [| discriminate].
  intros E; injection E as <-. unfold pixel_u8, is_u8, to_u8; cbn [fst snd].
  pose proof (Z.mod_pos_bound (Z.land (Z.shiftr val 16) 255) 256 ltac:(lia)).
  pose proof (Z.mod_pos_bound (Z.land (Z.shiftr val 8) 255) 256 ltac:(lia)).
  pose proof (Z.mod_pos_bound (Z.land val 255) 256 ltac:(lia)).
  lia.
Qed.

Lemma hue_wrap_bounds (h : Z) : 0 <= Z.rem (Z.rem h 360 + 360) 360 <= 359.
Proof.
  pose proof (Z.rem_bound_abs h 360 ltac:(lia)) as Hb.
  assert (- 360 < Z.rem h 360 < 360) by lia.
  pose proof (Z.rem_bound_pos (Z.rem h 360 + 360) 360 ltac:(lia) ltac:(lia)).
  lia.
Qed.

Ltac strip_fields :=
  unfold set_enabled, set_channelOrder, set_gamma_r, set_gamma_g, set_gamma_b,
    set_hue_shift, set_saturation, set_brightness, set_static, set_gradient,
    set_lut_r, set_lut_g, set_lut_b, static_color, gradient_color;
  cbn [enabled channelOrder gamma_r gamma_g gamma_b hue_shift saturation
       brightness static_color_enabled static_r static_g static_b
       gradient_enabled gradient_r2 gradient_g2 gradient_b2 lut_r lut_g lut_b].

(** Runs the statements of [LoadStripFromSection] one at a time on a strip
    given field by field, splitting on the two colors read. *)
Ltac load_strip :=
  unfold LoadStripFromSection, LoadStripFromSection_steps;
  repeat match goal with
         | |- context [ParseHexColor ?t] =>
             destruct (ParseHexColor t) as [[[? ?] ?] |] eqn:?
         end;
  repeat (rewrite run_steps_cons; cbv beta; strip_fields;
          repeat match goal with
                 | |- context [if static_color_enabled ?g then _ else _] =>
                     destruct (static_color_enabled g) eqn:?
                 end;
          strip_fields);
  rewrite run_steps_nil.

(** Runs statements that do not branch. *)
Ltac run_straight :=
  repeat (rewrite run_steps_cons; cbv beta; strip_fields);
  rewrite ?run_steps_nil.

Ltac strip_ok_fields :=
  unfold strip_ok, strip_in_range, strip_bytes, gradient_needs_static, luts_current;
  cbn [enabled channelOrder gamma_r gamma_g gamma_b hue_shift saturation
       brightness static_color_enabled static_r static_g static_b
       gradient_enabled gradient_r2 gradient_g2 gradient_b2 lut_r lut_g lut_b].

Ltac parsed_bytes :=
  repeat match goal with
         | H : ParseHexColor _ = Some _ |- _ =>
             apply ParseHexColor_u8 in H; unfold pixel_u8 in H; cbn [fst snd] in H
         end.

Section Invariants.

Context {F : Type} {RT : Runtime F}.

Local Abbreviation Strip := (StripTransform F).
Local Abbreviation Config := (TransformConfig F).

(** A strip loaded from a section with defaults [g] that are in range. *)
Lemma LoadStripFromSection_ok (ini : IniFile) (section : string) (g x : Strip) :
  strip_bytes g -> gradient_needs_static g ->
  strip_ok (LoadStripFromSection ini section (fun _ => g) x).
Proof.
  intros Hby Hgs. destruct x. load_strip; parsed_bytes;
    strip_ok_fields; unfold strip_bytes, gradient_needs_static, is_u8 in *;
    (repeat split; try apply hue_wrap_bounds; try lia; try solve [intuition congruence]).
Qed.

(** The global defaults, loaded with themselves as defaults. *)
Lemma globalDefaults_ok (ini : IniFile) : strip_ok (globalDefaults ini).
Proof.
  unfold globalDefaults, globalDefaults_start. load_strip; parsed_bytes;
    strip_ok_fields; unfold is_u8 in *;
    (repeat split; try apply hue_wrap_bounds; try lia; try solve [intuition congruence]).
Qed.

Lemma identity_strip_ok : strip_ok (@identity_strip F RT).
Proof.
  unfold identity_strip. strip_ok_fields. unfold is_u8.
  repeat split; try lia; congruence.
Qed.

Lemma set_enabled_ok (b : bool) (s : Strip) : strip_ok s -> strip_ok (set_enabled b s).
Proof. destruct s. unfold set_enabled. strip_ok_fields. tauto. Qed.

Lemma fold_on_strip_ok (f : nat -> Strip -> Strip) (l : list nat) (c : Config) :
  (forall i x, strip_ok x -> strip_ok (f i x)) ->
  config_ok c -> config_ok (fold_left (fun c i => on_strip i (f i) c) l c).
Proof.
  intros Hf. revert c. induction l as [| i r IH]; intros c Hc; [exact Hc |].
  cbn [fold_left]. apply IH. unfold config_ok, on_strip, set_strips; cbn [strips].
  apply Forall_list_update; [apply Hf | exact Hc].
Qed.

Lemma LoadConfig_ok (fs : FileSys) (c : Config) :
  config_ok c -> config_ok (LoadConfig fs c).
Proof.
  intros Hc. destruct (attributes_ok fs) eqn:A.
  - rewrite (LoadConfig_present fs c A).
    apply (fold_on_strip_ok
             (fun i => LoadStripFromSection (profile fs) (nth i StripSectionNames "")
                         (fun _ => globalDefaults (profile fs)))).
    + intros i x _. pose proof (globalDefaults_ok (profile fs)) as (_ & Hb & Hg & _).
      apply LoadStripFromSection_ok; assumption.
    + destruct (open_time fs); exact Hc.
  - rewrite (LoadConfig_absent fs c A).
    apply (fold_on_strip_ok (fun _ => set_enabled false)); [| exact Hc].
    intros _ x. apply set_enabled_ok.
Qed.

Lemma CheckReload_ok (fs : FileSys) (c : Config) :
  config_ok c -> config_ok (fst (CheckReload fs c)).
Proof.
  intros Hc. unfold CheckReload.
  cbn [callCounter set_callCounter].
  destruct (callCounter c + 1 <? RELOAD_INTERVAL); [exact Hc |].
  destruct (open_time fs) as [ft |].
  - destruct (negb _); cbn [fst]; [apply LoadConfig_ok |]; exact Hc.
  - destruct (lastWriteTime_set _); cbn [fst]; [| exact Hc].
    unfold config_ok; cbn [strips set_strips].
    apply Forall_forall. intros s Hs. apply in_map_iff in Hs.
    destruct Hs as (_ & <- & _). apply identity_strip_ok.
Qed.

(** Every strip of a reachable configuration is in range, has a gradient
    only with a static color, and has the tables of its own gammas. *)
Lemma reachable_ok (c : Config) : reachable c -> config_ok c.
Proof.
  induction 1 as [| fs c _ IH | fs c _ IH].
  - unfold config_ok, InitConfig; cbn [strips].
    apply Forall_forall. intros s Hs. apply repeat_spec in Hs. subst s.
    apply identity_strip_ok.
  - apply LoadConfig_ok, IH.
  - apply CheckReload_ok, IH.
Qed.

(** C5. In every configuration reachable through [InitConfig],
    [LoadConfig] (any file, with or without a global section) and
    [CheckReload] (reload or reset), a strip with [gradient_enabled] has
    [static_color_enabled]; a strip whose resolved static color is absent
    has its gradient disabled, whatever the file says about a gradient. *)
Theorem gradient_never_without_static (c : Config) (s : Strip) :
  reachable c -> In s (strips c) ->
  (gradient_enabled s = true -> static_color_enabled s = true) /\
  (static_color_enabled s = false -> gradient_enabled s = false).
Proof.
  intros Hr Hin. apply reachable_ok in Hr.
  unfold config_ok in Hr. rewrite Forall_forall in Hr.
  destruct (Hr s Hin) as (_ & _ & Hg & _). unfold gradient_needs_static in Hg.
  split; [exact Hg |].
  intros Hs. destruct (gradient_enabled s); [| reflexivity].
  rewrite Hg in Hs by reflexivity. discriminate.
Qed.

(** *** The hue shift is read modulo 360 *)

Lemma LoadStripFromSection_split
  (n : nat) (ini : IniFile) (section : string) (dv : Strip -> Strip) (x : Strip) :
  LoadStripFromSection ini section dv x
  = run_steps (skipn n (LoadStripFromSection_steps ini section dv))
      (run_steps (firstn n (LoadStripFromSection_steps ini section dv)) x).
Proof.
  unfold LoadStripFromSection. now rewrite <- run_steps_app, firstn_skipn.
Qed.

(** The statements after the clamping read the two colors only. *)
Lemma LoadStripFromSection_tail
  (iniA iniB : IniFile) (section : string) (dv : Strip -> Strip) :
  iniA section "static_color" = iniB section "static_color" ->
  iniA section "gradient_color" = iniB section "gradient_color" ->
  skipn 8 (LoadStripFromSection_steps iniA section dv)
  = skipn 8 (LoadStripFromSection_steps iniB section dv).
Proof.
  intros Hs Hg. unfold LoadStripFromSection_steps; cbn [skipn].
  unfold GetPrivateProfileStringA. rewrite Hs, Hg. reflexivity.
Qed.

(** Two files that agree on a section except for hue shifts that wrap to
    the same angle load the same strip from it. *)
Lemma LoadStripFromSection_hue (iniA iniB : IniFile) (section : string) (g x : Strip) :
  (forall k, k <> "hue_shift" -> iniA section k = iniB section k) ->
  (forall d, hue_wrap (GetPrivateProfileIntA iniA section "hue_shift" d)
             = hue_wrap (GetPrivateProfileIntA iniB section "hue_shift" d)) ->
  LoadStripFromSection iniA section (fun _ => g) x
  = LoadStripFromSection iniB section (fun _ => g) x.
Proof.
  intros Hk Hh. rewrite !(LoadStripFromSection_split 8).
  rewrite (LoadStripFromSection_tail iniA iniB) by (apply Hk; discriminate).
  f_equal. destruct x.
  unfold LoadStripFromSection_steps; cbn [firstn].
  specialize (Hh (hue_shift g)). unfold hue_wrap in Hh.
  unfold GetProfileFloat, GetPrivateProfileStringA.
  rewrite (Hk "channel_order"), (Hk "gamma_r"), (Hk "gamma_g"), (Hk "gamma_b")
    by discriminate.
  unfold GetPrivateProfileIntA at 2 3 5 6.
  rewrite (Hk "saturation"), (Hk "brightness") by discriminate.
  run_straight. rewrite Hh. reflexivity.
Qed.

Lemma globalDefaults_hue (iniA iniB : IniFile) :
  (forall k, k <> "hue_shift" -> iniA "global" k = iniB "global" k) ->
  (forall d, hue_wrap (GetPrivateProfileIntA iniA "global" "hue_shift" d)
             = hue_wrap (GetPrivateProfileIntA iniB "global" "hue_shift" d)) ->
  globalDefaults iniA = globalDefaults iniB.
Proof.
  intros Hk Hh. unfold globalDefaults. rewrite !(LoadStripFromSection_split 8).
  rewrite (LoadStripFromSection_tail iniA iniB) by (apply Hk; discriminate).
  f_equal. unfold globalDefaults_start.
  unfold LoadStripFromSection_steps; cbn [firstn].
  specialize (Hh 0). unfold hue_wrap in Hh.
  unfold GetProfileFloat, GetPrivateProfileStringA.
  rewrite (Hk "channel_order"), (Hk "gamma_r"), (Hk "gamma_g"), (Hk "gamma_b")
    by discriminate.
  unfold GetPrivateProfileIntA at 2 3 5 6.
  rewrite (Hk "saturation"), (Hk "brightness") by discriminate.
  run_straight. rewrite Hh. reflexivity.
Qed.

Lemma list_update_ext {A : Type} (i : nat) (f g : A -> A) (l : list A) :
  (forall x, f x = g x) -> list_update i f l = list_update i g l.
Proof.
  intros H. revert i. induction l as [| x r IH]; intros [| i]; cbn; try reflexivity.
  - now rewrite H.
  - now rewrite IH.
Qed.

Lemma fold_on_strip_ext (f g : nat -> Strip -> Strip) (l : list nat) (c : Config) :
  (forall i x, f i x = g i x) ->
  fold_left (fun c i => on_strip i (f i) c) l c
  = fold_left (fun c i => on_strip i (g i) c) l c.
Proof.
  intros H. revert c. induction l as [| i r IH]; intros c; [reflexivity |].
  cbn [fold_left]. rewrite IH. unfold on_strip.
  now rewrite (list_update_ext i (f i) (g i)) by apply H.
Qed.

Lemma hue_wrap_range (h : Z) : 0 <= hue_wrap h <= 359.
Proof. apply hue_wrap_bounds. Qed.

(** the wrap moves the angle by a multiple of 360 *)
Lemma hue_wrap_congruent (h : Z) : (hue_wrap h - h) mod 360 = 0.
Proof.
  unfold hue_wrap.
  pose proof (Z.rem_bound_abs h 360 ltac:(lia)) as Hb.
  pose proof (Z.quot_rem' h 360) as Hq.
  destruct (Z_lt_le_dec (Z.rem h 360) 0) as [Hneg | Hpos].
  - rewrite (Z.rem_small (Z.rem h 360 + 360) 360) by lia.
    replace (Z.rem h 360 + 360 - h) with ((1 - Z.quot h 360) * 360) by lia.
    apply Z_mod_mult.
  - replace (Z.rem h 360 + 360) with (Z.rem h 360 + 1 * 360) by lia.
    rewrite Z.rem_add by lia.
    rewrite (Z.rem_small (Z.rem h 360) 360) by lia.
    replace (Z.rem h 360 - h) with ((- Z.quot h 360) * 360) by lia.
    apply Z_mod_mult.
Qed.

(** *** Sample files *)

Lemma ini_set_same (section key value : string) (ini : IniFile) :
  ini_set section key value ini section key = Some value.
Proof. unfold ini_set. now rewrite !String.eqb_refl. Qed.

Lemma ini_set_other_key (section key value : string) (ini : IniFile) (s k : string) :
  k <> key -> ini_set section key value ini s k = ini s k.
Proof.
  intros H. unfold ini_set. apply String.eqb_neq in H. rewrite H.
  now rewrite andb_false_r.
Qed.

Lemma ini_set_other_section (section key value : string) (ini : IniFile) (s k : string) :
  s <> section -> ini_set section key value ini s k = ini s k.
Proof.
  intros H. unfold ini_set. apply String.eqb_neq in H. now rewrite H.
Qed.

(** One [hue_shift] line replaced by another that wraps to the same angle:
    every section loads the same strip. *)
Lemma hue_line_same_wrap (ini : IniFile) (sec vA vB s : string) (d : Z) :
  hue_wrap (profile_int vA) = hue_wrap (profile_int vB) ->
  hue_wrap (GetPrivateProfileIntA (ini_set sec "hue_shift" vA ini) s "hue_shift" d)
  = hue_wrap (GetPrivateProfileIntA (ini_set sec "hue_shift" vB ini) s "hue_shift" d).
Proof.
  intros H. unfold GetPrivateProfileIntA.
  destruct (string_dec s sec) as [-> | Hs].
  - now rewrite !ini_set_same.
  - now rewrite !ini_set_other_section by exact Hs.
Qed.

Lemma LoadConfig_hue (ini : IniFile) (sec vA vB : string)
  (attrs : bool) (t : option FILETIME) (c : Config) :
  hue_wrap (profile_int vA) = hue_wrap (profile_int vB) ->
  LoadConfig (mkFileSys attrs t (ini_set sec "hue_shift" vA ini)) c
  = LoadConfig (mkFileSys attrs t (ini_set sec "hue_shift" vB ini)) c.
Proof.
  intros H. destruct attrs.
  - rewrite !LoadConfig_present by reflexivity. cbn [profile open_time].
    rewrite (globalDefaults_hue (ini_set sec "hue_shift" vA ini)
               (ini_set sec "hue_shift" vB ini)).
    + apply fold_on_strip_ext. intros i x. apply LoadStripFromSection_hue.
      * intros k Hk. now rewrite !ini_set_other_key by exact Hk.
      * intros d. now apply hue_line_same_wrap.
    + intros k Hk. now rewrite !ini_set_other_key by exact Hk.
    + intros d. now apply hue_line_same_wrap.
  - now rewrite !LoadConfig_absent by reflexivity.
Qed.

(** The hue shift of a loaded strip is the wrap of what the file, or the
    defaults, give. *)
Lemma LoadStripFromSection_hue_shift (ini : IniFile) (section : string) (g x : Strip) :
  hue_shift (LoadStripFromSection ini section (fun _ => g) x)
  = hue_wrap (GetPrivateProfileIntA ini section "hue_shift" (hue_shift g)).
Proof.
  destruct x. load_strip; reflexivity.
Qed.

(** C8. The hue shift a strip is loaded with is the angle read from the
    file (or inherited) wrapped into [0, 359] modulo 360, for negative and
    for large angles alike, and every strip of a reachable configuration
    has its hue shift in [0, 359].  So a file with [hue_shift=370] and the
    same file with [hue_shift=10] load the same configuration, and
    [TransformStrip] gives the same output for every strip and every
    buffer. *)
Theorem hue_shift_wraps
  (ini : IniFile) (sec vA vB : string) (attrs : bool) (t : option FILETIME)
  (c c0 : Config) (s0 g x : Strip) (index : nat) (data : list Z) :
  profile_int vA = 370 -> profile_int vB = 10 ->
  reachable c0 -> In s0 (strips c0) ->
  let raw := GetPrivateProfileIntA ini sec "hue_shift" (hue_shift g) in
  let loaded := hue_shift (LoadStripFromSection ini sec (fun _ => g) x) in
  let cA := LoadConfig (mkFileSys attrs t (ini_set sec "hue_shift" vA ini)) c in
  let cB := LoadConfig (mkFileSys attrs t (ini_set sec "hue_shift" vB ini)) c in
  0 <= hue_shift s0 <= 359 /\
  (0 <= loaded <= 359 /\ (loaded - raw) mod 360 = 0) /\
  cA = cB /\
  TransformStrip (nth index (strips cA) identity_strip) data
  = TransformStrip (nth index (strips cB) identity_strip) data.
Proof.
  intros HA HB Hr Hin; cbv zeta.
  assert (E : LoadConfig (mkFileSys attrs t (ini_set sec "hue_shift" vA ini)) c
              = LoadConfig (mkFileSys attrs t (ini_set sec "hue_shift" vB ini)) c).
  { apply LoadConfig_hue. rewrite HA, HB. reflexivity. }
  split; [| split; [| split; [exact E | now rewrite E]]].
  - apply reachable_ok in Hr. unfold config_ok in Hr. rewrite Forall_forall in Hr.
    destruct (Hr s0 Hin) as ((Hh & _) & _). exact Hh.
  - rewrite LoadStripFromSection_hue_shift.
    split; [apply hue_wrap_range | apply hue_wrap_congruent].
Qed.

End Invariants.

(** ** The pipeline on reachable configurations *)

Section ReachablePipeline.

Context {F : Type} {RT : Runtime F}.

Local Abbreviation Strip := (StripTransform F).
Local Abbreviation Config := (TransformConfig F).

(** C7. For a strip of a reachable configuration with a static color
    (gradient or not), and any three input bytes of a pixel of the strip:
    the pixel that step 3 produces from the gamma-corrected pixel has,
    under [RGBtoHSV], exactly the value component of the gamma-corrected
    pixel.  The configured colors give hue and saturation only.  On a
    buffer of whole pixels, with the brightness at 100, this is the value
    of every pixel [TransformStrip] writes. *)
Theorem static_color_preserves_value
  (c : Config) (strip : Strip) (numLEDs i r g b : Z)
  (data : list Z) (n k : nat) :
  reachable c -> In strip (strips c) ->
  static_color_enabled strip = true -> pixel_in_strip numLEDs i ->
  let post_gamma := gamma_stage strip (reorder (channelOrder strip) r g b) in
  value_of (color_stage strip numLEDs i post_gamma) = value_of post_gamma /\
  (enabled strip = true -> brightness strip = 100 ->
   List.length data = (3 * n)%nat -> (k < n)%nat ->
   value_of (pixel_at (TransformStrip strip data) k)
   = value_of
       (gamma_stage strip
          (reorder (channelOrder strip)
             (nth (3 * k) data 0) (nth (3 * k + 1) data 0) (nth (3 * k + 2) data 0)))).
Proof.
  intros Hr Hin Hst Hi; cbv zeta.
  apply reachable_ok in Hr. unfold config_ok in Hr. rewrite Forall_forall in Hr.
  destruct (Hr strip Hin) as (_ & Hby & _ & Hl).
  split.
  - apply (color_stage_static strip numLEDs i _ Hst Hby (gamma_stage_u8 strip _ Hl) Hi).
  - intros He Hb Hn Hk.
    destruct (TransformStrip_pixel strip data n k He Hn Hk) as [Hp ->].
    unfold transform_pixel.
    destruct (reorder (channelOrder strip) (nth (3 * k) data 0)
                (nth (3 * k + 1) data 0) (nth (3 * k + 2) data 0)) as [[cr cg] cb].
    unfold brightness_stage at 1.
    destruct (color_stage strip (Z.of_nat n) (3 * Z.of_nat k)
                (gamma_stage strip (cr, cg, cb))) as [[x y] z] eqn:E.
    rewrite Hb. cbn [Z.eqb Pos.eqb negb]. rewrite <- E.
    apply (color_stage_static strip _ _ _ Hst Hby (gamma_stage_u8 strip _ Hl) Hp).
Qed.

Context {L : RuntimeLaws RT}.

(** C10 (as amended). For a hue in [0, 359] and a saturation and a value
    in [0, 255], no channel [HSVtoRGB] returns is above the value.  Hence,
    for a strip of a reachable configuration, step 3 in its static-color,
    gradient and hue/saturation forms never raises a channel above the
    value of the gamma-corrected pixel, and under a static color or
    gradient a pixel that is dark after gamma correction stays dark to the
    end of the pipeline.  An unlit input pixel is dark after gamma
    correction when the three tables map 0 to 0, which under the laws of
    [RuntimeLaws] they do when each gamma of the strip is 1.0f or has a
    positive [1 / gamma]; it is not so for every strip a file can
    configure. *)
Theorem HSVtoRGB_never_above_value
  (c : Config) (strip : Strip) (numLEDs i r g b h s v : Z) :
  0 <= h <= 359 -> is_u8 s -> is_u8 v ->
  reachable c -> In strip (strips c) -> pixel_in_strip numLEDs i ->
  let post_gamma := gamma_stage strip (reorder (channelOrder strip) r g b) in
  channels_le (HSVtoRGB h s v) v /\
  channels_le (color_stage strip numLEDs i post_gamma) (value_of post_gamma) /\
  (static_color_enabled strip = true -> post_gamma = (0, 0, 0) ->
   transform_pixel strip numLEDs i r g b = (0, 0, 0)) /\
  (static_color_enabled strip = true ->
   lut_at (lut_r strip) 0 = 0 -> lut_at (lut_g strip) 0 = 0 ->
   lut_at (lut_b strip) 0 = 0 ->
   transform_pixel strip numLEDs i 0 0 0 = (0, 0, 0)) /\
  (static_color_enabled strip = true ->
   (forall gamma, In gamma [gamma_r strip; gamma_g strip; gamma_b strip] ->
      f_eqb gamma f_one = true \/
      (f_le (f_of_int 0) (f_div f_one gamma) /\
       ~ f_le (f_div f_one gamma) (f_of_int 0))) ->
   transform_pixel strip numLEDs i 0 0 0 = (0, 0, 0)).
Proof.
  intros Hh Hs Hv Hr Hin Hi; cbv zeta.
  apply reachable_ok in Hr. unfold config_ok in Hr. rewrite Forall_forall in Hr.
  destruct (Hr strip Hin) as (Hrg & Hby & _ & Hl).
  assert (Zero : static_color_enabled strip = true ->
                 brightness_stage strip (color_stage strip numLEDs i (0, 0, 0))
                 = (0, 0, 0)).
  { intros Hst.
    assert (Hz : pixel_u8 (0, 0, 0)) by (unfold pixel_u8, is_u8; cbn; lia).
    destruct (color_stage_static strip numLEDs i (0, 0, 0) Hst Hby Hz Hi) as [Hle _].
    destruct (color_stage strip numLEDs i (0, 0, 0)) as [[r0 g0] b0].
    unfold channels_le in Hle; cbn in Hle.
    replace r0 with 0 by lia. replace g0 with 0 by lia. replace b0 with 0 by lia.
    apply brightness_stage_zero. }
  assert (Dark : static_color_enabled strip = true ->
                 lut_at (lut_r strip) 0 = 0 -> lut_at (lut_g strip) 0 = 0 ->
                 lut_at (lut_b strip) 0 = 0 ->
                 transform_pixel strip numLEDs i 0 0 0 = (0, 0, 0)).
  { intros Hst Er Eg Eb. unfold transform_pixel.
    replace (reorder (channelOrder strip) 0 0 0) with (0, 0, 0)
      by (now destruct (channelOrder strip)).
    unfold gamma_stage. rewrite Er, Eg, Eb. now apply Zero. }
  split; [| split; [| split; [| split]]].
  - apply HSVtoRGB_value; assumption.
  - pose proof (gamma_stage_u8 strip (reorder (channelOrder strip) r g b) Hl) as Hp.
    destruct (static_color_enabled strip) eqn:Hst.
    + apply (color_stage_static strip numLEDs i _ Hst Hby Hp Hi).
    + apply (color_stage_hue_sat strip numLEDs i _ Hst Hrg Hp).
  - intros Hst E. unfold transform_pixel.
    destruct (reorder (channelOrder strip) r g b) as [[cr cg] cb].
    rewrite E. now apply Zero.
  - exact Dark.
  - intros Hst Hg. destruct Hl as (Er & Eg & Eb).
    apply Dark; [exact Hst | rewrite Er | rewrite Eg | rewrite Eb];
      apply BuildGammaLUT_dark, Hg; cbn [In]; auto.
Qed.

End ReachablePipeline.

(** ** The reload scheduler *)

Lemma FILETIME_eqb_eq (a b : FILETIME) : FILETIME_eqb a b = true <-> a = b.
Proof.
  unfold FILETIME_eqb. rewrite andb_true_iff, !Z.eqb_eq.
  destruct a, b; cbn. split; [intros [-> ->]; reflexivity | intros E; now inversion E].
Qed.

Section Scheduler.

Context {F : Type} {RT : Runtime F}.

Local Abbreviation Strip := (StripTransform F).
Local Abbreviation Config := (TransformConfig F).

Lemma fold_on_strip_frame (f : nat -> Strip -> Strip) (l : list nat) (c : Config) :
  let c' := fold_left (fun c i => on_strip i (f i) c) l c in
  callCounter c' = callCounter c /\ lastWriteTime c' = lastWriteTime c.
Proof.
  cbv zeta. revert c. induction l as [| i r IH]; intros c; [split; reflexivity |].
  cbn [fold_left]. destruct (IH (on_strip i (f i) c)) as [-> ->]. split; reflexivity.
Qed.

(** [LoadConfig] does not touch the call counter. *)
Lemma LoadConfig_callCounter (fs : FileSys) (c : Config) :
  callCounter (LoadConfig fs c) = callCounter c.
Proof.
  destruct (attributes_ok fs) eqn:A.
  - rewrite (LoadConfig_present fs c A).
    rewrite (proj1 (fold_on_strip_frame _ _ _)). now destruct (open_time fs).
  - rewrite (LoadConfig_absent fs c A).
    apply (proj1 (fold_on_strip_frame (fun _ => set_enabled false) _ _)).
Qed.

(** After a load of a file that is there and can be opened, the stored
    time is the time of the file. *)
Lemma LoadConfig_lastWriteTime (fs : FileSys) (c : Config) (t : FILETIME) :
  attributes_ok fs = true -> open_time fs = Some t ->
  lastWriteTime (LoadConfig fs c) = t.
Proof.
  intros A O. rewrite (LoadConfig_present fs c A).
  rewrite (proj2 (fold_on_strip_frame _ _ _)). now rewrite O.
Qed.

(** The counter and the events of one call. *)
Lemma CheckReload_counter (fs : FileSys) (c : Config) :
  0 <= callCounter c < RELOAD_INTERVAL ->
  callCounter (fst (CheckReload fs c)) = (callCounter c + 1) mod RELOAD_INTERVAL /\
  existsb is_probe (snd (CheckReload fs c))
  = (callCounter c + 1 =? RELOAD_INTERVAL).
Proof.
  unfold RELOAD_INTERVAL. intros Hc. unfold CheckReload.
  cbn [callCounter set_callCounter]. unfold RELOAD_INTERVAL.
  destruct (Z.ltb_spec (callCounter c + 1) 300) as [L | L].
  - cbn [fst snd existsb callCounter]. rewrite Z.mod_small by lia.
    split; [reflexivity |]. symmetry. apply Z.eqb_neq. lia.
  - assert (E : callCounter c + 1 = 300) by lia. rewrite E.
    change (300 mod 300) with 0. change (300 =? 300) with true.
    destruct (open_time fs) as [ft |].
    + destruct (negb _); cbn [fst snd existsb is_probe orb callCounter];
        [rewrite LoadConfig_callCounter |]; split; reflexivity.
    + destruct (lastWriteTime_set _); cbn; split; reflexivity.
Qed.

(** The number of probes in a run of calls, and the counter after it. *)
Lemma run_checks_probes (fss : list FileSys) (c : Config) :
  0 <= callCounter c < RELOAD_INTERVAL ->
  count_probes (snd (run_checks fss c))
  = (callCounter c + Z.of_nat (List.length fss)) / RELOAD_INTERVAL /\
  callCounter (fst (run_checks fss c))
  = (callCounter c + Z.of_nat (List.length fss)) mod RELOAD_INTERVAL.
Proof.
  revert c. induction fss as [| fs rest IH]; intros c Hc.
  - cbn [run_checks fst snd List.length]. unfold count_probes; cbn.
    rewrite Z.add_0_r, Z.div_small, Z.mod_small by exact Hc. split; reflexivity.
  - cbn [run_checks].
    destruct (CheckReload_counter fs c Hc) as [Hcnt Hev].
    destruct (CheckReload fs c) as [c1 ev]; cbn [fst snd] in Hcnt, Hev.
    assert (Hc1 : 0 <= callCounter c1 < RELOAD_INTERVAL).
    { rewrite Hcnt. apply Z.mod_pos_bound. reflexivity. }
    destruct (IH c1 Hc1) as [IHp IHc].
    destruct (run_checks rest c1) as [c2 evs]; cbn [fst snd] in *.
    unfold count_probes in *; cbn [filter]. rewrite Hev.
    unfold RELOAD_INTERVAL in *.
    replace (Z.of_nat (List.length (fs :: rest)))
      with (1 + Z.of_nat (List.length rest)) by (cbn [List.length]; lia).
    destruct (Z.eqb_spec (callCounter c + 1) 300) as [E | E].
    + cbn [List.length]. rewrite Nat2Z.inj_succ, IHp, IHc, Hcnt, E.
      change (300 mod 300) with 0.
      replace (callCounter c + (1 + Z.of_nat (List.length rest)))
        with (Z.of_nat (List.length rest) + 1 * 300) by lia.
      rewrite Z.div_add, Z.mod_add by lia. cbn [Z.add]. split; [lia | reflexivity].
    + rewrite IHp, IHc, Hcnt. rewrite (Z.mod_small (callCounter c + 1) 300) by lia.
      split; f_equal; lia.
Qed.

(** A call that finds the stored time on the file changes nothing but the
    counter, whatever the file contains. *)
Lemma CheckReload_same_time (fs : FileSys) (c : Config) :
  open_time fs = Some (lastWriteTime c) ->
  existsb is_load (snd (CheckReload fs c)) = false /\
  strips (fst (CheckReload fs c)) = strips c /\
  lastWriteTime (fst (CheckReload fs c)) = lastWriteTime c.
Proof.
  intros O. unfold CheckReload. cbn [callCounter set_callCounter].
  destruct (callCounter c + 1 <? RELOAD_INTERVAL); [repeat split |].
  rewrite O. cbn [lastWriteTime set_callCounter].
  rewrite (proj2 (FILETIME_eqb_eq _ _) eq_refl). repeat split.
Qed.

(** On a due call with the file open, [LoadConfig] runs exactly when the
    time of the file is not the stored one. *)
Lemma CheckReload_loads_iff (fs : FileSys) (c : Config) (ft : FILETIME) :
  callCounter c + 1 = RELOAD_INTERVAL -> open_time fs = Some ft ->
  existsb is_load (snd (CheckReload fs c)) = true <-> ft <> lastWriteTime c.
Proof.
  intros D O. unfold CheckReload. cbn [callCounter set_callCounter].
  rewrite D, Z.ltb_irrefl, O. cbn [lastWriteTime set_callCounter].
  destruct (FILETIME_eqb ft (lastWriteTime c)) eqn:E; cbn.
  - apply FILETIME_eqb_eq in E. split; [discriminate | congruence].
  - split; [| reflexivity]. intros _ H. apply FILETIME_eqb_eq in H. congruence.
Qed.

(** The call counter of a reachable configuration. *)
Lemma reachable_counter (c : Config) :
  reachable c -> 0 <= callCounter c < RELOAD_INTERVAL.
Proof.
  induction 1 as [| fs c _ IH | fs c _ IH].
  - unfold RELOAD_INTERVAL; cbn. lia.
  - now rewrite LoadConfig_callCounter.
  - rewrite (proj1 (CheckReload_counter fs c IH)).
    apply Z.mod_pos_bound. reflexivity.
Qed.

(** C4. From a reachable configuration, a run of at most 300 hook calls
    probes the file system at most once, and a call that probes leaves the
    counter at zero.  On a due call that finds the file, [LoadConfig] runs
    if and only if the time of the file differs from the stored one; with
    the stored time on the file the call is a no-op on the strips.  So
    after a load of a file with time [t], a later file with the same time
    [t] is not loaded, whatever it contains. *)
Theorem reload_gating
  (fss : list FileSys) (fs fsA fsB : FileSys) (c : Config) (t : FILETIME) :
  reachable c ->
  (Z.of_nat (List.length fss) <= RELOAD_INTERVAL ->
   count_probes (snd (run_checks fss c)) <= 1) /\
  (existsb is_probe (snd (CheckReload fs c)) = true ->
   callCounter (fst (CheckReload fs c)) = 0) /\
  (forall ft, callCounter c + 1 = RELOAD_INTERVAL -> open_time fs = Some ft ->
     (existsb is_load (snd (CheckReload fs c)) = true <-> ft <> lastWriteTime c)) /\
  (open_time fs = Some (lastWriteTime c) ->
   existsb is_load (snd (CheckReload fs c)) = false /\
   strips (fst (CheckReload fs c)) = strips c /\
   lastWriteTime (fst (CheckReload fs c)) = lastWriteTime c) /\
  (attributes_ok fsA = true -> open_time fsA = Some t -> open_time fsB = Some t ->
   existsb is_load (snd (CheckReload fsB (LoadConfig fsA c))) = false /\
   strips (fst (CheckReload fsB (LoadConfig fsA c))) = strips (LoadConfig fsA c)).
Proof.
  intros Hr. pose proof (reachable_counter c Hr) as Hc. repeat apply conj.
  - intros Hn. rewrite (proj1 (run_checks_probes fss c Hc)).
    unfold RELOAD_INTERVAL in *.
    apply Z.lt_succ_r. apply Z.div_lt_upper_bound; lia.
  - intros Hp. destruct (CheckReload_counter fs c Hc) as [Hcnt Hev].
    rewrite Hev in Hp. apply Z.eqb_eq in Hp. rewrite Hcnt, Hp. reflexivity.
  - intros ft D O. now apply CheckReload_loads_iff.
  - apply CheckReload_same_time.
  - intros A OA OB.
    pose proof (LoadConfig_lastWriteTime fsA c t A OA) as Ht.
    rewrite <- Ht in OB.
    destruct (CheckReload_same_time fsB (LoadConfig fsA c) OB) as (H1 & H2 & _).
    split; assumption.
Qed.

End Scheduler.

(** ** Colors in the file *)

Section Colors.

Context {F : Type} {RT : Runtime F}.

Local Abbreviation Strip := (StripTransform F).

(** A [static_color] that [ParseHexColor] rejects loads exactly as a
    section without the key. *)
Lemma static_color_rejected_as_absent
  (ini : IniFile) (section value : string) (dv : Strip -> Strip) (x : Strip) :
  ini section "static_color" = None ->
  ParseHexColor (truncate 16 value) = None ->
  LoadStripFromSection (ini_set section "static_color" value ini) section dv x
  = LoadStripFromSection ini section dv x.
Proof.
  intros Habs Hrej.
  unfold LoadStripFromSection, LoadStripFromSection_steps.
  unfold GetProfileFloat, GetPrivateProfileIntA, GetPrivateProfileStringA.
  rewrite (ini_set_other_key section "static_color" value ini section "channel_order"),
    (ini_set_other_key section "static_color" value ini section "gamma_r"),
    (ini_set_other_key section "static_color" value ini section "gamma_g"),
    (ini_set_other_key section "static_color" value ini section "gamma_b"),
    (ini_set_other_key section "static_color" value ini section "hue_shift"),
    (ini_set_other_key section "static_color" value ini section "saturation"),
    (ini_set_other_key section "static_color" value ini section "brightness"),
    (ini_set_other_key section "static_color" value ini section "gradient_color")
    by discriminate.
  rewrite ini_set_same, Habs, Hrej.
  change (ParseHexColor (truncate 16 "")) with (@None (Z * Z * Z)).
  reflexivity.
Qed.

(** The text [zzzzzz] is rejected. *)
Lemma ParseHexColor_zzzzzz : ParseHexColor (truncate 16 "zzzzzz") = None.
Proof. reflexivity. Qed.

(** Malformed color input: a section with [static_color=zzzzzz] loads as
    the same section without the key. *)
Lemma static_color_zzzzzz_as_absent
  (ini : IniFile) (section : string) (dv : Strip -> Strip) (x : Strip) :
  ini section "static_color" = None ->
  LoadStripFromSection (ini_set section "static_color" "zzzzzz" ini) section dv x
  = LoadStripFromSection ini section dv x.
Proof.
  intros H. apply static_color_rejected_as_absent; [exact H |].
  apply ParseHexColor_zzzzzz.
Qed.

(** Six hexadecimal digits, with or without [#], give the three bytes. *)
Lemma ParseHexColor_examples :
  ParseHexColor "8000FF" = Some (128, 0, 255) /\
  ParseHexColor "#8000ff" = Some (128, 0, 255) /\
  ParseHexColor "" = None /\
  ParseHexColor "#8000F" = None /\
  ParseHexColor "8000FF0" = None.
Proof. repeat split; reflexivity. Qed.

(** C3 (the code departs from it). [ParseHexColor] checks the length
    of the text and then lets [sscanf_s] read as many hexadecimal digits as
    it finds: the six characters [12zzzz], which are not six hexadecimal
    digits, are accepted as the color 000012, and a section with
    [static_color=12zzzz] gets a static color where a section without the
    key gets none. *)
Theorem static_color_partial_hex_accepted
  (ini : IniFile) (section : string) (g x : Strip) :
  ini section "static_color" = None ->
  static_color_enabled g = false ->
  ParseHexColor "12zzzz" = Some (0, 0, 18) /\
  static_color_enabled
    (LoadStripFromSection (ini_set section "static_color" "12zzzz" ini)
       section (fun _ => g) x) = true /\
  static_color
    (LoadStripFromSection (ini_set section "static_color" "12zzzz" ini)
       section (fun _ => g) x) = (0, 0, 18) /\
  static_color_enabled (LoadStripFromSection ini section (fun _ => g) x) = false.
Proof.
  intros Habs Hg. split; [reflexivity |].
  assert (E1 : ParseHexColor
                 (GetPrivateProfileStringA
                    (ini_set section "static_color" "12zzzz" ini)
                    section "static_color" "" 16) = Some (0, 0, 18)).
  { unfold GetPrivateProfileStringA. rewrite ini_set_same. reflexivity. }
  assert (E2 : ParseHexColor
                 (GetPrivateProfileStringA ini section "static_color" "" 16) = None).
  { unfold GetPrivateProfileStringA. rewrite Habs. reflexivity. }
  destruct x. repeat split.
  - unfold LoadStripFromSection, LoadStripFromSection_steps. rewrite E1.
    load_strip; reflexivity.
  - unfold LoadStripFromSection, LoadStripFromSection_steps. rewrite E1.
    load_strip; reflexivity.
  - unfold LoadStripFromSection, LoadStripFromSection_steps. rewrite E2.
    load_strip; try discriminate; reflexivity.
Qed.

End Colors.

(** ** Reloading in place *)

Lemma trace_steps_prefix {S : Type} (steps : list (S -> S)) (s : S) (k : nat) :
  In (run_steps (firstn k steps) s) (trace_steps steps s).
Proof.
  revert s k. induction steps as [| w r IH]; intros s k.
  - rewrite firstn_nil. now left.
  - destruct k as [| k]; [now left |].
    cbn [firstn trace_steps]. rewrite run_steps_cons. right. apply IH.
Qed.

Lemma trace_steps_last {S : Type} (steps : list (S -> S)) (s d : S) :
  last (trace_steps steps s) d = run_steps steps s.
Proof.
  revert s. induction steps as [| w r IH]; intros s; [reflexivity |].
  rewrite run_steps_cons. cbn [trace_steps]. rewrite <- IH.
  destruct (trace_steps r (w s)) eqn:E; [| reflexivity].
  destruct r; discriminate.
Qed.

Section Reload.

Context {F : Type} {RT : Runtime F}.

Local Abbreviation Strip := (StripTransform F).
Local Abbreviation Config := (TransformConfig F).

(** What one call of [CheckReload] can leave in the strips. *)
Lemma CheckReload_strips (fs : FileSys) (c : Config) :
  strips (fst (CheckReload fs c)) = strips c \/
  strips (fst (CheckReload fs c)) = map (fun _ => identity_strip) (strips c) \/
  exists c0, strips c0 = strips c /\
             fst (CheckReload fs c) = run_steps (LoadConfig_steps fs) c0.
Proof.
  unfold CheckReload. cbn [callCounter set_callCounter].
  destruct (_ <? _); [now left |].
  destruct (open_time fs) as [ft |].
  - destruct (negb _); cbn [fst]; [| now left].
    right; right. eexists. split; [| reflexivity]. reflexivity.
  - destruct (lastWriteTime_set _); cbn [fst]; [| now left].
    right; left. reflexivity.
Qed.

End Reload.

(** With [gamma_r=0.5] for the first strip: after the statement that
    assigns [gamma_r], and until the tables are rebuilt, the strip has the
    new gamma next to the table of the old one. *)
Example stale_table_during_reload :
  let fs := mkFileSys true None (ini_set "title" "gamma_r" "0.5" ini_empty) in
  let c' := run_steps (firstn 3 (LoadConfig_steps fs))
              (@InitConfig Ideal.num ideal_runtime) in
  let s := nth 0 (strips c') identity_strip in
  In c' (trace_steps (LoadConfig_steps fs) InitConfig) /\
  lut_at (lut_r s) 128 = 128 /\ lut_at (BuildGammaLUT (gamma_r s)) 128 = 64.
Proof.
  cbv zeta. split; [apply trace_steps_prefix |].
  vm_compute. split; reflexivity.
Qed.

(** C2 as stated fails: during [LoadConfig] the configuration goes through
    states that are neither the old nor the new one.  After the statements
    for the first strip of the sample file, that strip has its new static
    color while the second strip still has the old brightness. *)
Lemma LoadConfig_rewrites_in_place :
  ~ (forall (fs : FileSys) (c c' : TransformConfig Ideal.num),
       In c' (trace_steps (LoadConfig_steps fs) c) ->
       strips c' = strips c \/ strips c' = strips (LoadConfig fs c)).
Proof.
  intros H.
  destruct (H sample_fs InitConfig _ (trace_steps_prefix _ _ 17)) as [E | E].
  - apply (f_equal (fun l => static_color_enabled (nth 0 l identity_strip))) in E.
    vm_compute in E. discriminate.
  - apply (f_equal (fun l => brightness (nth 1 l identity_strip))) in E.
    vm_compute in E. discriminate.
Qed.


(** ** The reference implementation satisfies the laws *)

Local Open Scope Q_scope.

Lemma fin_eq (a b : Q) : a == b -> Ideal.fin a = Ideal.fin b.
Proof. intros H. unfold Ideal.fin. f_equal. now apply Qred_complete. Qed.

Lemma Qpower_positive_mono (a b : Q) (p : positive) :
  0 <= a -> a <= b -> Qpower_positive a p <= Qpower_positive b p.
Proof.
  intros Ha Hab. induction p as [| p IH] using Pos.peano_ind.
  - exact Hab.
  - rewrite <- !Pos.add_1_r, !Qpower_plus_positive.
    apply Qmult_le_compat_nonneg; split; try assumption.
    now apply Qpower_pos_positive.
Qed.

(** a value between 0 and 1 is a rational between 0 and 1 *)
Lemma Ideal_unit_interval (x : Ideal.num) :
  Ideal.leb (Ideal.of_int 0) x = true -> Ideal.leb x (Ideal.fin 1) = true ->
  exists a, x = Ideal.Fin a /\ 0 <= a /\ a <= 1.
Proof.
  destruct x as [| [|] | a]; cbn; try discriminate.
  intros H0 H1. exists a. apply Qle_bool_iff in H0, H1. auto.
Qed.

(** a value that is not negative is [+inf] or a rational that is not
    negative *)
Lemma Ideal_nonneg (y : Ideal.num) :
  Ideal.leb (Ideal.of_int 0) y = true ->
  y = Ideal.Inf false \/ exists b, y = Ideal.Fin b /\ 0 <= b.
Proof.
  destruct y as [| [|] | b]; cbn; try discriminate.
  - now left.
  - intros H. right. exists b. apply Qle_bool_iff in H. auto.
Qed.

Lemma Ideal_ceiling_pos (b : Q) :
  0 <= b -> Ideal.is_zero b = false ->
  exists p, Ideal.ceiling b = Zpos p.
Proof.
  destruct b as [n d]. unfold Qle, Ideal.is_zero, Ideal.ceiling; cbn.
  intros H E. apply Z.eqb_neq in E.
  assert (Hn : (0 < n)%Z) by lia.
  assert (Hq : (- n / Zpos d < 0)%Z) by (apply Z.div_lt_upper_bound; lia).
  destruct (- (- n / Zpos d))%Z as [| p | p] eqn:Ep; try lia. now exists p.
Qed.

Lemma Ideal_is_neg_false (b : Q) : 0 <= b -> Ideal.is_neg b = false.
Proof.
  destruct b as [n d]. unfold Qle, Ideal.is_neg; cbn. intros H.
  apply Z.ltb_ge. lia.
Qed.

Lemma Ideal_is_zero_true (b : Q) : Ideal.is_zero b = true -> b == 0.
Proof.
  destruct b as [n d]. unfold Ideal.is_zero, Qeq; cbn. intros H.
  apply Z.eqb_eq in H. lia.
Qed.

Lemma Ideal_powf_unit (a : Q) (y : Ideal.num) :
  0 <= a -> a <= 1 ->
  Ideal.leb (Ideal.of_int 0) y = true ->
  Ideal.powf (Ideal.Fin a) y
  = if Qeq_bool a 1 then Ideal.fin 1 else Ideal.fin (Ideal.pow_unit a y).
Proof.
  intros Ha0 Ha1 Hy. unfold Ideal.powf.
  destruct (Qeq_bool a 1) eqn:E1; [reflexivity |].
  destruct (Ideal_nonneg y Hy) as [-> | (b & -> & Hb)].
  - assert (Hlt : Qle_bool 1 (Qabs a) = false).
    { apply not_true_is_false. intros H. apply Qle_bool_iff in H.
      rewrite Qabs_pos in H by exact Ha0.
      apply Qeq_bool_neq in E1. apply E1. now apply Qle_antisym. }
    now rewrite Hlt.
  - unfold Ideal.pow_unit. destruct (Ideal.is_zero b); [reflexivity |].
    now rewrite (Ideal_is_neg_false b Hb).
Qed.

Lemma Ideal_pow_unit_range (a : Q) (y : Ideal.num) :
  0 <= a -> a <= 1 -> Ideal.leb (Ideal.of_int 0) y = true ->
  0 <= Ideal.pow_unit a y /\ Ideal.pow_unit a y <= 1.
Proof.
  intros Ha0 Ha1 Hy.
  destruct (Ideal_nonneg y Hy) as [-> | (b & -> & Hb)]; cbn [Ideal.pow_unit].
  - split; [apply Qle_refl | discriminate].
  - destruct (Ideal.is_zero b) eqn:Z; [split; discriminate |].
    destruct (Ideal_ceiling_pos b Hb Z) as [p ->]. cbn [Qpower]. split.
    + now apply Qpower_pos_positive.
    + rewrite <- (Qpower_positive_1 p). now apply Qpower_positive_mono.
Qed.

Lemma Ideal_pow_unit_mono (a1 a2 : Q) (y : Ideal.num) :
  0 <= a1 -> a1 <= a2 -> Ideal.leb (Ideal.of_int 0) y = true ->
  Ideal.pow_unit a1 y <= Ideal.pow_unit a2 y.
Proof.
  intros Ha0 Ha Hy.
  destruct (Ideal_nonneg y Hy) as [-> | (b & -> & Hb)]; cbn [Ideal.pow_unit].
  - apply Qle_refl.
  - destruct (Ideal.is_zero b) eqn:Z; [apply Qle_refl |].
    destruct (Ideal_ceiling_pos b Hb Z) as [p ->]. cbn [Qpower].
    now apply Qpower_positive_mono.
Qed.

Lemma Ideal_leb_fin (a b : Q) :
  Ideal.leb (Ideal.fin a) (Ideal.fin b) = true <-> a <= b.
Proof.
  unfold Ideal.fin; cbn [Ideal.leb]. rewrite Qle_bool_iff, !Qred_correct. reflexivity.
Qed.

Lemma Ideal_leb_Fin_fin (a b : Q) :
  Ideal.leb (Ideal.Fin a) (Ideal.fin b) = true <-> a <= b.
Proof.
  unfold Ideal.fin; cbn [Ideal.leb]. rewrite Qle_bool_iff, !Qred_correct. reflexivity.
Qed.

Lemma Ideal_div_255 (i : Z) :
  Ideal.div (Ideal.of_int i) (Ideal.fin 255) = Ideal.fin (inject_Z i / 255).
Proof.
  unfold Ideal.of_int, Ideal.fin at 1 2. change (Qred 255) with 255.
  cbn [Ideal.div]. change (Ideal.is_zero 255) with false. cbv iota.
  apply fin_eq. now rewrite Qred_correct.
Qed.

Lemma Q_div_255_le (i j : Z) : (i <= j)%Z -> inject_Z i / 255 <= inject_Z j / 255.
Proof. intros H. unfold Qle, Qdiv, Qmult, Qinv, inject_Z; cbn. lia. Qed.

(** the rounding of [BuildGammaLUT] on a rational in [0, 1] *)
Lemma Ideal_round (a : Q) :
  0 <= a -> a <= 1 ->
  Ideal.to_int (Ideal.add (Ideal.mul (Ideal.Fin a) (Ideal.fin 255)) (Ideal.fin (1 # 2)))
  = Qfloor (a * 255 + (1 # 2)).
Proof.
  intros H0 H1. unfold Ideal.fin at 1 2.
  change (Qred 255) with 255. change (Qred (1 # 2)) with (1 # 2).
  cbn [Ideal.mul Ideal.add Ideal.fin]. unfold Ideal.fin, Ideal.to_int.
  set (q := Qred (Qred (a * 255) + (1 # 2))).
  assert (Eq : q == a * 255 + (1 # 2)) by (unfold q; now rewrite !Qred_correct).
  assert (Hq0 : 0 <= q).
  { rewrite Eq. apply (Qle_trans _ (0 * 255 + (1 # 2))); [discriminate |].
    apply Qplus_le_compat; [| apply Qle_refl].
    apply Qmult_le_compat_r; [exact H0 | discriminate]. }
  assert (Hq1 : q <= 255 + (1 # 2)).
  { rewrite Eq. apply Qplus_le_compat; [| apply Qle_refl].
    apply (Qle_trans _ (1 * 255)); [| apply Qle_refl].
    apply Qmult_le_compat_r; [exact H1 | discriminate]. }
  assert (Ef : Z.quot (Qnum q) (Zpos (Qden q)) = Qfloor q).
  { destruct q as [n d]. unfold Qle in Hq0; cbn in Hq0 |- *.
    apply Z.quot_div_nonneg; lia. }
  rewrite Ef.
  assert (Hf0 : (0 <= Qfloor q)%Z).
  { change 0%Z with (Qfloor 0). now apply Qfloor_resp_le. }
  assert (Hf1 : (Qfloor q <= 255)%Z).
  { change 255%Z with (Qfloor (255 + (1 # 2))). now apply Qfloor_resp_le. }
  replace ((- 2 ^ 31 <=? Qfloor q)%Z && (Qfloor q <? 2 ^ 31)%Z) with true.
  - now rewrite Eq.
  - symmetry. apply andb_true_iff. split; [apply Z.leb_le | apply Z.ltb_lt]; lia.
Qed.

Local Close Scope Q_scope.

Ltac ideal_ops :=
  unfold Ideal.le in *; cbv beta in *;
  cbn [f_one f_255 f_half f_of_int f_to_int f_eqb f_div f_mul f_add f_powf
       ideal_runtime] in *.

Lemma Ideal_law_div_255 :
  f_div (f_of_int 255) f_255 = f_one (F := Ideal.num).
Proof.
  reflexivity.
Qed.

Lemma Ideal_law_div_0 :
  f_div (f_of_int 0) f_255 = f_of_int (F := Ideal.num) 0.
Proof.
  reflexivity.
Qed.

Lemma Ideal_law_pow_one :
  forall y : Ideal.num, f_powf f_one y = f_one.
Proof.
  intros y. reflexivity.
Qed.

Lemma Ideal_law_pow_zero :
  forall y : Ideal.num,
  Ideal.le (f_of_int 0) y -> ~ Ideal.le y (f_of_int 0) ->
  f_powf (f_of_int 0) y = f_of_int 0.
Proof.
  intros y H0 H1. ideal_ops.
  destruct (Ideal_nonneg y H0) as [-> | (b & -> & Hb)]; [reflexivity |].
  assert (Z : Ideal.is_zero b = false).
  { apply not_true_is_false. intros Z. apply H1.
    apply Ideal_is_zero_true in Z. apply (Ideal_leb_Fin_fin b 0).
    rewrite Z. apply Qle_refl. }
  change (Ideal.of_int 0) with (Ideal.Fin 0).
  rewrite (Ideal_powf_unit 0 (Ideal.Fin b)) by (try discriminate; exact H0).
  change (Qeq_bool 0 1) with false. cbv iota. cbn [Ideal.pow_unit]. rewrite Z.
  destruct (Ideal_ceiling_pos b Hb Z) as [p ->]. cbn [Qpower].
  apply (fin_eq _ 0). apply Qpower_positive_0.
Qed.

Lemma Ideal_law_round_one :
  f_to_int (F := Ideal.num) (f_add (f_mul f_one f_255) f_half) = 255.
Proof.
  reflexivity.
Qed.

Lemma Ideal_law_round_zero :
  f_to_int (F := Ideal.num) (f_add (f_mul (f_of_int 0) f_255) f_half) = 0.
Proof.
  reflexivity.
Qed.

Lemma Ideal_law_div_range :
  forall i, 0 <= i <= 255 ->
  Ideal.le (f_of_int 0) (f_div (f_of_int i) f_255) /\
  Ideal.le (f_div (f_of_int i) f_255) f_one.
Proof.
  intros i Hi. ideal_ops. rewrite Ideal_div_255.
  split; apply Ideal_leb_fin;
    unfold Qle, Qdiv, Qmult, Qinv, inject_Z; cbn; lia.
Qed.

Lemma Ideal_law_div_mono :
  forall i j, 0 <= i <= j -> j <= 255 ->
  Ideal.le (f_div (f_of_int i) f_255) (f_div (f_of_int j) f_255).
Proof.
  intros i j Hij Hj. ideal_ops. rewrite !Ideal_div_255.
  apply Ideal_leb_fin. apply Q_div_255_le. lia.
Qed.

Lemma Ideal_law_pow_range :
  forall x y : Ideal.num,
  Ideal.le (f_of_int 0) y -> Ideal.le (f_of_int 0) x -> Ideal.le x f_one ->
  Ideal.le (f_of_int 0) (f_powf x y) /\ Ideal.le (f_powf x y) f_one.
Proof.
  intros x y Hy Hx0 Hx1. ideal_ops.
  destruct (Ideal_unit_interval x Hx0 Hx1) as (a & -> & Ha0 & Ha1).
  rewrite (Ideal_powf_unit a y Ha0 Ha1 Hy).
  destruct (Qeq_bool a 1); [split; reflexivity |].
  destruct (Ideal_pow_unit_range a y Ha0 Ha1 Hy).
  split; now apply Ideal_leb_fin.
Qed.

Lemma Ideal_law_pow_mono :
  forall x1 x2 y : Ideal.num,
  Ideal.le (f_of_int 0) y -> Ideal.le (f_of_int 0) x1 -> Ideal.le x1 x2 ->
  Ideal.le x2 f_one ->
  Ideal.le (f_powf x1 y) (f_powf x2 y).
Proof.
  intros x1 x2 y Hy Hx0 Hx Hx1. ideal_ops.
  assert (H1 : Ideal.leb x1 (Ideal.fin 1) = true).
  { destruct x1 as [| [|] | a1], x2 as [| [|] | a2]; cbn in *; try discriminate.
    apply Qle_bool_iff in Hx, Hx1. apply Qle_bool_iff.
    now apply (Qle_trans _ a2). }
  assert (H0 : Ideal.leb (Ideal.of_int 0) x2 = true).
  { destruct x1 as [| [|] | a1], x2 as [| [|] | a2]; cbn in *; try discriminate.
    apply Qle_bool_iff in Hx, Hx0. apply Qle_bool_iff.
    now apply (Qle_trans _ a1). }
  destruct (Ideal_unit_interval x1 Hx0 H1) as (a1 & -> & Ha10 & Ha11).
  destruct (Ideal_unit_interval x2 H0 Hx1) as (a2 & -> & Ha20 & Ha21).
  cbn [Ideal.leb] in Hx. apply Qle_bool_iff in Hx.
  rewrite (Ideal_powf_unit a1 y Ha10 Ha11 Hy), (Ideal_powf_unit a2 y Ha20 Ha21 Hy).
  destruct (Ideal_pow_unit_range a1 y Ha10 Ha11 Hy) as [_ R1].
  destruct (Qeq_bool a2 1) eqn:E2.
  + destruct (Qeq_bool a1 1); [reflexivity | now apply Ideal_leb_fin].
  + assert (E1 : Qeq_bool a1 1 = false).
    { apply not_true_is_false. intros E1. apply Qeq_bool_iff in E1.
      apply Qeq_bool_neq in E2. apply E2. apply Qle_antisym; [exact Ha21 |].
      now rewrite <- E1. }
    rewrite E1. apply Ideal_leb_fin. now apply Ideal_pow_unit_mono.
Qed.

Lemma Ideal_law_round_mono :
  forall a b : Ideal.num,
  Ideal.le (f_of_int 0) a -> Ideal.le a b -> Ideal.le b f_one ->
  f_to_int (f_add (f_mul a f_255) f_half)
  <= f_to_int (f_add (f_mul b f_255) f_half).
Proof.
  intros a b Ha0 Hab Hb1. ideal_ops.
  assert (H1 : Ideal.leb a (Ideal.fin 1) = true).
  { destruct a as [| [|] | qa], b as [| [|] | qb]; cbn in *; try discriminate.
    apply Qle_bool_iff in Hab, Hb1. apply Qle_bool_iff.
    now apply (Qle_trans _ qb). }
  assert (H0 : Ideal.leb (Ideal.of_int 0) b = true).
  { destruct a as [| [|] | qa], b as [| [|] | qb]; cbn in *; try discriminate.
    apply Qle_bool_iff in Hab, Ha0. apply Qle_bool_iff.
    now apply (Qle_trans _ qa). }
  destruct (Ideal_unit_interval a Ha0 H1) as (qa & -> & Hqa0 & Hqa1).
  destruct (Ideal_unit_interval b H0 Hb1) as (qb & -> & Hqb0 & Hqb1).
  cbn [Ideal.leb] in Hab. apply Qle_bool_iff in Hab.
  rewrite !Ideal_round by assumption.
  apply Qfloor_resp_le. apply Qplus_le_compat; [| apply Qle_refl].
  apply Qmult_le_compat_r; [exact Hab | discriminate].
Qed.

Lemma Ideal_law_inv_nonneg :
  forall g : Ideal.num,
  Ideal.le (f_of_int 0) g -> ~ Ideal.le g (f_of_int 0) ->
  Ideal.le (f_of_int 0) (f_div f_one g).
Proof.
  intros g H0 H1. ideal_ops.
  destruct (Ideal_nonneg g H0) as [-> | (b & -> & Hb)]; [reflexivity |].
  change (Ideal.fin 1) with (Ideal.Fin 1). cbn [Ideal.div].
  destruct (Ideal.is_zero b) eqn:Z.
  + exfalso. apply H1. apply Ideal_is_zero_true in Z.
    apply (Ideal_leb_Fin_fin b 0). rewrite Z. apply Qle_refl.
  + apply (Ideal_leb_fin 0). unfold Qdiv. rewrite Qmult_1_l.
    apply Qinv_le_0_compat. exact Hb.
Qed.

(** Exact arithmetic satisfies the laws. *)
Lemma ideal_laws : RuntimeLaws ideal_runtime.
Proof.
  exact {| f_le := Ideal.le;
           law_div_255 := Ideal_law_div_255;
           law_div_0 := Ideal_law_div_0;
           law_pow_one := Ideal_law_pow_one;
           law_pow_zero := Ideal_law_pow_zero;
           law_round_one := Ideal_law_round_one;
           law_round_zero := Ideal_law_round_zero;
           law_div_range := Ideal_law_div_range;
           law_div_mono := Ideal_law_div_mono;
           law_pow_range := Ideal_law_pow_range;
           law_pow_mono := Ideal_law_pow_mono;
           law_round_mono := Ideal_law_round_mono;
           law_inv_nonneg := Ideal_law_inv_nonneg |}.
Defined.

#[export] Existing Instance ideal_laws.

(** C9 as stated fails for an infinite gamma ([gamma_r=inf] in the file,
    or a number too large for a [float]): [1.0f / gamma] is 0, [powf] of
    any base and 0 is 1, and every entry of the table, entry 0 included,
    is [(int) (255.0f + 0.5f) = 255]. *)
Lemma BuildGammaLUT_infinite_gamma :
  lut_at (BuildGammaLUT (f_atof (F := Ideal.num) "inf")) 0 = 255 /\
  ~ (forall gamma : Ideal.num, lut_at (BuildGammaLUT gamma) 0 = 0).
Proof.
  assert (E : lut_at (BuildGammaLUT (f_atof (F := Ideal.num) "inf")) 0 = 255).
  { apply BuildGammaLUT_flat; [reflexivity | | reflexivity | lia].
    intros x. change (f_div f_one (f_atof "inf")) with (Ideal.Fin 0).
    destruct x as [| [|] | a]; cbn; try reflexivity.
    now destruct (Qeq_bool a 1). }
  split; [exact E |].
  intros H. rewrite H in E. discriminate.
Qed.

(** C10 as stated fails in its last clause: with [gamma_r=inf] and
    [static_color=FF0000] for the title strip, the red table is 255
    throughout, an unlit pixel has the value 255 after gamma correction,
    and the static color turns it into full red. *)
Lemma unlit_pixel_lit_by_infinite_gamma :
  let c := LoadConfig infinite_gamma_fs (@InitConfig Ideal.num ideal_runtime) in
  let strip := nth 0 (strips c) identity_strip in
  (reachable c /\ In strip (strips c) /\
   static_color_enabled strip = true /\ pixel_in_strip 2 0) /\
  TransformStrip strip [0; 0; 0; 0; 0; 0] = [255; 0; 0; 255; 0; 0] /\
  transform_pixel strip 2 0 0 0 0 = (255, 0, 0) /\
  ~ (forall (c : TransformConfig Ideal.num) (strip : StripTransform Ideal.num)
            (numLEDs i : Z),
       reachable c -> In strip (strips c) ->
       static_color_enabled strip = true -> pixel_in_strip numLEDs i ->
       transform_pixel strip numLEDs i 0 0 0 = (0, 0, 0)).
Proof.
  cbv zeta.
  assert (R : reachable (LoadConfig infinite_gamma_fs (@InitConfig Ideal.num ideal_runtime)))
    by apply reach_load, reach_init.
  assert (I : In (nth 0 (strips (LoadConfig infinite_gamma_fs
                                   (@InitConfig Ideal.num ideal_runtime)))
                    identity_strip)
                (strips (LoadConfig infinite_gamma_fs (@InitConfig Ideal.num ideal_runtime)))).
  { apply nth_In. apply Nat.ltb_lt. vm_compute. reflexivity. }
  assert (S : static_color_enabled
                (nth 0 (strips (LoadConfig infinite_gamma_fs
                                  (@InitConfig Ideal.num ideal_runtime)))
                   identity_strip) = true) by (vm_compute; reflexivity).
  assert (P : pixel_in_strip 2 0) by (unfold pixel_in_strip; cbn; lia).
  assert (E : transform_pixel
                (nth 0 (strips (LoadConfig infinite_gamma_fs
                                  (@InitConfig Ideal.num ideal_runtime)))
                   identity_strip) 2 0 0 0 0 = (255, 0, 0))
    by (vm_compute; reflexivity).
  split; [split; [exact R | split; [exact I | split; [exact S | exact P]]] |].
  split; [vm_compute; reflexivity |].
  split; [exact E |].
  intros H. rewrite (H _ _ 2 0 R I S P) in E. discriminate.
Qed.

(** ** The statements at concrete inputs *)

Lemma TransformStrip_inactive_witness :
  enabled (@identity_strip Ideal.num ideal_runtime) = false /\
  TransformStrip (@identity_strip Ideal.num ideal_runtime) [12; 200; 7; 0; 0; 255]
  = [12; 200; 7; 0; 0; 255].
Proof.
  split; [reflexivity |].
  apply (TransformStrip_inactive (@identity_strip Ideal.num ideal_runtime)).
  reflexivity.
Defined.

Lemma static_color_partial_hex_accepted_witness :
  ini_empty "title" "static_color" = None /\
  static_color_enabled (@identity_strip Ideal.num ideal_runtime) = false /\
  static_color
    (LoadStripFromSection (ini_set "title" "static_color" "12zzzz" ini_empty)
       "title" (fun _ => @identity_strip Ideal.num ideal_runtime) identity_strip)
  = (0, 0, 18).
Proof.
  split; [reflexivity |]. split; [reflexivity |].
  apply (static_color_partial_hex_accepted ini_empty "title"
           (@identity_strip Ideal.num ideal_runtime) identity_strip);
    reflexivity.
Defined.

Lemma reload_gating_witness :
  reachable (@InitConfig Ideal.num ideal_runtime) /\
  (Z.of_nat (List.length (repeat sample_fs 300)) <= RELOAD_INTERVAL ->
   count_probes (snd (run_checks (repeat sample_fs 300)
                        (@InitConfig Ideal.num ideal_runtime))) <= 1).
Proof.
  split; [apply reach_init |].
  apply (reload_gating (repeat sample_fs 300) sample_fs sample_fs gradient_only_fs
           (@InitConfig Ideal.num ideal_runtime) (mkFILETIME 7 1)).
  apply reach_init.
Defined.

Lemma gradient_never_without_static_witness :
  reachable (LoadConfig gradient_only_fs (@InitConfig Ideal.num ideal_runtime)) /\
  In (nth 0 (strips (LoadConfig gradient_only_fs
                       (@InitConfig Ideal.num ideal_runtime))) identity_strip)
     (strips (LoadConfig gradient_only_fs (@InitConfig Ideal.num ideal_runtime))) /\
  (static_color_enabled
     (nth 0 (strips (LoadConfig gradient_only_fs
                       (@InitConfig Ideal.num ideal_runtime))) identity_strip) = false ->
   gradient_enabled
     (nth 0 (strips (LoadConfig gradient_only_fs
                       (@InitConfig Ideal.num ideal_runtime))) identity_strip) = false).
Proof.
  assert (R : reachable (LoadConfig gradient_only_fs
                           (@InitConfig Ideal.num ideal_runtime)))
    by (apply reach_load, reach_init).
  assert (I : In (nth 0 (strips (LoadConfig gradient_only_fs
                                   (@InitConfig Ideal.num ideal_runtime)))
                    identity_strip)
                (strips (LoadConfig gradient_only_fs
                           (@InitConfig Ideal.num ideal_runtime)))).
  { apply nth_In. apply Nat.ltb_lt. vm_compute. reflexivity. }
  split; [exact R |]. split; [exact I |].
  apply (gradient_never_without_static _ _ R I).
Defined.

Lemma hsv_round_trip_value_exact_witness :
  0 <= 200 <= 359 /\ 1 <= 130 <= 255 /\ 1 <= 150 <= 255 /\
  hsv_v (hsv_round_trip 200 130 150) = 150 /\
  hue_dist (hsv_h (hsv_round_trip 200 130 150)) 200 <= 1 /\
  Z.abs (hsv_s (hsv_round_trip 200 130 150) - 130) <= 1.
Proof.
  split; [lia |]. split; [lia |]. split; [lia |].
  destruct (hsv_round_trip_value_exact 200 130 150
              ltac:(lia) ltac:(lia) ltac:(lia))
    as (Hv & _ & _ & _ & _ & _ & Hall).
  split; [exact Hv |].
  destruct (Hall ltac:(lia) ltac:(lia)) as (Hh & Hs & _).
  split; [exact Hh | exact Hs].
Defined.

Lemma sample_reachable :
  reachable (LoadConfig sample_fs (@InitConfig Ideal.num ideal_runtime)).
Proof. apply reach_load, reach_init. Qed.

Lemma sample_strip_in (k : nat) :
  (k < 10)%nat ->
  In (nth k (strips (LoadConfig sample_fs (@InitConfig Ideal.num ideal_runtime)))
        identity_strip)
     (strips (LoadConfig sample_fs (@InitConfig Ideal.num ideal_runtime))).
Proof.
  intros H. apply nth_In.
  replace (List.length (strips (LoadConfig sample_fs
                                  (@InitConfig Ideal.num ideal_runtime))))
    with 10%nat by (vm_compute; reflexivity).
  exact H.
Qed.

(** the strip loaded for [left_wing] from the sample file: a static color
    and a gradient *)
Lemma static_color_preserves_value_witness :
  let c := LoadConfig sample_fs (@InitConfig Ideal.num ideal_runtime) in
  let strip := nth 3 (strips c) identity_strip in
  reachable c /\ In strip (strips c) /\
  static_color_enabled strip = true /\ pixel_in_strip 56 30 /\
  value_of (color_stage strip 56 30
              (gamma_stage strip (reorder (channelOrder strip) 10 200 30)))
  = value_of (gamma_stage strip (reorder (channelOrder strip) 10 200 30)).
Proof.
  cbv zeta.
  assert (H1 : static_color_enabled
                 (nth 3 (strips (LoadConfig sample_fs
                                   (@InitConfig Ideal.num ideal_runtime)))
                    identity_strip) = true) by (vm_compute; reflexivity).
  assert (H2 : pixel_in_strip 56 30) by (unfold pixel_in_strip; cbn; lia).
  split; [exact sample_reachable |].
  split; [apply sample_strip_in; lia |].
  split; [exact H1 |]. split; [exact H2 |].
  apply (static_color_preserves_value _ _ 56 30 10 200 30 [] 0 0 sample_reachable
           (sample_strip_in 3 ltac:(lia)) H1 H2).
Defined.

Lemma hue_shift_wraps_witness :
  profile_int (F := Ideal.num) "370" = 370 /\
  profile_int (F := Ideal.num) "10" = 10 /\
  LoadConfig (mkFileSys true None (ini_set "title" "hue_shift" "370" sample_ini))
    (@InitConfig Ideal.num ideal_runtime)
  = LoadConfig (mkFileSys true None (ini_set "title" "hue_shift" "10" sample_ini))
      InitConfig.
Proof.
  split; [reflexivity |]. split; [reflexivity |].
  assert (HA : profile_int (F := Ideal.num) "370" = 370) by reflexivity.
  assert (HB : profile_int (F := Ideal.num) "10" = 10) by reflexivity.
  apply (hue_shift_wraps sample_ini "title" "370" "10" true None
           (@InitConfig Ideal.num ideal_runtime) _ _ identity_strip identity_strip
           0%nat [255; 0; 0] HA HB sample_reachable
           (sample_strip_in 0 ltac:(lia))).
Defined.

Lemma BuildGammaLUT_properties_witness :
  f_eqb (f_atof (F := Ideal.num) "1.0") f_one = true /\
  (f_le (f_of_int 0) (f_atof (F := Ideal.num) "0.5") /\
   ~ f_le (f_atof (F := Ideal.num) "0.5") (f_of_int 0)) /\
  (forall i, 0 <= i <= 255 -> lut_at (BuildGammaLUT (f_atof (F := Ideal.num) "1.0")) i = i) /\
  (forall i j, 0 <= i <= j -> j <= 255 ->
     lut_at (BuildGammaLUT (f_atof (F := Ideal.num) "0.5")) i
     <= lut_at (BuildGammaLUT (f_atof (F := Ideal.num) "0.5")) j).
Proof.
  assert (H1 : f_eqb (f_atof (F := Ideal.num) "1.0") f_one = true) by reflexivity.
  assert (H2 : f_le (f_of_int 0) (f_atof (F := Ideal.num) "0.5")) by reflexivity.
  assert (H3 : ~ f_le (f_atof (F := Ideal.num) "0.5") (f_of_int 0))
    by (intros H; discriminate H).
  split; [exact H1 |]. split; [split; assumption |]. split.
  - apply (BuildGammaLUT_properties (f_atof (F := Ideal.num) "1.0")). exact H1.
  - apply (BuildGammaLUT_properties (f_atof (F := Ideal.num) "0.5")); assumption.
Defined.

Lemma HSVtoRGB_never_above_value_witness :
  let c := LoadConfig sample_fs (@InitConfig Ideal.num ideal_runtime) in
  let strip := nth 4 (strips c) identity_strip in
  (0 <= 300 <= 359 /\ is_u8 200 /\ is_u8 90) /\
  (reachable c /\ In strip (strips c) /\ pixel_in_strip 56 9) /\
  channels_le (HSVtoRGB 300 200 90) 90.
Proof.
  cbv zeta.
  assert (H4 : pixel_in_strip 56 9) by (unfold pixel_in_strip; cbn; lia).
  assert (H5 : is_u8 200) by (unfold is_u8; lia).
  assert (H6 : is_u8 90) by (unfold is_u8; lia).
  split; [split; [lia | split; assumption] |].
  split; [split; [exact sample_reachable | split; [apply sample_strip_in; lia | exact H4]] |].
  apply (HSVtoRGB_never_above_value _ _ 56 9 10 200 30 300 200 90
           ltac:(lia) H5 H6 sample_reachable (sample_strip_in 4 ltac:(lia)) H4).
Defined.

(** ** Examples from the documentation *)

(** Global [brightness=80]: a white pixel of a strip without a section of
    its own becomes (204, 204, 204). *)
Example brightness_80 :
  TransformStrip
    (nth 5 (strips (LoadConfig sample_fs (@InitConfig Ideal.num ideal_runtime)))
       identity_strip)
    [255; 255; 255; 255; 255; 255]
  = [204; 204; 204; 204; 204; 204].
Proof. vm_compute. reflexivity. Qed.

(** A strip of one pixel with a static color and a gradient shows the
    static color; with two pixels the second one has the hue of the
    gradient color. *)
Example gradient_of_left_wing :
  let strip :=
    nth 3 (strips (LoadConfig sample_fs (@InitConfig Ideal.num ideal_runtime)))
      identity_strip in
  TransformStrip strip [255; 255; 255] = [0; 0; 204] /\
  TransformStrip strip [255; 255; 255; 255; 255; 255] = [0; 0; 204; 204; 0; 204].
Proof. vm_compute. split; reflexivity. Qed.

(** The wrapped hue shift of the sample file: 370 is loaded as 10. *)
Example woofer_hue_shift :
  hue_shift
    (nth 8 (strips (LoadConfig sample_fs (@InitConfig Ideal.num ideal_runtime)))
       identity_strip) = 10.
Proof. vm_compute. reflexivity. Qed.

(** * Further properties

    What the code shows beyond the statements above: the rest of the two
    color conversions, the parsers, the fallback chain of the loader, the
    pipeline pixel by pixel, the reload schedule and the shared memory of
    the hook. *)

(** ** RGBtoHSV and HSVtoRGB *)

(** X1. [RGBtoHSV] on three bytes: the saturation is zero exactly for a
    gray pixel, whose hue is then 0; otherwise the hue lies in the sector
    of the largest channel, around 0 for red (from 300 through 0 to 60),
    around 120 for green, around 240 for blue, the first of equal channels
    in the order red, green, blue deciding. *)
Theorem RGBtoHSV_hue_sector (r g b : Z) :
  is_u8 r -> is_u8 g -> is_u8 b ->
  let h := hsv_h (RGBtoHSV r g b) in
  let s := hsv_s (RGBtoHSV r g b) in
  let maxVal := Z.max (Z.max r g) b in
  (s = 0 <-> r = g /\ g = b) /\
  (s = 0 -> h = 0) /\
  (s <> 0 ->
   (maxVal = r -> 0 <= h <= 60 \/ 300 <= h <= 359) /\
   (maxVal <> r -> maxVal = g -> 60 <= h <= 180) /\
   (maxVal <> r -> maxVal <> g -> 180 <= h <= 300)).
Proof.
  unfold is_u8. intros Hr Hg Hb; cbv zeta.
  unfold RGBtoHSV.
  set (m := Z.max (Z.max r g) b). set (n := Z.min (Z.min r g) b).
  assert (Hm : 0 <= m <= 255) by (unfold m; lia).
  assert (Hn : 0 <= n <= m) by (unfold m, n; lia).
  destruct (Z.eqb_spec m 0) as [E0 | N0].
  - unfold hsv_h, hsv_s; cbn [fst snd].
    repeat split; try reflexivity; try (unfold m in E0; lia); intros; lia.
  - assert (Hs : m - n = 0 \/ 1 <= Z.quot ((m - n) * 255) m).
    { destruct (Z.eq_dec (m - n) 0) as [E | E]; [now left | right].
      rewrite Z.quot_div_nonneg by nia. apply Z.div_le_lower_bound; nia. }
    destruct (Z.eqb_spec (m - n) 0) as [Ed | Nd].
    + unfold hsv_h, hsv_s; cbn [fst snd]. rewrite Ed. cbn [Z.mul].
      rewrite Z.quot_0_l by lia.
      repeat split; try reflexivity; try (unfold m, n in Ed; lia); intros; lia.
    + destruct Hs as [Hs | Hs]; [contradiction |].
      unfold hsv_h, hsv_s; cbn [fst snd].
      split; [split; [lia | unfold m, n in Nd; lia] |].
      split; [lia |]. intros _.
      assert (Hd : 0 < m - n) by lia.
      pose proof (quot_bounds (60 * (g - b)) (m - n) 60 Hd
                    ltac:(unfold m, n in *; nia)) as Q1.
      pose proof (quot_bounds (60 * (b - r)) (m - n) 60 Hd
                    ltac:(unfold m, n in *; nia)) as Q2.
      pose proof (quot_bounds (60 * (r - g)) (m - n) 60 Hd
                    ltac:(unfold m, n in *; nia)) as Q3.
      destruct (Z.eqb_spec m r) as [Er | Nr];
        [| destruct (Z.eqb_spec m g) as [Eg | Ng]];
        match goal with |- context [?a <? 0] => destruct (Z.ltb_spec a 0) end;
        repeat split; intros; try contradiction; try lia.
Qed.

(** The smallest channel [HSVtoRGB] makes from the saturation and the value
    of a pixel is the smallest channel of that pixel. *)
Lemma saturation_gives_back_min (m n : Z) :
  0 <= n <= m -> 0 < m <= 255 ->
  Z.quot (m * (255 - Z.quot ((m - n) * 255) m)) 255 = n.
Proof.
  intros Hn Hm.
  rewrite (Z.quot_div_nonneg ((m - n) * 255) m) by nia.
  set (s := (m - n) * 255 / m).
  assert (Hs : m * s <= (m - n) * 255 < m * s + m).
  { unfold s. pose proof (Z.mul_div_le ((m - n) * 255) m ltac:(lia)).
    pose proof (Z.mul_succ_div_gt ((m - n) * 255) m ltac:(lia)). lia. }
  rewrite Z.quot_div_nonneg by nia.
  symmetry. apply Z.div_unique with (r := m * (255 - s) - 255 * n); nia.
Qed.

(** A pixel taken to HSV and back with any hue in [0, 359]: the largest
    and the smallest channel are those of the pixel. *)
Lemma HSVtoRGB_of_pixel_extremes (r g b h' : Z) :
  is_u8 r -> is_u8 g -> is_u8 b -> 0 <= h' <= 359 ->
  let s := hsv_s (RGBtoHSV r g b) in
  let v := hsv_v (RGBtoHSV r g b) in
  value_of (HSVtoRGB h' s v) = value_of (r, g, b) /\
  minVal_of (HSVtoRGB h' s v) = minVal_of (r, g, b).
Proof.
  intros Hr Hg Hb Hh; cbv zeta.
  pose proof (RGBtoHSV_range r g b Hr Hg Hb) as (_ & Hs & Hv).
  destruct (HSVtoRGB_extremes h' _ _ Hh Hs Hv)
    as (r' & g' & b' & E & Hr' & Hg' & Hb' & Hmax & Hmin).
  rewrite E. unfold value_of, minVal_of.
  rewrite !RGBtoHSV_v, Hmax, Hmin.
  split; [apply RGBtoHSV_v |].
  rewrite RGBtoHSV_v. unfold is_u8 in *.
  destruct (Z.eq_dec (Z.max (Z.max r g) b) 0) as [Z0 | NZ].
  - rewrite Z0. cbn. lia.
  - rewrite RGBtoHSV_s by exact NZ.
    apply saturation_gives_back_min; lia.
Qed.

(** ** Channel orders *)

Lemma stricmp_eq_trans (a b c : string) :
  stricmp_eq a b = true -> stricmp_eq a c = stricmp_eq b c.
Proof.
  unfold stricmp_eq. intros H. apply String.eqb_eq in H. now rewrite H.
Qed.

(** X2. [ParseChannelOrder] reads the six names of the orders without
    regard to case: a text equal to the name of an order, under
    [_stricmp], gives that order, and only such a text gives an order
    other than [CH_RGB], which every other text falls back to.  It reads
    back the default text that [LoadStripFromSection] makes of an order. *)
Theorem ParseChannelOrder_names (str : string) (o : ChannelOrder) :
  (stricmp_eq str (defOrder o) = true -> ParseChannelOrder str = o) /\
  (ParseChannelOrder str = o -> o <> CH_RGB -> stricmp_eq str (defOrder o) = true) /\
  ParseChannelOrder (truncate 16 (defOrder o)) = o /\
  ParseChannelOrder (lower (defOrder o)) = o.
Proof.
  split; [| split; [| split]].
  - intros H. unfold ParseChannelOrder.
    rewrite !(stricmp_eq_trans _ _ _ H). now destruct o.
  - unfold ParseChannelOrder. intros H Ho.
    destruct (stricmp_eq str "RBG") eqn:E1; [subst o; exact E1 |].
    destruct (stricmp_eq str "GRB") eqn:E2; [subst o; exact E2 |].
    destruct (stricmp_eq str "GBR") eqn:E3; [subst o; exact E3 |].
    destruct (stricmp_eq str "BRG") eqn:E4; [subst o; exact E4 |].
    destruct (stricmp_eq str "BGR") eqn:E5; [subst o; exact E5 |].
    congruence.
  - now destruct o.
  - now destruct o.
Qed.

(** X3. The name of a channel order says what the swap of
    [TransformStrip] does: its three letters name, in this order, the input
    channels that become the red, green and blue of the output.  Every
    swap is undone by the swap of another order, so no channel is lost. *)
Theorem reorder_follows_name (o : ChannelOrder) (r g b : Z) :
  (exists c1 c2 c3,
     defOrder o = String c1 (String c2 (String c3 EmptyString)) /\
     reorder o r g b
     = (channel_named c1 r g b, channel_named c2 r g b, channel_named c3 r g b)) /\
  (exists o', forall x y z,
     (let '(x', y', z') := reorder o x y z in reorder o' x' y' z') = (x, y, z)) /\
  reorder (ParseChannelOrder (defOrder o)) r g b = reorder o r g b.
Proof.
  split; [| split].
  - destruct o; do 3 eexists; split; reflexivity.
  - destruct o;
      [exists CH_RGB | exists CH_RBG | exists CH_GRB
       | exists CH_BRG | exists CH_GBR | exists CH_BGR]; reflexivity.
  - now destruct o.
Qed.

(** ** Hexadecimal colors *)

(** A hexadecimal digit is no white space, no sign, no [#] and no [x]. *)
Lemma hex_digit_char (c : ascii) (d : Z) :
  hex_digit c = Some d ->
  0 <= d <= 15 /\ is_space c = false /\
  Ascii.eqb c "#" = false /\ Ascii.eqb c "-" = false /\ Ascii.eqb c "+" = false /\
  Ascii.eqb c "x" = false /\ Ascii.eqb c "X" = false.
Proof.
  destruct c as [[] [] [] [] [] [] [] []]; vm_compute; intros H;
    try discriminate; injection H as <-; repeat split; discriminate.
Qed.

(** The three bytes of a number of six hexadecimal digits. *)
Lemma six_digits_bytes (d1 d2 d3 d4 d5 d6 : Z) :
  0 <= d1 <= 15 -> 0 <= d2 <= 15 -> 0 <= d3 <= 15 ->
  0 <= d4 <= 15 -> 0 <= d5 <= 15 -> 0 <= d6 <= 15 ->
  let val := (((((0 * 16 + d1) * 16 + d2) * 16 + d3) * 16 + d4) * 16 + d5) * 16 + d6 in
  to_u8 (Z.land (Z.shiftr val 16) 255) = 16 * d1 + d2 /\
  to_u8 (Z.land (Z.shiftr val 8) 255) = 16 * d3 + d4 /\
  to_u8 (Z.land val 255) = 16 * d5 + d6.
Proof.
  intros H1 H2 H3 H4 H5 H6; cbv zeta. unfold to_u8.
  change 255 with (Z.ones 8). rewrite !Z.land_ones, !Z.shiftr_div_pow2 by lia.
  change (2 ^ 8) with 256. change (2 ^ 16) with 65536.
  rewrite !Z.mod_mod by lia.
  repeat split.
  - assert (E : ((((((0 * 16 + d1) * 16 + d2) * 16 + d3) * 16 + d4) * 16 + d5) * 16 + d6)
                / 65536 = 16 * d1 + d2).
    { symmetry. apply Z.div_unique with (r := ((d3 * 16 + d4) * 16 + d5) * 16 + d6); lia. }
    rewrite E. apply Z.mod_small. lia.
  - assert (E : ((((((0 * 16 + d1) * 16 + d2) * 16 + d3) * 16 + d4) * 16 + d5) * 16 + d6)
                / 256 = ((d1 * 16 + d2) * 16 + d3) * 16 + d4).
    { symmetry. apply Z.div_unique with (r := d5 * 16 + d6); lia. }
    rewrite E. symmetry.
    apply Z.mod_unique with (q := d1 * 16 + d2); lia.
  - symmetry.
    apply Z.mod_unique with (q := ((d1 * 16 + d2) * 16 + d3) * 16 + d4); lia.
Qed.

(** X4. Six hexadecimal digits, in either case, with or without a leading
    [#], are accepted and give the three bytes they spell, two digits
    each; the 16-byte buffer of [LoadStripFromSection] holds them whole. *)
Theorem ParseHexColor_six_digits
  (c1 c2 c3 c4 c5 c6 : ascii) (d1 d2 d3 d4 d5 d6 : Z) :
  hex_digit c1 = Some d1 -> hex_digit c2 = Some d2 -> hex_digit c3 = Some d3 ->
  hex_digit c4 = Some d4 -> hex_digit c5 = Some d5 -> hex_digit c6 = Some d6 ->
  let text :=
    String c1 (String c2 (String c3 (String c4 (String c5 (String c6 EmptyString))))) in
  let color := (16 * d1 + d2, 16 * d3 + d4, 16 * d5 + d6) in
  ParseHexColor text = Some color /\
  ParseHexColor (String "#" text) = Some color /\
  ParseHexColor (truncate 16 text) = Some color /\
  ParseHexColor (truncate 16 (String "#" text)) = Some color /\
  pixel_u8 color.
Proof.
  intros H1 H2 H3 H4 H5 H6; cbv zeta.
  destruct (hex_digit_char c1 d1 H1) as (B1 & S1 & P1 & M1 & L1 & _).
  destruct (hex_digit_char c2 d2 H2) as (B2 & _ & _ & _ & _ & X2 & X2').
  destruct (hex_digit_char c3 d3 H3) as (B3 & _).
  destruct (hex_digit_char c4 d4 H4) as (B4 & _).
  destruct (hex_digit_char c5 d5 H5) as (B5 & _).
  destruct (hex_digit_char c6 d6 H6) as (B6 & _).
  assert (Scan : sscanf_06x
                   (String c1 (String c2 (String c3 (String c4 (String c5
                      (String c6 EmptyString))))))
                 = Some ((((((0 * 16 + d1) * 16 + d2) * 16 + d3) * 16 + d4) * 16 + d5)
                         * 16 + d6)).
  { unfold sscanf_06x. cbn [skip_spaces]. rewrite S1.
    assert (Body : scan_hex_body 6
                     (String c1 (String c2 (String c3 (String c4 (String c5
                        (String c6 EmptyString))))))
                   = Some ((((((0 * 16 + d1) * 16 + d2) * 16 + d3) * 16 + d4) * 16 + d5)
                           * 16 + d6)).
    { assert (Digits : scan_hex_digits 6
                         (String c1 (String c2 (String c3 (String c4 (String c5
                            (String c6 EmptyString)))))) 0 0
                       = ((((((0 * 16 + d1) * 16 + d2) * 16 + d3) * 16 + d4) * 16 + d5)
                          * 16 + d6, 6%nat)).
      { cbn [scan_hex_digits]. now rewrite H1, H2, H3, H4, H5, H6. }
      unfold scan_hex_body.
      destruct (Ascii.eqb c1 "0") eqn:E0.
      - apply Ascii.eqb_eq in E0. subst c1. rewrite X2, X2'. cbn [orb].
        now rewrite Digits.
      - destruct c1 as [[] [] [] [] [] [] [] []]; try discriminate E0;
          now rewrite Digits. }
    destruct c1 as [[] [] [] [] [] [] [] []];
      try discriminate M1; try discriminate L1; exact Body. }
  assert (Plain : ParseHexColor
                    (String c1 (String c2 (String c3 (String c4 (String c5
                       (String c6 EmptyString))))))
                  = Some (16 * d1 + d2, 16 * d3 + d4, 16 * d5 + d6)).
  { unfold ParseHexColor. rewrite P1. cbn [String.length Nat.eqb negb].
    rewrite Scan.
    destruct (six_digits_bytes d1 d2 d3 d4 d5 d6 B1 B2 B3 B4 B5 B6) as (-> & -> & ->).
    reflexivity. }
  assert (Marked : ParseHexColor
                     (String "#" (String c1 (String c2 (String c3 (String c4 (String c5
                        (String c6 EmptyString)))))))
                   = Some (16 * d1 + d2, 16 * d3 + d4, 16 * d5 + d6)).
  { unfold ParseHexColor. change (Ascii.eqb "#" "#") with true.
    cbn [String.length Nat.eqb negb]. rewrite Scan.
    destruct (six_digits_bytes d1 d2 d3 d4 d5 d6 B1 B2 B3 B4 B5 B6) as (-> & -> & ->).
    reflexivity. }
  split; [exact Plain |]. split; [exact Marked |].
  split; [exact Plain |]. split; [exact Marked |].
  unfold pixel_u8, is_u8; cbn [fst snd]. lia.
Qed.

Lemma length_substring_0 (n : nat) (s : string) :
  String.length (substring 0 n s) = Nat.min n (String.length s).
Proof.
  revert s. induction n as [| n IH]; intros s.
  - now destruct s.
  - destruct s as [| c r]; [reflexivity |]. cbn [substring String.length].
    now rewrite IH.
Qed.

(** X5. The texts [ParseHexColor] accepts have six characters, or seven
    with a leading [#], and the color it returns is made of bytes.  So a
    three-digit shorthand is rejected, and so is every value of eight
    characters or more, also after the 16-byte buffer has cut it. *)
Theorem ParseHexColor_length (str : string) :
  (forall c, ParseHexColor str = Some c ->
     pixel_u8 c /\
     (String.length str = 6%nat \/
      exists rest, str = String "#" rest /\ String.length rest = 6%nat)) /\
  ((8 <= String.length str)%nat -> ParseHexColor (truncate 16 str) = None) /\
  (String.length str = 3%nat -> ParseHexColor str = None).
Proof.
  assert (Short : forall s, String.length s <> 6%nat -> String.length s <> 7%nat ->
                            ParseHexColor s = None).
  { intros s H6 H7. destruct s as [| c rest]; [reflexivity |].
    unfold ParseHexColor. destruct (Ascii.eqb c "#").
    - destruct (Nat.eqb_spec (String.length rest) 6) as [L | L]; [| reflexivity].
      cbn [String.length] in H7. lia.
    - destruct (Nat.eqb_spec (String.length (String c rest)) 6) as [L | L];
        [contradiction | reflexivity]. }
  split; [| split].
  - intros c H. split; [now apply ParseHexColor_u8 with (str := str) |].
    destruct str as [| a rest]; [discriminate |].
    unfold ParseHexColor in H. destruct (Ascii.eqb a "#") eqn:E.
    + apply Ascii.eqb_eq in E. subst a. right. exists rest. split; [reflexivity |].
      destruct (Nat.eqb_spec (String.length rest) 6) as [L | L];
        [exact L | discriminate].
    + left. destruct (Nat.eqb_spec (String.length (String a rest)) 6) as [L | L];
        [exact L | discriminate].
  - intros H. apply Short; unfold truncate; rewrite length_substring_0;
      cbn [Nat.sub]; lia.
  - intros H. apply Short; lia.
Qed.

(** ** Brightness scaling *)

Lemma scaled_channel (c k : Z) :
  is_u8 c -> 0 <= k <= 200 ->
  let c' := to_u8 (Z.min (Z.quot (c * k) 100) 255) in
  c' = Z.min (c * k / 100) 255 /\ is_u8 c' /\
  (k <= 100 -> c' <= c) /\ (100 <= k -> c <= c').
Proof.
  unfold is_u8. intros Hc Hk; cbv zeta.
  rewrite Z.quot_div_nonneg by nia.
  assert (H0 : 0 <= c * k / 100) by (apply Z.div_pos; nia).
  rewrite to_u8_small by (unfold is_u8; lia).
  split; [reflexivity |]. split; [lia |]. split; intros H.
  - assert (c * k / 100 <= c) by (apply Z.div_le_upper_bound; nia). lia.
  - assert (c <= c * k / 100) by (apply Z.div_le_lower_bound; nia). lia.
Qed.

Section Brightness.

Context {F : Type} {RT : Runtime F}.

(** The brightness step on bytes, both branches. *)
Lemma brightness_stage_value (strip : StripTransform F) (r g b : Z) :
  is_u8 r -> is_u8 g -> is_u8 b -> 0 <= brightness strip <= 200 ->
  brightness_stage strip (r, g, b)
  = (Z.min (r * brightness strip / 100) 255,
     Z.min (g * brightness strip / 100) 255,
     Z.min (b * brightness strip / 100) 255).
Proof.
  intros Hr Hg Hb Hk.
  destruct (scaled_channel r _ Hr Hk) as (Er & _).
  destruct (scaled_channel g _ Hg Hk) as (Eg & _).
  destruct (scaled_channel b _ Hb Hk) as (Eb & _).
  unfold brightness_stage. destruct (Z.eqb_spec (brightness strip) 100) as [E | N].
  - cbn [negb]. rewrite E, !Z.div_mul by lia. unfold is_u8 in *.
    f_equal; [f_equal |]; lia.
  - cbn [negb]. now rewrite Er, Eg, Eb.
Qed.

(** X6. Brightness scaling, for a brightness in the range the loader
    clamps it to: each channel [c] becomes [c * brightness / 100] cut at
    255, a byte.  Up to 100 no channel gets brighter, from 100 on none
    gets darker, 0 gives black, and the order of two channels is never
    inverted. *)
Theorem brightness_stage_scales (strip : StripTransform F) (r g b : Z) :
  is_u8 r -> is_u8 g -> is_u8 b -> 0 <= brightness strip <= 200 ->
  let k := brightness strip in
  let out := brightness_stage strip (r, g, b) in
  out = (Z.min (r * k / 100) 255, Z.min (g * k / 100) 255, Z.min (b * k / 100) 255) /\
  pixel_u8 out /\
  (k <= 100 -> channels_le out (value_of (r, g, b))) /\
  (100 <= k -> r <= fst (fst out) /\ g <= snd (fst out) /\ b <= snd out) /\
  (k = 0 -> out = (0, 0, 0)) /\
  (r <= g -> fst (fst out) <= snd (fst out)).
Proof.
  intros Hr Hg Hb Hk; cbv zeta.
  destruct (scaled_channel r _ Hr Hk) as (Er & Ur & Dr & Ir).
  destruct (scaled_channel g _ Hg Hk) as (Eg & Ug & Dg & Ig).
  destruct (scaled_channel b _ Hb Hk) as (Eb & Ub & Db & Ib).
  rewrite (brightness_stage_value strip r g b Hr Hg Hb Hk).
  unfold pixel_u8, channels_le; cbn [fst snd].
  rewrite <- Er, <- Eg, <- Eb. rewrite value_of_max; cbn [fst snd].
  unfold is_u8 in *.
  split; [reflexivity |]. split; [tauto |].
  split; [intros H; specialize (Dr H); specialize (Dg H); specialize (Db H); lia |].
  split; [intros H; auto |].
  split.
  - intros H. rewrite Er, Eg, Eb, H, !Z.mul_0_r. reflexivity.
  - intros H. rewrite Er, Eg.
    apply Z.min_le_compat_r. apply Z.div_le_mono; nia.
Qed.

End Brightness.

(** ** The loader *)

Lemma length_list_update {A : Type} (i : nat) (f : A -> A) (l : list A) :
  List.length (list_update i f l) = List.length l.
Proof.
  revert i. induction l as [| x r IH]; intros [| j]; cbn; try reflexivity.
  now rewrite IH.
Qed.

Lemma nth_list_update {A : Type} (i j : nat) (f : A -> A) (l : list A) (d : A) :
  (i < List.length l)%nat ->
  nth i (list_update j f l) d = if Nat.eqb i j then f (nth i l d) else nth i l d.
Proof.
  revert i j. induction l as [| x r IH]; intros i j Hi; [cbn in Hi; lia |].
  destruct i as [| i], j as [| j]; cbn [list_update nth Nat.eqb]; try reflexivity.
  apply IH. cbn in Hi. lia.
Qed.

(** Runs the statements of [LoadStripFromSection] by computation, once
    the colors read and the flags tested are known. *)
Ltac load_strip_cbv :=
  cbv [run_steps fold_left LoadStripFromSection_steps
       set_enabled set_channelOrder set_gamma_r set_gamma_g set_gamma_b
       set_hue_shift set_saturation set_brightness set_static set_gradient
       set_lut_r set_lut_g set_lut_b static_color gradient_color
       enabled channelOrder gamma_r gamma_g gamma_b hue_shift saturation
       brightness static_color_enabled static_r static_g static_b
       gradient_enabled gradient_r2 gradient_g2 gradient_b2 lut_r lut_g lut_b
       fst snd hue_wrap].

Section LoadingMore.

Context {F : Type} {RT : Runtime F}.

Local Abbreviation Strip := (StripTransform F).
Local Abbreviation Config := (TransformConfig F).

(** The section is read through its own keys only. *)
Lemma LoadStripFromSection_ext
  (iniA iniB : IniFile) (section : string) (dv : Strip -> Strip) (x : Strip) :
  (forall k, iniA section k = iniB section k) ->
  LoadStripFromSection iniA section dv x = LoadStripFromSection iniB section dv x.
Proof.
  intros H. unfold LoadStripFromSection, LoadStripFromSection_steps,
    GetProfileFloat, GetPrivateProfileIntA, GetPrivateProfileStringA.
  now rewrite !H.
Qed.

(** X7. [LoadConfig] loads the global section with [globalDefaults] passed
    both as the strip to write and as the defaults to read.  Every default
    is read before the statement that assigns the same field, so the call
    gives what it would give with a separate copy of the strip, taken
    before the call, as defaults: the aliasing changes nothing. *)
Theorem LoadStripFromSection_aliased_defaults
  (ini : IniFile) (section : string) (x : Strip) :
  LoadStripFromSection ini section (fun s => s) x
  = LoadStripFromSection ini section (fun _ => x) x /\
  globalDefaults ini
  = LoadStripFromSection ini "global" (fun _ => globalDefaults_start) globalDefaults_start.
Proof.
  assert (G : forall sec y,
             LoadStripFromSection ini sec (fun s => s) y
             = LoadStripFromSection ini sec (fun _ => y) y).
  { intros sec y. destruct y as [en o gr gg gb h sa br se sr sg sb ge r2 g2 b2 lr lg lb].
    unfold LoadStripFromSection, LoadStripFromSection_steps.
    destruct (ParseHexColor (GetPrivateProfileStringA ini sec "static_color" "" 16))
      as [[[r1 g1] b1] |];
      destruct (ParseHexColor (GetPrivateProfileStringA ini sec "gradient_color" "" 16))
        as [[[r3 g3] b3] |];
      destruct se; load_strip_cbv; reflexivity. }
  split; [apply G |]. unfold globalDefaults. apply G.
Qed.

(** [LoadStripFromSection] as a function of the file and of the defaults:
    the strip it leaves, field by field. *)
Lemma LoadStripFromSection_value (ini : IniFile) (section : string) (g x : Strip) :
  let order :=
    ParseChannelOrder
      (GetPrivateProfileStringA ini section "channel_order" (defOrder (channelOrder g)) 16) in
  let gr := GetProfileFloat ini section "gamma_r" (gamma_r g) in
  let gg := GetProfileFloat ini section "gamma_g" (gamma_g g) in
  let gb := GetProfileFloat ini section "gamma_b" (gamma_b g) in
  let hue := hue_wrap (GetPrivateProfileIntA ini section "hue_shift" (hue_shift g)) in
  let sat :=
    Z.min (Z.max (GetPrivateProfileIntA ini section "saturation" (saturation g)) 0) 200 in
  let bri :=
    Z.min (Z.max (GetPrivateProfileIntA ini section "brightness" (brightness g)) 0) 200 in
  let st :=
    match ParseHexColor (GetPrivateProfileStringA ini section "static_color" "" 16) with
    | Some c => (true, c)
    | None => (static_color_enabled g, static_color g)
    end in
  let gd :=
    match (if fst st
           then ParseHexColor (GetPrivateProfileStringA ini section "gradient_color" "" 16)
           else None) with
    | Some c => (true, c)
    | None => (gradient_enabled g, gradient_color g)
    end in
  LoadStripFromSection ini section (fun _ => g) x
  = mkStrip
      (negb (ChannelOrder_eqb order CH_RGB)
       || negb (f_eqb gr f_one) || negb (f_eqb gg f_one) || negb (f_eqb gb f_one)
       || negb (hue =? 0) || negb (sat =? 100) || negb (bri =? 100)
       || fst st || fst gd)
      order gr gg gb hue sat bri
      (fst st) (fst (fst (snd st))) (snd (fst (snd st))) (snd (snd st))
      (fst gd) (fst (fst (snd gd))) (snd (fst (snd gd))) (snd (snd gd))
      (BuildGammaLUT gr) (BuildGammaLUT gg) (BuildGammaLUT gb).
Proof.
  cbv zeta.
  destruct x as [en o gr gg gb h sa br se sr sg sb ge r2 g2 b2 lr lg lb].
  destruct g as [en' o' gr' gg' gb' h' sa' br' se' sr' sg' sb' ge' r2' g2' b2' lr' lg' lb'].
  unfold LoadStripFromSection, LoadStripFromSection_steps.
  destruct (ParseHexColor (GetPrivateProfileStringA ini section "static_color" "" 16))
    as [[[r1 g1] b1] |];
    destruct (ParseHexColor (GetPrivateProfileStringA ini section "gradient_color" "" 16))
      as [[[r3 g3] b3] |];
    destruct se'; load_strip_cbv; reflexivity.
Qed.

(** [LoadStripFromSection] assigns every field: what the strip held before
    the call does not show in the result. *)
Lemma LoadStripFromSection_overwrites
  (ini : IniFile) (section : string) (g x y : Strip) :
  LoadStripFromSection ini section (fun _ => g) x
  = LoadStripFromSection ini section (fun _ => g) y.
Proof.
  now rewrite (LoadStripFromSection_value ini section g x),
    (LoadStripFromSection_value ini section g y).
Qed.

Lemma fold_on_strip_length (f : nat -> Strip -> Strip) (l : list nat) (c : Config) :
  List.length (strips (fold_left (fun c i => on_strip i (f i) c) l c))
  = List.length (strips c).
Proof.
  revert c. induction l as [| i r IH]; intros c; [reflexivity |].
  cbn [fold_left]. rewrite IH. unfold on_strip, set_strips; cbn [strips].
  apply length_list_update.
Qed.

(** The strip at index [i] after writes on the indices of [l], each index
    written once. *)
Lemma fold_on_strip_nth
  (f : nat -> Strip -> Strip) (l : list nat) (c : Config) (i : nat) (d : Strip) :
  NoDup l -> (i < List.length (strips c))%nat ->
  nth i (strips (fold_left (fun c j => on_strip j (f j) c) l c)) d
  = if existsb (Nat.eqb i) l then f i (nth i (strips c) d) else nth i (strips c) d.
Proof.
  intros Hnd. revert c. induction Hnd as [| j r Hj Hnd IH]; intros c Hi; [reflexivity |].
  cbn [fold_left existsb]. rewrite IH
    by (unfold on_strip, set_strips; cbn [strips]; now rewrite length_list_update).
  unfold on_strip, set_strips; cbn [strips]. rewrite nth_list_update by exact Hi.
  destruct (Nat.eqb_spec i j) as [-> | N]; cbn [orb]; [| reflexivity].
  destruct (existsb (Nat.eqb j) r) eqn:E; [| reflexivity].
  apply existsb_exists in E. destruct E as (k & Hk & Ek).
  apply Nat.eqb_eq in Ek. subst k. contradiction.
Qed.

Lemma LoadConfig_length (fs : FileSys) (c : Config) :
  List.length (strips (LoadConfig fs c)) = List.length (strips c).
Proof.
  destruct (attributes_ok fs) eqn:A.
  - rewrite (LoadConfig_present fs c A), fold_on_strip_length. now destruct (open_time fs).
  - rewrite (LoadConfig_absent fs c A).
    apply (fold_on_strip_length (fun _ => set_enabled false)).
Qed.

Lemma CheckReload_length (fs : FileSys) (c : Config) :
  List.length (strips (fst (CheckReload fs c))) = List.length (strips c).
Proof.
  destruct (CheckReload_strips fs c) as [E | [E | (c0 & E0 & E)]].
  - now rewrite E.
  - now rewrite E, length_map.
  - rewrite E. change (run_steps (LoadConfig_steps fs) c0) with (LoadConfig fs c0).
    now rewrite LoadConfig_length, E0.
Qed.

(** A reachable configuration has its ten strips. *)
Lemma reachable_length (c : Config) : reachable c -> List.length (strips c) = 10%nat.
Proof.
  induction 1 as [| fs c _ IH | fs c _ IH].
  - reflexivity.
  - now rewrite LoadConfig_length.
  - now rewrite CheckReload_length.
Qed.

(** After [LoadConfig] on a file that is there, strip [i] is what
    [LoadStripFromSection] makes of its section and of the global
    defaults. *)
Lemma LoadConfig_strips (fs : FileSys) (c : Config) :
  attributes_ok fs = true -> List.length (strips c) = 10%nat ->
  strips (LoadConfig fs c)
  = map (fun sec => LoadStripFromSection (profile fs) sec
                      (fun _ => globalDefaults (profile fs)) identity_strip)
      StripSectionNames.
Proof.
  intros A L.
  apply (nth_ext _ _ identity_strip identity_strip).
  - now rewrite LoadConfig_length, length_map.
  - intros i Hi. rewrite LoadConfig_length, L in Hi.
    rewrite (LoadConfig_present fs c A).
    rewrite (fold_on_strip_nth _ _ _ _ _ (seq_NoDup 10 0))
      by (destruct (open_time fs); cbn [strips set_lastWriteTime]; rewrite L; exact Hi).
    assert (E : existsb (Nat.eqb i) (seq 0 10) = true).
    { apply existsb_exists. exists i. split; [apply in_seq; lia | apply Nat.eqb_refl]. }
    rewrite E.
    rewrite (LoadStripFromSection_overwrites _ _ _ _ identity_strip).
    symmetry.
    rewrite (nth_indep _ identity_strip
               (LoadStripFromSection (profile fs) ""
                  (fun _ => globalDefaults (profile fs)) identity_strip))
      by (now rewrite length_map).
    apply (map_nth (fun sec => LoadStripFromSection (profile fs) sec
                                 (fun _ => globalDefaults (profile fs)) identity_strip)).
Qed.

(** X8. A reload takes nothing from the strips it replaces: on a file
    that is there, the ten strips [LoadConfig] leaves are a function of the
    file alone, each one loaded from its section over the global defaults;
    the call counter is not touched. *)
Theorem LoadConfig_forgets_previous_strips (fs : FileSys) (c1 c2 : Config) :
  attributes_ok fs = true -> reachable c1 -> reachable c2 ->
  strips (LoadConfig fs c1) = strips (LoadConfig fs c2) /\
  strips (LoadConfig fs c1)
  = map (fun sec => LoadStripFromSection (profile fs) sec
                      (fun _ => globalDefaults (profile fs)) identity_strip)
      StripSectionNames /\
  callCounter (LoadConfig fs c1) = callCounter c1.
Proof.
  intros A R1 R2.
  pose proof (LoadConfig_strips fs c1 A (reachable_length c1 R1)) as E1.
  pose proof (LoadConfig_strips fs c2 A (reachable_length c2 R2)) as E2.
  split; [now rewrite E1, E2 |]. split; [exact E1 |].
  apply LoadConfig_callCounter.
Qed.

(** X9. Strip [j] is read from its own section and from the global
    section: two files on which the profile API answers alike for these
    two sections load the same strip [j], whatever else they contain. *)
Theorem strip_sections_are_independent
  (fsA fsB : FileSys) (c : Config) (j : nat) :
  reachable c -> attributes_ok fsA = attributes_ok fsB ->
  (forall k, profile fsA "global" k = profile fsB "global" k) ->
  (forall k, profile fsA (nth j StripSectionNames "") k
             = profile fsB (nth j StripSectionNames "") k) ->
  nth j (strips (LoadConfig fsA c)) identity_strip
  = nth j (strips (LoadConfig fsB c)) identity_strip.
Proof.
  intros R Ha Hg Hj. destruct (attributes_ok fsB) eqn:B.
  - rewrite !LoadConfig_strips by (try assumption; now apply reachable_length).
    assert (G : globalDefaults (profile fsA) = globalDefaults (profile fsB)).
    { unfold globalDefaults. now apply LoadStripFromSection_ext. }
    rewrite G.
    destruct (Nat.lt_ge_cases j (List.length StripSectionNames)) as [L | L].
    + rewrite (nth_indep (map _ _) identity_strip
                 (LoadStripFromSection (profile fsA) ""
                    (fun _ => globalDefaults (profile fsB)) identity_strip))
        by (now rewrite length_map).
      rewrite (map_nth (fun s => LoadStripFromSection (profile fsA) s
                                   (fun _ => globalDefaults (profile fsB)) identity_strip)).
      symmetry.
      rewrite (nth_indep (map _ _) identity_strip
                 (LoadStripFromSection (profile fsB) ""
                    (fun _ => globalDefaults (profile fsB)) identity_strip))
        by (now rewrite length_map).
      rewrite (map_nth (fun s => LoadStripFromSection (profile fsB) s
                                   (fun _ => globalDefaults (profile fsB)) identity_strip)).
      symmetry. now apply LoadStripFromSection_ext.
    + rewrite !nth_overflow by (now rewrite length_map). reflexivity.
  - now rewrite !LoadConfig_absent by assumption.
Qed.

(** X10. The fallback chain, key by key: a key the section does not have
    gives the field of the defaults; a key it has gives its own value,
    wrapped or clamped, whatever the defaults are.  A gamma that is
    inherited passes through the four-decimal text [GetProfileFloat]
    prints it to. *)
Theorem LoadStripFromSection_fallback
  (ini : IniFile) (section : string) (g x : Strip) :
  strip_in_range g ->
  let s := LoadStripFromSection ini section (fun _ => g) x in
  (ini section "channel_order" = None -> channelOrder s = channelOrder g) /\
  (ini section "hue_shift" = None -> hue_shift s = hue_shift g) /\
  (ini section "saturation" = None -> saturation s = saturation g) /\
  (ini section "brightness" = None -> brightness s = brightness g) /\
  (ini section "static_color" = None ->
   static_color_enabled s = static_color_enabled g /\ static_color s = static_color g) /\
  (ini section "gradient_color" = None ->
   gradient_enabled s = gradient_enabled g /\ gradient_color s = gradient_color g) /\
  (ini section "gamma_r" = None ->
   gamma_r s = f_atof (truncate 64 (f_fmt4 (gamma_r g)))) /\
  (forall v, ini section "hue_shift" = Some v -> hue_shift s = hue_wrap (profile_int v)) /\
  (forall v, ini section "saturation" = Some v ->
     saturation s = Z.min (Z.max (profile_int v) 0) 200) /\
  (forall v, ini section "brightness" = Some v ->
     brightness s = Z.min (Z.max (profile_int v) 0) 200) /\
  (forall v c, ini section "static_color" = Some v ->
     ParseHexColor (truncate 16 v) = Some c ->
     static_color_enabled s = true /\ static_color s = c).
Proof.
  intros ((Hh1 & Hh2) & (Hs1 & Hs2) & (Hb1 & Hb2)); cbv zeta.
  rewrite (LoadStripFromSection_value ini section g x).
  unfold static_color, gradient_color, GetProfileFloat, GetPrivateProfileIntA,
    GetPrivateProfileStringA;
    cbn [channelOrder gamma_r hue_shift saturation brightness
         static_color_enabled static_r static_g static_b
         gradient_enabled gradient_r2 gradient_g2 gradient_b2].
  repeat apply conj.
  - intros ->. now destruct (channelOrder g).
  - intros ->. unfold hue_wrap.
    rewrite (Z.rem_small (hue_shift g)) by lia.
    replace (hue_shift g + 360) with (hue_shift g + 1 * 360) by lia.
    rewrite Z.rem_add by lia. apply Z.rem_small. lia.
  - intros ->. lia.
  - intros ->. lia.
  - intros ->. change (ParseHexColor (truncate 16 "")) with (@None (Z * Z * Z)).
    split; reflexivity.
  - intros ->. change (ParseHexColor (truncate 16 "")) with (@None (Z * Z * Z)).
    destruct (ParseHexColor _) as [c |]; cbn [fst snd];
      [| destruct (static_color_enabled g)]; split; reflexivity.
  - intros ->. reflexivity.
  - intros v ->. reflexivity.
  - intros v ->. reflexivity.
  - intros v ->. reflexivity.
  - intros v c -> ->. destruct c as [[r1 g1] b1]. split; reflexivity.
Qed.

Lemma BuildGammaLUT_length (gamma : F) : List.length (BuildGammaLUT gamma) = 256%nat.
Proof.
  unfold BuildGammaLUT, range256.
  destruct (f_eqb gamma f_one); now rewrite !length_map, length_seq.
Qed.

Lemma BuildGammaLUT_bytes (gamma : F) : Forall is_u8 (BuildGammaLUT gamma).
Proof.
  apply Forall_forall. intros x Hx.
  destruct (In_nth _ _ 0 Hx) as (n & Hn & <-).
  rewrite <- (Nat2Z.id n). apply (BuildGammaLUT_u8 gamma (Z.of_nat n)).
Qed.

(** X11. The invariant of the configuration.  In every state the hook can
    see there are ten strips and the call counter is below the reload
    interval; every strip has its hue shift in [0, 359], its saturation
    and brightness in [0, 200], bytes for its two colors, and three tables
    of 256 bytes each that are the tables of its own three gammas: between
    hook calls no strip keeps a table of a gamma it no longer has. *)
Theorem reachable_invariant (c : Config) (s : Strip) :
  reachable c -> In s (strips c) ->
  List.length (strips c) = 10%nat /\
  0 <= callCounter c < RELOAD_INTERVAL /\
  (0 <= hue_shift s <= 359 /\ 0 <= saturation s <= 200 /\ 0 <= brightness s <= 200) /\
  strip_bytes s /\
  (lut_r s = BuildGammaLUT (gamma_r s) /\ lut_g s = BuildGammaLUT (gamma_g s) /\
   lut_b s = BuildGammaLUT (gamma_b s)) /\
  (List.length (lut_r s) = 256%nat /\ List.length (lut_g s) = 256%nat /\
   List.length (lut_b s) = 256%nat) /\
  (Forall is_u8 (lut_r s) /\ Forall is_u8 (lut_g s) /\ Forall is_u8 (lut_b s)).
Proof.
  intros Hr Hin.
  split; [now apply reachable_length |].
  split; [now apply reachable_counter |].
  apply reachable_ok in Hr. unfold config_ok in Hr. rewrite Forall_forall in Hr.
  destruct (Hr s Hin) as (Hrange & Hbytes & _ & (Lr & Lg & Lb)).
  split; [exact Hrange |]. split; [exact Hbytes |].
  split; [repeat split; assumption |].
  rewrite Lr, Lg, Lb.
  split; [repeat split; apply BuildGammaLUT_length |].
  repeat split; apply BuildGammaLUT_bytes.
Qed.

End LoadingMore.

(** ** The pipeline, pixel by pixel *)

Section PipelineMore.

Context {F : Type} {RT : Runtime F}.

Local Abbreviation Strip := (StripTransform F).
Local Abbreviation Config := (TransformConfig F).

Lemma reorder_u8 (o : ChannelOrder) (r g b : Z) :
  is_u8 r -> is_u8 g -> is_u8 b -> pixel_u8 (reorder o r g b).
Proof. intros Hr Hg Hb. destruct o; unfold pixel_u8; cbn; auto. Qed.

(** With plain colors a pixel goes through the channel order and the
    brightness only. *)
Lemma transform_pixel_plain (s : Strip) (numLEDs i r g b : Z) :
  plain_colors s -> is_u8 r -> is_u8 g -> is_u8 b ->
  transform_pixel s numLEDs i r g b = brightness_stage s (reorder (channelOrder s) r g b).
Proof.
  intros (Gr & Gg & Gb & Hh & Hs & Hst & Lr & Lg & Lb) Hr Hg Hb.
  unfold transform_pixel.
  pose proof (reorder_u8 (channelOrder s) r g b Hr Hg Hb) as Hp.
  destruct (reorder (channelOrder s) r g b) as [[cr cg] cb].
  destruct Hp as (Hcr & Hcg & Hcb); cbn [fst snd] in *.
  f_equal. unfold gamma_stage. rewrite Lr, Lg, Lb.
  rewrite !BuildGammaLUT_identity by assumption.
  unfold color_stage. now rewrite Hst, Hh, Hs.
Qed.

Lemma TransformStrip_loop_fixed (s : Strip) (numLEDs : Z) (data : list Z) (i : Z) :
  (forall j r g b, is_u8 r -> is_u8 g -> is_u8 b ->
                   transform_pixel s numLEDs j r g b = (r, g, b)) ->
  Forall is_u8 data -> TransformStrip_loop s numLEDs i data = data.
Proof.
  intros Hid.
  assert (G : forall (n : nat) (d : list Z) (j : Z),
             (List.length d <= n)%nat -> Forall is_u8 d ->
             TransformStrip_loop s numLEDs j d = d).
  { induction n as [| n IH]; intros d j Hn Hd.
    - destruct d; [reflexivity | cbn in Hn; lia].
    - destruct d as [| r [| g [| b rest]]]; try reflexivity.
      cbn [TransformStrip_loop].
      inversion Hd as [| ? ? Hr Hd1]; subst.
      inversion Hd1 as [| ? ? Hg Hd2]; subst.
      inversion Hd2 as [| ? ? Hb Hd3]; subst.
      rewrite Hid by assumption. rewrite IH; [reflexivity | cbn in Hn; lia | assumption]. }
  intros Hd. now apply (G (List.length data)).
Qed.

(** X12. The flag [enabled] that [LoadStripFromSection] computes is an
    optimisation only: it is false exactly when every setting is at its
    identity value, and then the loop of [TransformStrip], were it run,
    would leave every buffer of bytes as it is. *)
Theorem enabled_flag_is_sound
  (ini : IniFile) (section : string) (g x : Strip) (data : list Z) :
  let s := LoadStripFromSection ini section (fun _ => g) x in
  (enabled s = false <->
   channelOrder s = CH_RGB /\
   f_eqb (gamma_r s) f_one = true /\ f_eqb (gamma_g s) f_one = true /\
   f_eqb (gamma_b s) f_one = true /\
   hue_shift s = 0 /\ saturation s = 100 /\ brightness s = 100 /\
   static_color_enabled s = false /\ gradient_enabled s = false) /\
  (enabled s = false -> Forall is_u8 data ->
   TransformStrip (set_enabled true s) data = data).
Proof.
  cbv zeta.
  assert (Flag : enabled (LoadStripFromSection ini section (fun _ => g) x) = false <->
                 channelOrder (LoadStripFromSection ini section (fun _ => g) x) = CH_RGB /\
                 f_eqb (gamma_r (LoadStripFromSection ini section (fun _ => g) x)) f_one
                 = true /\
                 f_eqb (gamma_g (LoadStripFromSection ini section (fun _ => g) x)) f_one
                 = true /\
                 f_eqb (gamma_b (LoadStripFromSection ini section (fun _ => g) x)) f_one
                 = true /\
                 hue_shift (LoadStripFromSection ini section (fun _ => g) x) = 0 /\
                 saturation (LoadStripFromSection ini section (fun _ => g) x) = 100 /\
                 brightness (LoadStripFromSection ini section (fun _ => g) x) = 100 /\
                 static_color_enabled (LoadStripFromSection ini section (fun _ => g) x)
                 = false /\
                 gradient_enabled (LoadStripFromSection ini section (fun _ => g) x)
                 = false).
  { rewrite (LoadStripFromSection_value ini section g x).
    cbn [enabled channelOrder gamma_r gamma_g gamma_b hue_shift saturation brightness
         static_color_enabled gradient_enabled].
    rewrite !orb_false_iff, !negb_false_iff, !Z.eqb_eq.
    split.
    - intros ((((((((H1 & H2) & H3) & H4) & H5) & H6) & H7) & H8) & H9).
      repeat split; try assumption.
      now destruct (ParseChannelOrder _).
    - intros (H1 & H2 & H3 & H4 & H5 & H6 & H7 & H8 & H9).
      repeat split; try assumption. now rewrite H1. }
  split; [exact Flag |].
  intros He Hd. apply Flag in He.
  destruct He as (Ho & Gr & Gg & Gb & Hh & Hs & Hb & Hst & Hgd).
  assert (Hl : luts_current (LoadStripFromSection ini section (fun _ => g) x)).
  { rewrite (LoadStripFromSection_value ini section g x). unfold luts_current.
    cbn [lut_r lut_g lut_b gamma_r gamma_g gamma_b]. repeat split. }
  set (s := LoadStripFromSection ini section (fun _ => g) x) in *.
  unfold TransformStrip. destruct s as [en o gr gg gb h sa br se sr sg sb ge r2 g2 b2 lr lg lb].
  unfold set_enabled;
    cbn [enabled channelOrder gamma_r gamma_g gamma_b hue_shift saturation brightness
         static_color_enabled static_r static_g static_b gradient_enabled
         gradient_r2 gradient_g2 gradient_b2 lut_r lut_g lut_b negb] in *.
  apply TransformStrip_loop_fixed; [| exact Hd].
  intros j r0 g0 b0 Hr0 Hg0 Hb0.
  rewrite transform_pixel_plain; try assumption.
  - cbn [channelOrder]. rewrite Ho. cbn [reorder]. unfold brightness_stage.
    cbn [brightness]. now rewrite Hb.
  - unfold plain_colors, luts_current in *.
    cbn [gamma_r gamma_g gamma_b hue_shift saturation static_color_enabled
         lut_r lut_g lut_b] in *. tauto.
Qed.

(** Every pixel the pipeline makes is made of bytes. *)
Lemma transform_pixel_u8 (s : Strip) (numLEDs i r g b : Z) :
  luts_current s -> pixel_u8 (transform_pixel s numLEDs i r g b).
Proof.
  intros Hl. unfold transform_pixel.
  destruct (reorder (channelOrder s) r g b) as [[cr cg] cb].
  pose proof (gamma_stage_u8 s (cr, cg, cb) Hl) as Hg.
  assert (U : forall a, is_u8 (to_u8 a)).
  { intros a. unfold is_u8, to_u8. pose proof (Z.mod_pos_bound a 256 ltac:(lia)). lia. }
  assert (H : forall h sa v, pixel_u8 (HSVtoRGB h sa v)).
  { intros h sa v. unfold HSVtoRGB. destruct (sa =? 0); [repeat split; apply U |].
    destruct (Z.quot (Z.rem h 360) 60) as [| [[[| |]|[| |]|]|[[| |]|[| |]|]|] |];
      repeat split; apply U. }
  assert (Hc : pixel_u8 (color_stage s numLEDs i (gamma_stage s (cr, cg, cb)))).
  { destruct (gamma_stage s (cr, cg, cb)) as [[x y] z]. unfold color_stage.
    destruct (static_color_enabled s).
    - destruct (gradient_enabled s && (1 <? numLEDs)); apply H.
    - destruct (negb (hue_shift s =? 0) || negb (saturation s =? 100)); [| exact Hg].
      destruct (RGBtoHSV x y z) as [[h0 s0] v0]. apply H. }
  destruct (color_stage s numLEDs i (gamma_stage s (cr, cg, cb))) as [[x y] z].
  unfold brightness_stage. destruct (negb (brightness s =? 100)); [| exact Hc].
  repeat split; apply U.
Qed.

Lemma TransformStrip_loop_u8 (s : Strip) (numLEDs : Z) (data : list Z) (i : Z) :
  luts_current s -> Forall is_u8 data ->
  Forall is_u8 (TransformStrip_loop s numLEDs i data).
Proof.
  intros Hl.
  assert (G : forall (n : nat) (d : list Z) (j : Z),
             (List.length d <= n)%nat -> Forall is_u8 d ->
             Forall is_u8 (TransformStrip_loop s numLEDs j d)).
  { induction n as [| n IH]; intros d j Hn Hd.
    - destruct d; [constructor | cbn in Hn; lia].
    - destruct d as [| r [| g [| b rest]]]; try exact Hd.
      cbn [TransformStrip_loop].
      pose proof (transform_pixel_u8 s numLEDs j r g b Hl) as Hp.
      destruct (transform_pixel s numLEDs j r g b) as [[cr cg] cb].
      destruct Hp as (Hr & Hg & Hb); cbn [fst snd] in *.
      inversion Hd as [| ? ? _ Hd1]; subst.
      inversion Hd1 as [| ? ? _ Hd2]; subst.
      inversion Hd2 as [| ? ? _ Hd3]; subst.
      constructor; [exact Hr |]. constructor; [exact Hg |]. constructor; [exact Hb |].
      apply IH; [cbn in Hn; lia | assumption]. }
  intros Hd. now apply (G (List.length data)).
Qed.

(** X13. [TransformStrip] works pixel by pixel: on a buffer of whole
    pixels the result has the length of the buffer, is made of bytes, and
    its pixel [k] is made from pixel [k] of the buffer alone (with the
    position [k] and the number of pixels, which the gradient uses). *)
Theorem TransformStrip_pixelwise
  (c : Config) (strip : Strip) (data : list Z) (n k : nat) :
  reachable c -> In strip (strips c) ->
  Forall is_u8 data -> List.length data = (3 * n)%nat -> (k < n)%nat ->
  List.length (TransformStrip strip data) = List.length data /\
  Forall is_u8 (TransformStrip strip data) /\
  pixel_at (TransformStrip strip data) k
  = (if enabled strip
     then transform_pixel strip (Z.of_nat n) (3 * Z.of_nat k)
            (nth (3 * k) data 0) (nth (3 * k + 1) data 0) (nth (3 * k + 2) data 0)
     else pixel_at data k).
Proof.
  intros Hr Hin Hd Hn Hk.
  apply reachable_ok in Hr. unfold config_ok in Hr. rewrite Forall_forall in Hr.
  destruct (Hr strip Hin) as (_ & _ & _ & Hl).
  unfold TransformStrip. destruct (enabled strip) eqn:He; cbn [negb].
  - split; [apply TransformStrip_loop_length |].
    split; [now apply TransformStrip_loop_u8 |].
    rewrite TransformStrip_loop_pixel by lia. f_equal.
    rewrite Hn, Nat2Z.inj_mul. change (Z.of_nat 3) with 3.
    rewrite Z.mul_comm, Z.quot_mul by lia. reflexivity.
  - repeat split. exact Hd.
Qed.

(** X14. With the gammas at 1 and neither hue shift, saturation nor
    static color, a pixel goes through the channel order and the
    brightness only: each channel of the swapped pixel is scaled to
    [c * brightness / 100], cut at 255, and with the brightness at 100 the
    pixel written is the swapped pixel itself. *)
Theorem order_and_brightness_only
  (strip : Strip) (data : list Z) (n k : nat) :
  plain_colors strip -> enabled strip = true -> 0 <= brightness strip <= 200 ->
  Forall is_u8 data -> List.length data = (3 * n)%nat -> (k < n)%nat ->
  let '(r, g, b) := pixel_at data k in
  let '(cr, cg, cb) := reorder (channelOrder strip) r g b in
  pixel_at (TransformStrip strip data) k
  = (Z.min (cr * brightness strip / 100) 255,
     Z.min (cg * brightness strip / 100) 255,
     Z.min (cb * brightness strip / 100) 255) /\
  (brightness strip = 100 ->
   pixel_at (TransformStrip strip data) k = reorder (channelOrder strip) r g b).
Proof.
  intros Hp He Hb Hd Hn Hk.
  assert (U : forall j, (j < 3 * n)%nat -> is_u8 (nth j data 0)).
  { intros j Hj. rewrite Forall_forall in Hd. apply Hd, nth_In. lia. }
  unfold pixel_at at 1.
  pose proof (U (3 * k)%nat ltac:(lia)) as U0.
  pose proof (U (3 * k + 1)%nat ltac:(lia)) as U1.
  pose proof (U (3 * k + 2)%nat ltac:(lia)) as U2.
  unfold TransformStrip. rewrite He. cbn [negb].
  rewrite TransformStrip_loop_pixel by lia.
  rewrite transform_pixel_plain by assumption.
  pose proof (reorder_u8 (channelOrder strip) _ _ _ U0 U1 U2) as Hc.
  destruct (reorder (channelOrder strip) (nth (3 * k) data 0)
              (nth (3 * k + 1) data 0) (nth (3 * k + 2) data 0)) as [[cr cg] cb].
  destruct Hc as (Hcr & Hcg & Hcb); cbn [fst snd] in *.
  pose proof (brightness_stage_value strip cr cg cb Hcr Hcg Hcb Hb) as E.
  split; [exact E |].
  intros H100. rewrite E, H100, !Z.div_mul by lia. unfold is_u8 in *.
  f_equal; [f_equal |]; lia.
Qed.

(** X15. Step 3 without a static color.  The hue shift and the
    saturation never change the largest channel of a pixel; with the
    saturation at 100 (a hue shift alone) the smallest channel stays too;
    a gray pixel stays as it is; and a saturation of 0 makes every pixel
    gray, at the level of its largest channel. *)
Theorem hue_saturation_stage (strip : Strip) (numLEDs i r g b : Z) :
  static_color_enabled strip = false -> strip_in_range strip ->
  is_u8 r -> is_u8 g -> is_u8 b ->
  let out := color_stage strip numLEDs i (r, g, b) in
  value_of out = value_of (r, g, b) /\
  (saturation strip = 100 -> minVal_of out = minVal_of (r, g, b)) /\
  (r = g -> g = b -> out = (r, g, b)) /\
  (saturation strip = 0 ->
   out = (value_of (r, g, b), value_of (r, g, b), value_of (r, g, b))).
Proof.
  intros Hst Hrg Hr Hg Hb; cbv zeta.
  assert (Hc : pixel_u8 (r, g, b)) by (split; [exact Hr | split; [exact Hg | exact Hb]]).
  destruct (color_stage_hue_sat strip numLEDs i (r, g, b) Hst Hrg Hc) as [_ Hval].
  split; [exact Hval |].
  destruct Hrg as (Hhue & Hsat & _).
  pose proof (RGBtoHSV_range r g b Hr Hg Hb) as (Hh & Hs & Hv).
  assert (Hrem : 0 <= Z.rem (hsv_h (RGBtoHSV r g b) + hue_shift strip) 360 <= 359).
  { pose proof (Z.rem_bound_pos (hsv_h (RGBtoHSV r g b) + hue_shift strip) 360
                  ltac:(lia) ltac:(lia)). lia. }
  split; [| split].
  - intros H100. unfold color_stage. rewrite Hst, H100.
    cbn [Z.eqb Pos.eqb negb orb].
    destruct (negb (hue_shift strip =? 0)); cbn [orb]; [| reflexivity].
    destruct (HSVtoRGB_of_pixel_extremes r g b _ Hr Hg Hb Hrem) as (_ & Hmin).
    destruct (RGBtoHSV r g b) as [[h0 s0] v0].
    unfold hsv_h, hsv_s, hsv_v in *; cbn [fst snd] in *. exact Hmin.
  - intros -> ->. unfold color_stage. rewrite Hst.
    destruct (negb (hue_shift strip =? 0) || negb (saturation strip =? 100));
      [| reflexivity].
    assert (E : RGBtoHSV b b b = (0, 0, b)).
    { unfold RGBtoHSV. rewrite !Z.max_id, !Z.min_id, Z.sub_diag.
      destruct (Z.eqb_spec b 0) as [-> | N]; [reflexivity |].
      cbn [Z.mul Z.eqb]. now rewrite Z.quot_0_l by exact N. }
    rewrite E. cbn [Z.mul].
    assert (S0 : (if negb (saturation strip =? 100)
                  then Z.min (Z.quot 0 100) 255 else 0) = 0)
      by (destruct (negb _); reflexivity).
    rewrite S0. unfold HSVtoRGB. cbn [Z.eqb].
    now rewrite (to_u8_small b Hb).
  - intros H0. unfold color_stage. rewrite Hst, H0.
    cbn [Z.eqb negb]. rewrite orb_true_r.
    rewrite value_of_max; cbn [fst snd]. rewrite <- RGBtoHSV_v.
    destruct (RGBtoHSV r g b) as [[h0 s0] v0].
    unfold hsv_v, is_u8 in *; cbn [fst snd] in *.
    rewrite Z.mul_0_r. cbn [Z.quot Z.quotrem Z.min Z.compare fst].
    unfold HSVtoRGB. cbn [Z.eqb].
    now rewrite (to_u8_small v0 Hv).
Qed.

(** X16. The gradient runs from the static color to the gradient color:
    the first pixel of a strip gets the hue and the saturation of
    [static_color], the last pixel those of [gradient_color], each with the
    value of the pixel itself; on a buffer of one pixel the gradient is
    left out (nothing is divided by zero) and the pixel gets the static
    color. *)
Theorem gradient_endpoints (strip : Strip) (numLEDs : Z) (c : Z * Z * Z) :
  static_color_enabled strip = true -> gradient_enabled strip = true ->
  strip_bytes strip ->
  let '(h1, s1, _) := RGBtoHSV (static_r strip) (static_g strip) (static_b strip) in
  let '(h2, s2, _) :=
    RGBtoHSV (gradient_r2 strip) (gradient_g2 strip) (gradient_b2 strip) in
  (1 < numLEDs ->
   color_stage strip numLEDs 0 c = HSVtoRGB h1 s1 (value_of c) /\
   color_stage strip numLEDs (3 * (numLEDs - 1)) c = HSVtoRGB h2 s2 (value_of c)) /\
  (numLEDs <= 1 -> forall i, color_stage strip numLEDs i c = HSVtoRGB h1 s1 (value_of c)).
Proof.
  intros Hst Hgd ((Hr1 & Hg1 & Hb1) & (Hr2 & Hg2 & Hb2)).
  pose proof (RGBtoHSV_range _ _ _ Hr1 Hg1 Hb1) as (Hh1 & _).
  pose proof (RGBtoHSV_range _ _ _ Hr2 Hg2 Hb2) as (Hh2 & _).
  unfold color_stage, static_hsv1, static_hsv2. rewrite Hst, Hgd. cbn [andb].
  destruct (RGBtoHSV (static_r strip) (static_g strip) (static_b strip))
    as [[h1 s1] v1].
  destruct (RGBtoHSV (gradient_r2 strip) (gradient_g2 strip) (gradient_b2 strip))
    as [[h2 s2] v2].
  unfold hsv_h, hsv_s, hsv_v in *; cbn [fst snd] in *.
  destruct c as [[cr cg] cb]. unfold value_of, hsv_v.
  split.
  - intros Hn. destruct (Z.ltb_spec 1 numLEDs) as [_ | L]; [| lia]. split.
    + change (Z.quot 0 3) with 0. rewrite !Z.mul_0_r.
      rewrite !Z.quot_0_l by lia. rewrite !Z.add_0_r.
      replace (h1 + 360) with (h1 + 1 * 360) by lia.
      rewrite Z.rem_add by lia. rewrite Z.rem_small by lia. reflexivity.
    + rewrite (Z.mul_comm 3), Z.quot_mul by lia.
      rewrite !Z.quot_mul by lia.
      replace (s1 + (s2 - s1)) with s2 by lia.
      f_equal.
      destruct (Z.ltb_spec 180 (h2 - h1)) as [A | A].
      * destruct (Z.ltb_spec (h2 - h1 - 360) (-180)) as [B | B]; [lia |].
        replace (h1 + (h2 - h1 - 360) + 360) with h2 by lia.
        apply Z.rem_small. lia.
      * destruct (Z.ltb_spec (h2 - h1) (-180)) as [B | B].
        -- replace (h1 + (h2 - h1 + 360) + 360) with (h2 + 2 * 360) by lia.
           rewrite Z.rem_add by lia. apply Z.rem_small. lia.
        -- replace (h1 + (h2 - h1) + 360) with (h2 + 1 * 360) by lia.
           rewrite Z.rem_add by lia. apply Z.rem_small. lia.
  - intros Hn i. destruct (Z.ltb_spec 1 numLEDs) as [L | _]; [lia | reflexivity].
Qed.

(** X17. A static color takes nothing from a pixel but its value: two
    pixels with the same largest channel come out of step 3 alike, at any
    position of the strip, with or without a gradient.  With a gray static
    color and no gradient the result is the gray of that value. *)
Theorem static_color_uses_value_only
  (strip : Strip) (numLEDs i : Z) (c1 c2 : Z * Z * Z) :
  static_color_enabled strip = true -> value_of c1 = value_of c2 ->
  color_stage strip numLEDs i c1 = color_stage strip numLEDs i c2 /\
  (static_r strip = static_g strip -> static_g strip = static_b strip ->
   gradient_enabled strip = false -> is_u8 (value_of c1) ->
   color_stage strip numLEDs i c1 = (value_of c1, value_of c1, value_of c1)).
Proof.
  intros Hst Hv. destruct c1 as [[r1 g1] b1], c2 as [[r2 g2] b2].
  unfold value_of in Hv |- *. split.
  - unfold color_stage. rewrite Hst, Hv. reflexivity.
  - intros E1 E2 Hgd Hu. unfold color_stage, static_hsv1.
    rewrite Hst, Hgd, E1, E2. cbn [andb].
    assert (E : hsv_s (RGBtoHSV (static_b strip) (static_b strip) (static_b strip)) = 0).
    { unfold RGBtoHSV. rewrite !Z.max_id, !Z.min_id, Z.sub_diag.
      destruct (static_b strip =? 0); [reflexivity |].
      cbn [Z.mul Z.eqb]. unfold hsv_s; cbn [fst snd].
      destruct (Z.eq_dec (static_b strip) 0) as [-> | N]; [reflexivity |].
      now apply Z.quot_0_l. }
    rewrite E. unfold HSVtoRGB. cbn [Z.eqb].
    now rewrite (to_u8_small _ Hu).
Qed.

End PipelineMore.

(** ** The reload schedule *)

Section SchedulerMore.

Context {F : Type} {RT : Runtime F}.

Local Abbreviation Strip := (StripTransform F).
Local Abbreviation Config := (TransformConfig F).

Lemma run_checks_app (l1 l2 : list FileSys) (c : Config) :
  run_checks (l1 ++ l2) c
  = (fst (run_checks l2 (fst (run_checks l1 c))),
     (snd (run_checks l1 c) ++ snd (run_checks l2 (fst (run_checks l1 c))))%list).
Proof.
  revert c. induction l1 as [| fs r IH]; intros c.
  - cbn [app run_checks fst snd]. now destruct (run_checks l2 c).
  - cbn [app run_checks]. destruct (CheckReload fs c) as [c1 ev].
    rewrite IH. destruct (run_checks r c1) as [c2 evs]. cbn [fst snd].
    reflexivity.
Qed.

(** Calls before the counter reaches the interval only count. *)
Lemma run_checks_idle (fss : list FileSys) (c : Config) :
  callCounter c + Z.of_nat (List.length fss) < RELOAD_INTERVAL ->
  fst (run_checks fss c) = set_callCounter (callCounter c + Z.of_nat (List.length fss)) c.
Proof.
  revert c. induction fss as [| fs r IH]; intros c Hc.
  - cbn [run_checks fst List.length]. rewrite Z.add_0_r. now destruct c.
  - cbn [run_checks]. cbn [List.length] in Hc. rewrite Nat2Z.inj_succ in Hc.
    assert (E : CheckReload fs c = (set_callCounter (callCounter c + 1) c, [])).
    { unfold CheckReload. cbn [callCounter set_callCounter].
      destruct (Z.ltb_spec (callCounter c + 1) RELOAD_INTERVAL) as [_ | L];
        [reflexivity | lia]. }
    rewrite E.
    specialize (IH (set_callCounter (callCounter c + 1) c)).
    cbn [callCounter set_callCounter] in IH.
    destruct (run_checks r (set_callCounter (callCounter c + 1) c)) as [c2 evs].
    cbn [fst] in *. rewrite IH by lia.
    unfold set_callCounter; cbn [strips lastWriteTime]. f_equal.
    cbn [List.length]. lia.
Qed.

Lemma reachable_run_checks (fss : list FileSys) (c : Config) :
  reachable c -> reachable (fst (run_checks fss c)).
Proof.
  revert c. induction fss as [| fs r IH]; intros c Hr; [exact Hr |].
  cbn [run_checks]. pose proof (reach_check fs c Hr) as H1.
  destruct (CheckReload fs c) as [c1 ev]. cbn [fst] in H1.
  specialize (IH c1 H1). now destruct (run_checks r c1).
Qed.

(** Which call of a run goes to the file system. *)
Lemma run_checks_probe_at (fss : list FileSys) (c : Config) (k : nat) :
  0 <= callCounter c < RELOAD_INTERVAL -> (k < List.length fss)%nat ->
  existsb is_probe (nth k (snd (run_checks fss c)) [])
  = ((callCounter c + Z.of_nat k + 1) mod RELOAD_INTERVAL =? 0).
Proof.
  revert c k. induction fss as [| fs r IH]; intros c k Hc Hk; [cbn in Hk; lia |].
  cbn [run_checks].
  destruct (CheckReload_counter fs c Hc) as [Hcnt Hev].
  destruct (CheckReload fs c) as [c1 ev]; cbn [fst snd] in Hcnt, Hev.
  assert (Hc1 : 0 <= callCounter c1 < RELOAD_INTERVAL).
  { rewrite Hcnt. apply Z.mod_pos_bound. reflexivity. }
  specialize (IH c1).
  destruct (run_checks r c1) as [c2 evs]; cbn [fst snd] in *.
  unfold RELOAD_INTERVAL in *.
  destruct k as [| k]; cbn [nth].
  - rewrite Hev, Z.add_0_r.
    destruct (Z.eqb_spec (callCounter c + 1) 300) as [E | E].
    + now rewrite E.
    + rewrite Z.mod_small by lia. symmetry. apply Z.eqb_neq. lia.
  - rewrite IH by (try assumption; cbn [List.length] in Hk; lia).
    rewrite Hcnt. f_equal.
    rewrite Nat2Z.inj_succ.
    replace (callCounter c + Z.succ (Z.of_nat k) + 1)
      with ((callCounter c + 1) + (Z.of_nat k + 1)) by lia.
    rewrite <- Z.add_assoc. now rewrite Z.add_mod_idemp_l by lia.
Qed.

(** X18. The schedule of [CheckReload].  In a run of hook calls from a
    reachable configuration with call counter [n], call number [k]
    (counted from 1) goes to the file system exactly when [n + k] is a
    multiple of 300, whatever the files are; so a run of [m] calls makes
    [(n + m) / 300] probes and leaves the counter at [(n + m) mod 300]. *)
Theorem probe_schedule (fss : list FileSys) (c : Config) (k : nat) :
  reachable c ->
  count_probes (snd (run_checks fss c))
  = (callCounter c + Z.of_nat (List.length fss)) / RELOAD_INTERVAL /\
  callCounter (fst (run_checks fss c))
  = (callCounter c + Z.of_nat (List.length fss)) mod RELOAD_INTERVAL /\
  ((k < List.length fss)%nat ->
   (existsb is_probe (nth k (snd (run_checks fss c)) []) = true <->
    (callCounter c + (Z.of_nat k + 1)) mod RELOAD_INTERVAL = 0)) /\
  reachable (fst (run_checks fss c)).
Proof.
  intros Hr. pose proof (reachable_counter c Hr) as Hc.
  destruct (run_checks_probes fss c Hc) as [Hp Hcnt].
  split; [exact Hp |]. split; [exact Hcnt |]. split.
  - intros Hk. rewrite (run_checks_probe_at fss c k Hc Hk).
    rewrite Z.add_assoc. apply Z.eqb_eq.
  - now apply reachable_run_checks.
Qed.

(** X19. A changed file is picked up within one interval: after 300 hook
    calls on a file that is there with a time other than the stored one,
    the strips are the ones of the file and its time is stored; the 300
    calls went to the file system once. *)
Theorem reload_within_interval (fs : FileSys) (c : Config) (t : FILETIME) :
  reachable c -> attributes_ok fs = true -> open_time fs = Some t ->
  t <> lastWriteTime c ->
  let run := run_checks (repeat fs 300) c in
  strips (fst run) = strips (LoadConfig fs c) /\
  lastWriteTime (fst run) = t /\
  callCounter (fst run) = callCounter c /\
  count_probes (snd run) = 1.
Proof.
  intros Hr A O Ht; cbv zeta.
  pose proof (reachable_counter c Hr) as Hc. unfold RELOAD_INTERVAL in Hc.
  pose proof (reachable_length c Hr) as Hl.
  destruct (run_checks_probes (repeat fs 300) c Hc) as [Hp Hcnt].
  rewrite repeat_length in Hp, Hcnt. unfold RELOAD_INTERVAL in Hp, Hcnt.
  change (Z.of_nat 300) with (1 * 300) in Hp, Hcnt.
  rewrite Z.div_add, Z.div_small in Hp by lia.
  rewrite Z.mod_add, Z.mod_small in Hcnt by lia.
  assert (Final : fst (run_checks (repeat fs 300) c)
                  = set_callCounter (callCounter c)
                      (LoadConfig fs (set_callCounter 0 c))).
  { set (a := Z.to_nat (299 - callCounter c)).
    set (b := Z.to_nat (callCounter c)).
    assert (E300 : repeat fs 300 = (repeat fs a ++ [fs] ++ repeat fs b)%list).
    { replace 300%nat with (a + (1 + b))%nat by (unfold a, b; lia).
      now rewrite !repeat_app. }
    rewrite E300, run_checks_app. cbn [fst].
    rewrite (run_checks_idle (repeat fs a) c)
      by (rewrite repeat_length; unfold a, RELOAD_INTERVAL; lia).
    rewrite repeat_length.
    replace (callCounter c + Z.of_nat a) with 299 by (unfold a; lia).
    rewrite run_checks_app. cbn [fst].
    assert (Due : fst (run_checks [fs] (set_callCounter 299 c))
                  = LoadConfig fs (set_callCounter 0 c)).
    { assert (E : FILETIME_eqb t (lastWriteTime c) = false).
      { destruct (FILETIME_eqb t (lastWriteTime c)) eqn:E; [| reflexivity].
        apply FILETIME_eqb_eq in E. contradiction. }
      cbn [run_checks]. unfold CheckReload. cbn [callCounter set_callCounter].
      change (299 + 1 <? RELOAD_INTERVAL) with false. cbv iota.
      rewrite O. unfold set_callCounter; cbn [strips lastWriteTime callCounter].
      rewrite E. reflexivity. }
    rewrite Due.
    rewrite run_checks_idle
      by (rewrite repeat_length, LoadConfig_callCounter;
          cbn [callCounter set_callCounter]; unfold b, RELOAD_INTERVAL; lia).
    rewrite repeat_length, LoadConfig_callCounter.
    cbn [callCounter set_callCounter]. f_equal. unfold b. lia. }
  rewrite Final. cbn [strips lastWriteTime callCounter set_callCounter].
  split; [| split; [| split; [reflexivity | exact Hp]]].
  - rewrite !LoadConfig_strips by assumption. reflexivity.
  - now apply LoadConfig_lastWriteTime.
Qed.

(** X20. When the file has gone: the due call of [CheckReload] that
    cannot open it puts every strip back to the identity and forgets the
    stored time, after which [TransformStrip] changes no buffer; but only
    if a time was stored.  With no stored time (the file was never opened,
    or its time is zero) the strips stay as they are. *)
Theorem deleted_file_resets (fs : FileSys) (c : Config) :
  List.length (strips c) = 10%nat ->
  callCounter c + 1 = RELOAD_INTERVAL -> open_time fs = None ->
  let c' := fst (CheckReload fs c) in
  (lastWriteTime c <> FILETIME_zero ->
   strips c' = repeat identity_strip 10 /\ lastWriteTime c' = FILETIME_zero /\
   forall i data, TransformStrip (nth i (strips c') identity_strip) data = data) /\
  (lastWriteTime c = FILETIME_zero -> strips c' = strips c) /\
  callCounter c' = 0.
Proof.
  intros Hl Hd O; cbv zeta.
  unfold CheckReload. cbn [callCounter set_callCounter].
  rewrite Hd, Z.ltb_irrefl, O.
  unfold lastWriteTime_set. cbn [lastWriteTime set_callCounter].
  split; [| split].
  - intros Hz.
    assert (E : negb (dwHighDateTime (lastWriteTime c) =? 0)
                || negb (dwLowDateTime (lastWriteTime c) =? 0) = true).
    { destruct (lastWriteTime c) as [lo hi]. cbn [dwHighDateTime dwLowDateTime].
      destruct (Z.eqb_spec hi 0) as [-> | N]; [| reflexivity].
      destruct (Z.eqb_spec lo 0) as [-> | N]; [| reflexivity].
      now elim Hz. }
    rewrite E. cbn [fst strips lastWriteTime set_strips set_lastWriteTime set_callCounter].
    assert (S : map (fun _ : Strip => identity_strip) (strips c)
                = repeat identity_strip 10).
    { now rewrite map_const, Hl. }
    rewrite S. split; [reflexivity |]. split; [reflexivity |].
    intros i data. rewrite nth_repeat. reflexivity.
  - intros Hz. rewrite Hz. reflexivity.
  - now destruct (negb _ || negb _).
Qed.

(** Calls of [CheckReload] that cannot open the file, on a configuration
    with no stored time, leave the strips and the time as they are. *)
Lemma run_checks_quiet (fss : list FileSys) (c : Config) :
  Forall (fun f => open_time f = None) fss -> lastWriteTime c = FILETIME_zero ->
  strips (fst (run_checks fss c)) = strips c /\
  lastWriteTime (fst (run_checks fss c)) = FILETIME_zero.
Proof.
  revert c. induction fss as [| f r IH]; intros c Hl Ht; [split; [reflexivity | exact Ht] |].
  inversion Hl as [| ? ? Of Hr]; subst. cbn [run_checks].
  assert (Step : strips (fst (CheckReload f c)) = strips c /\
                 lastWriteTime (fst (CheckReload f c)) = FILETIME_zero).
  { unfold CheckReload. cbn [callCounter set_callCounter].
    destruct (_ <? _); [split; [reflexivity | exact Ht] |].
    rewrite Of. unfold lastWriteTime_set. cbn [lastWriteTime set_callCounter].
    rewrite Ht. cbn. split; [reflexivity | exact Ht]. }
  destruct (CheckReload f c) as [c1 ev]. cbn [fst] in Step.
  destruct Step as [S1 T1]. specialize (IH c1 Hr T1).
  destruct (run_checks r c1) as [c2 evs]. cbn [fst] in *.
  destruct IH as [S2 T2]. split; [now rewrite S2 | exact T2].
Qed.

(** X21. With no configuration file the hook is transparent: from the
    start of [DllMain] on, and for as long as the file stays away, every
    call hands on the bytes it was given. *)
Theorem no_file_is_transparent
  (fs0 fs : FileSys) (fss : list FileSys) (index : Z) (data : list Z) :
  file_absent fs0 -> Forall file_absent fss -> file_absent fs -> 0 <= index < 10 ->
  let c := fst (run_checks fss (LoadConfig fs0 InitConfig)) in
  snd (SetTapeLedDataHook fs c index data)
  = firstn (Z.to_nat (nth (Z.to_nat index) TapeLedDataCount 0)) data /\
  strips (fst (SetTapeLedDataHook fs c index data)) = repeat identity_strip 10.
Proof.
  intros [A0 O0] Hfss [A O] Hi; cbv zeta.
  assert (Start : strips (LoadConfig fs0 InitConfig) = repeat identity_strip 10 /\
                  lastWriteTime (LoadConfig fs0 InitConfig) = FILETIME_zero).
  { rewrite (LoadConfig_absent fs0 _ A0). split; reflexivity. }
  destruct Start as [S0 T0].
  assert (Hall : Forall (fun f => open_time f = None) (fss ++ [fs])).
  { apply Forall_app. split.
    - apply Forall_forall. intros f Hf. rewrite Forall_forall in Hfss.
      now destruct (Hfss f Hf).
    - now constructor. }
  destruct (run_checks_quiet (fss ++ [fs]) _ Hall T0) as [Hs _].
  rewrite run_checks_app in Hs. cbn [fst run_checks] in Hs.
  unfold SetTapeLedDataHook. destruct (Z.ltb_spec index 10) as [_ | L]; [| lia].
  cbn [fst snd].
  destruct (CheckReload fs (fst (run_checks fss (LoadConfig fs0 InitConfig))))
    as [c1 ev]. cbn [fst] in *.
  rewrite Hs, S0. split; [| reflexivity].
  rewrite nth_repeat. reflexivity.
Qed.

(** X22. A file that is there and sets none of the keys gives the
    identity: the hard-coded defaults end the fallback chain.  It takes
    from the C runtime that [1.0f] printed with [%.4f] reads back as
    [1.0f], and that [1.0f == 1.0f]. *)
Theorem empty_file_is_identity (fs : FileSys) (c : Config) :
  f_atof (truncate 64 (f_fmt4 f_one)) = f_one -> f_eqb f_one f_one = true ->
  reachable c -> attributes_ok fs = true ->
  (forall section key, profile fs section key = None) ->
  strips (LoadConfig fs c) = repeat identity_strip 10 /\
  forall i data, TransformStrip (nth i (strips (LoadConfig fs c)) identity_strip) data = data.
Proof.
  intros Hfmt Heq Hr A Hnone.
  assert (G : globalDefaults (profile fs)
              = mkStrip false CH_RGB f_one f_one f_one 0 100 100
                  false 0 0 0 false 0 0 0
                  (BuildGammaLUT f_one) (BuildGammaLUT f_one) (BuildGammaLUT f_one)).
  { unfold globalDefaults, globalDefaults_start, LoadStripFromSection,
      LoadStripFromSection_steps, GetProfileFloat, GetPrivateProfileIntA,
      GetPrivateProfileStringA.
    rewrite !Hnone.
    change (ParseHexColor (truncate 16 "")) with (@None (Z * Z * Z)).
    load_strip_cbv. rewrite Hfmt, Heq. reflexivity. }
  assert (S : forall sec,
             LoadStripFromSection (profile fs) sec
               (fun _ => globalDefaults (profile fs)) identity_strip
             = identity_strip).
  { intros sec. rewrite G, LoadStripFromSection_value.
    unfold GetProfileFloat, GetPrivateProfileIntA, GetPrivateProfileStringA.
    rewrite !Hnone.
    cbn [channelOrder gamma_r gamma_g gamma_b hue_shift saturation brightness
         static_color_enabled gradient_enabled static_color gradient_color
         static_r static_g static_b gradient_r2 gradient_g2 gradient_b2 defOrder].
    change (ParseHexColor (truncate 16 "")) with (@None (Z * Z * Z)).
    cbn [fst snd]. rewrite Hfmt, Heq. reflexivity. }
  assert (E : strips (LoadConfig fs c) = repeat identity_strip 10).
  { rewrite LoadConfig_strips by (try assumption; now apply reachable_length).
    unfold StripSectionNames. cbn [map repeat]. now rewrite !S. }
  split; [exact E |]. intros i data. rewrite E, nth_repeat. reflexivity.
Qed.

(** X24. [DllMain] enables the hook before it runs [InitConfig], so a
    hook call can find the configuration as static storage leaves it, all
    zero.  Such calls are transparent too: the strips are not enabled, and
    [CheckReload], which cannot open the file of an empty path, leaves them
    alone, however many calls come. *)
Theorem hook_before_InitConfig
  (fs : FileSys) (fss : list FileSys) (index : Z) (data : list Z) :
  Forall (fun f => open_time f = None) fss -> open_time fs = None ->
  0 <= index < 10 ->
  let c := fst (run_checks fss zero_config) in
  snd (SetTapeLedDataHook fs c index data)
  = firstn (Z.to_nat (nth (Z.to_nat index) TapeLedDataCount 0)) data /\
  strips (fst (SetTapeLedDataHook fs c index data)) = strips zero_config /\
  lastWriteTime (fst (SetTapeLedDataHook fs c index data)) = FILETIME_zero.
Proof.
  intros Hfss O Hi; cbv zeta.
  assert (Hall : Forall (fun f => open_time f = None) (fss ++ [fs])).
  { apply Forall_app. split; [exact Hfss | now constructor]. }
  destruct (run_checks_quiet (fss ++ [fs]) zero_config Hall eq_refl) as [Hs Ht].
  rewrite run_checks_app in Hs, Ht. cbn [fst run_checks] in Hs, Ht.
  unfold SetTapeLedDataHook. destruct (Z.ltb_spec index 10) as [_ | L]; [| lia].
  cbn [fst snd].
  destruct (CheckReload fs (fst (run_checks fss zero_config))) as [c1 ev].
  cbn [fst] in *.
  rewrite Hs. split; [| split; [reflexivity | exact Ht]].
  unfold zero_config; cbn [strips]. unfold TransformStrip.
  destruct (nth_in_or_default (Z.to_nat index) (repeat zero_strip 10) identity_strip)
    as [H | H].
  - apply repeat_spec in H. rewrite H. reflexivity.
  - rewrite H. reflexivity.
Qed.

End SchedulerMore.

(** ** The hook and the shared memory *)

(** The ten regions tile the mapping, and each fits the local buffer. *)
Lemma TapeLedData_layout (index : Z) :
  0 <= index < 10 ->
  let off := nth (Z.to_nat index) TapeLedDataOffset 0 in
  let count := nth (Z.to_nat index) TapeLedDataCount 0 in
  0 <= off /\ 0 < count <= TRANSFORMED_SIZE /\ count mod 3 = 0 /\
  off + count <= SHARED_SIZE /\
  off + count = nth (Z.to_nat index + 1) TapeLedDataOffset SHARED_SIZE.
Proof.
  intros H; cbv zeta.
  assert (E : index = 0 \/ index = 1 \/ index = 2 \/ index = 3 \/ index = 4 \/
              index = 5 \/ index = 6 \/ index = 7 \/ index = 8 \/ index = 9) by lia.
  unfold SHARED_SIZE, TRANSFORMED_SIZE.
  destruct E as [-> | [-> | [-> | [-> | [-> | [-> | [-> | [-> | [-> | ->]]]]]]]]];
    vm_compute; repeat split; intros; try discriminate; reflexivity.
Qed.

Lemma nth_memcpy_at (dst src : list Z) (off count j : nat) :
  (off + count <= List.length dst)%nat -> (count <= List.length src)%nat ->
  nth j (memcpy_at dst off src count) 0
  = if (Nat.leb off j && Nat.ltb j (off + count))%bool
    then nth (j - off) src 0 else nth j dst 0.
Proof.
  intros Hd Hs. unfold memcpy_at.
  destruct (Nat.leb_spec off j) as [L1 | L1]; cbn [andb].
  - rewrite app_nth2 by (rewrite length_firstn; lia).
    rewrite length_firstn, Nat.min_l by lia.
    destruct (Nat.ltb_spec j (off + count)) as [L2 | L2].
    + rewrite app_nth1 by (rewrite length_firstn; lia).
      rewrite nth_firstn. destruct (Nat.ltb_spec (j - off) count); [reflexivity | lia].
    + rewrite app_nth2 by (rewrite length_firstn; lia).
      rewrite length_firstn, Nat.min_l by lia.
      rewrite nth_skipn. f_equal. lia.
  - rewrite app_nth1 by (rewrite length_firstn; lia).
    rewrite nth_firstn. destruct (Nat.ltb_spec j off); [reflexivity | lia].
Qed.

Lemma length_memcpy_at (dst src : list Z) (off count : nat) :
  (off + count <= List.length dst)%nat -> (count <= List.length src)%nat ->
  List.length (memcpy_at dst off src count) = List.length dst.
Proof.
  intros Hd Hs. unfold memcpy_at.
  rewrite !length_app, !length_firstn, length_skipn. lia.
Qed.

Section HookTheorems.

Context {F : Type} {RT : Runtime F}.

Local Abbreviation Strip := (StripTransform F).
Local Abbreviation Config := (TransformConfig F).

Lemma TransformStrip_length (strip : Strip) (data : list Z) :
  List.length (TransformStrip strip data) = List.length data.
Proof.
  unfold TransformStrip. destruct (negb (enabled strip)); [reflexivity |].
  apply TransformStrip_loop_length.
Qed.

(** X23. The hook and the shared memory.  For an index below 10 and a
    buffer that holds the bytes of the strip, the bytes handed on are as
    many as the strip has, whole pixels that fit the local buffer of 282
    bytes; they are copied into the region of the strip, which lies inside
    the mapping of 1284 bytes and ends where the region of the next strip
    begins, and every byte of the mapping outside that region stays.  For
    any other index the hook hands on the buffer it was given and touches
    neither the configuration nor the shared memory; and without a mapping
    there is nothing it writes to. *)
Theorem hook_shared_memory
  (fs : FileSys) (c : Config) (mem : list Z) (index : Z) (data : list Z) (j : nat) :
  Z.of_nat (List.length mem) = SHARED_SIZE ->
  let off := nth (Z.to_nat index) TapeLedDataOffset 0 in
  let count := nth (Z.to_nat index) TapeLedDataCount 0 in
  let out := snd (SetTapeLedDataHook fs c index data) in
  (0 <= index < 10 -> count <= Z.of_nat (List.length data) ->
   Z.of_nat (List.length out) = count /\ count <= TRANSFORMED_SIZE /\
   count mod 3 = 0 /\
   0 <= off /\ off + count <= SHARED_SIZE /\
   off + count = nth (Z.to_nat index + 1) TapeLedDataOffset SHARED_SIZE /\
   exists mem',
     SetTapeLedDataHook_shared fs c (Some mem) index data = Some mem' /\
     List.length mem' = List.length mem /\
     (off <= Z.of_nat j < off + count ->
      nth j mem' 0 = nth (j - Z.to_nat off) out 0) /\
     (Z.of_nat j < off \/ off + count <= Z.of_nat j -> nth j mem' 0 = nth j mem 0)) /\
  (10 <= index ->
   SetTapeLedDataHook fs c index data = (c, data) /\
   SetTapeLedDataHook_shared fs c (Some mem) index data = Some mem) /\
  SetTapeLedDataHook_shared fs c None index data = None.
Proof.
  intros Hmem; cbv zeta. split; [| split].
  - intros Hi Hdata.
    destruct (TapeLedData_layout index Hi) as (Hoff & Hcount & Hpix & Hfit & Hnext).
    cbv zeta in *.
    set (off := nth (Z.to_nat index) TapeLedDataOffset 0) in *.
    set (count := nth (Z.to_nat index) TapeLedDataCount 0) in *.
    assert (Hout : List.length (snd (SetTapeLedDataHook fs c index data))
                   = Z.to_nat count).
    { unfold SetTapeLedDataHook. destruct (Z.ltb_spec index 10) as [_ | L]; [| lia].
      cbn [snd]. rewrite TransformStrip_length, length_firstn. fold count. lia. }
    split; [rewrite Hout; lia |]. split; [lia |]. split; [exact Hpix |].
    split; [lia |]. split; [lia |]. split; [exact Hnext |].
    unfold SetTapeLedDataHook_shared.
    destruct (Z.ltb_spec index 10) as [_ | L]; [| lia].
    fold off count. eexists. split; [reflexivity |].
    unfold SHARED_SIZE in *.
    split; [apply length_memcpy_at; lia |]. split.
    + intros Hj. rewrite nth_memcpy_at by lia.
      destruct (Nat.leb_spec (Z.to_nat off) j) as [A | A]; [| lia].
      destruct (Nat.ltb_spec j (Z.to_nat off + Z.to_nat count)) as [B | B];
        [reflexivity | lia].
    + intros Hj. rewrite nth_memcpy_at by lia.
      destruct (Nat.leb_spec (Z.to_nat off) j) as [A | A]; [| reflexivity].
      destruct (Nat.ltb_spec j (Z.to_nat off + Z.to_nat count)) as [B | B];
        [lia | reflexivity].
  - intros Hi. unfold SetTapeLedDataHook, SetTapeLedDataHook_shared.
    destruct (Z.ltb_spec index 10) as [L | _]; [lia |]. split; reflexivity.
  - unfold SetTapeLedDataHook_shared. now destruct (index <? 10).
Qed.

End HookTheorems.

(** ** The further statements at concrete inputs *)

Lemma RGBtoHSV_hue_sector_witness :
  (is_u8 10 /\ is_u8 200 /\ is_u8 30) /\ 60 <= hsv_h (RGBtoHSV 10 200 30) <= 180.
Proof.
  assert (H10 : is_u8 10) by (unfold is_u8; lia).
  assert (H200 : is_u8 200) by (unfold is_u8; lia).
  assert (H30 : is_u8 30) by (unfold is_u8; lia).
  split; [split; [exact H10 | split; [exact H200 | exact H30]] |].
  destruct (RGBtoHSV_hue_sector 10 200 30 H10 H200 H30) as (_ & _ & H).
  apply H; [vm_compute; discriminate | lia | reflexivity].
Defined.

Lemma ParseHexColor_six_digits_witness :
  hex_digit "a" = Some 10 /\ hex_digit "B" = Some 11 /\
  ParseHexColor "aB09f3" = Some (171, 9, 243) /\
  ParseHexColor "#aB09f3" = Some (171, 9, 243).
Proof.
  split; [reflexivity |]. split; [reflexivity |].
  destruct (ParseHexColor_six_digits "a" "B" "0" "9" "f" "3" 10 11 0 9 15 3
              eq_refl eq_refl eq_refl eq_refl eq_refl eq_refl) as (H1 & H2 & _).
  split; [exact H1 | exact H2].
Defined.

(** a strip of the sample file without a section of its own: the global
    brightness of 80 and nothing else *)
Lemma brightness_stage_scales_witness :
  let strip :=
    nth 5 (strips (LoadConfig sample_fs (@InitConfig Ideal.num ideal_runtime)))
      identity_strip in
  (is_u8 255 /\ is_u8 100 /\ is_u8 0) /\ 0 <= brightness strip <= 200 /\
  brightness_stage strip (255, 100, 0) = (204, 80, 0).
Proof.
  cbv zeta.
  assert (H255 : is_u8 255) by (unfold is_u8; lia).
  assert (H100 : is_u8 100) by (unfold is_u8; lia).
  assert (H0 : is_u8 0) by (unfold is_u8; lia).
  assert (Hb : 0 <= brightness
                      (nth 5 (strips (LoadConfig sample_fs
                                        (@InitConfig Ideal.num ideal_runtime)))
                         identity_strip) <= 200)
    by (vm_compute; split; discriminate).
  split; [split; [exact H255 | split; [exact H100 | exact H0]] |].
  split; [exact Hb |].
  exact (proj1 (brightness_stage_scales _ 255 100 0 H255 H100 H0 Hb)).
Defined.

Lemma LoadConfig_forgets_previous_strips_witness :
  attributes_ok sample_fs = true /\
  reachable (@InitConfig Ideal.num ideal_runtime) /\
  reachable (LoadConfig gradient_only_fs (@InitConfig Ideal.num ideal_runtime)) /\
  strips (LoadConfig sample_fs (@InitConfig Ideal.num ideal_runtime))
  = strips (LoadConfig sample_fs (LoadConfig gradient_only_fs InitConfig)).
Proof.
  assert (R1 : reachable (@InitConfig Ideal.num ideal_runtime)) by apply reach_init.
  assert (R2 : reachable (LoadConfig gradient_only_fs
                            (@InitConfig Ideal.num ideal_runtime)))
    by (apply reach_load, reach_init).
  split; [reflexivity |]. split; [exact R1 |]. split; [exact R2 |].
  exact (proj1 (LoadConfig_forgets_previous_strips sample_fs _ _ eq_refl R1 R2)).
Defined.

(** the sample file with one more line in the section of the woofer: the
    strip of the title is loaded as before *)
Lemma strip_sections_are_independent_witness :
  let fsB :=
    mkFileSys true (Some (mkFILETIME 9 1))
      (ini_set "woofer" "brightness" "50" sample_ini) in
  reachable (@InitConfig Ideal.num ideal_runtime) /\
  attributes_ok sample_fs = attributes_ok fsB /\
  nth 0 (strips (LoadConfig sample_fs (@InitConfig Ideal.num ideal_runtime)))
    identity_strip
  = nth 0 (strips (LoadConfig fsB InitConfig)) identity_strip.
Proof.
  cbv zeta.
  assert (R : reachable (@InitConfig Ideal.num ideal_runtime)) by apply reach_init.
  split; [exact R |]. split; [reflexivity |].
  apply (strip_sections_are_independent sample_fs
           (mkFileSys true (Some (mkFILETIME 9 1))
              (ini_set "woofer" "brightness" "50" sample_ini))
           (@InitConfig Ideal.num ideal_runtime) 0 R eq_refl).
  - intros k. reflexivity.
  - intros k. reflexivity.
Defined.

Lemma LoadStripFromSection_fallback_witness :
  strip_in_range (@identity_strip Ideal.num ideal_runtime) /\
  sample_ini "title" "brightness" = None /\
  brightness (LoadStripFromSection sample_ini "title"
                (fun _ => @identity_strip Ideal.num ideal_runtime) identity_strip)
  = 100.
Proof.
  assert (Hr : strip_in_range (@identity_strip Ideal.num ideal_runtime))
    by (unfold strip_in_range; cbn; lia).
  split; [exact Hr |]. split; [reflexivity |].
  destruct (LoadStripFromSection_fallback sample_ini "title"
              (@identity_strip Ideal.num ideal_runtime) identity_strip Hr)
    as (_ & _ & _ & H & _).
  exact (H eq_refl).
Defined.

Lemma reachable_invariant_witness :
  let c := LoadConfig sample_fs (@InitConfig Ideal.num ideal_runtime) in
  reachable c /\ In (nth 0 (strips c) identity_strip) (strips c) /\
  List.length (strips c) = 10%nat.
Proof.
  cbv zeta. split; [exact sample_reachable |].
  split; [apply sample_strip_in; lia |].
  exact (proj1 (reachable_invariant _ _ sample_reachable (sample_strip_in 0 ltac:(lia)))).
Defined.

Lemma TransformStrip_pixelwise_witness :
  let c := LoadConfig sample_fs (@InitConfig Ideal.num ideal_runtime) in
  let strip := nth 5 (strips c) identity_strip in
  (reachable c /\ In strip (strips c)) /\
  (Forall is_u8 [255; 255; 255; 10; 20; 30] /\
   List.length [255; 255; 255; 10; 20; 30] = (3 * 2)%nat /\ (1 < 2)%nat) /\
  List.length (TransformStrip strip [255; 255; 255; 10; 20; 30]) = 6%nat.
Proof.
  cbv zeta.
  assert (Hd : Forall is_u8 [255; 255; 255; 10; 20; 30])
    by (repeat (constructor; [unfold is_u8; lia |]); constructor).
  split; [split; [exact sample_reachable | apply sample_strip_in; lia] |].
  split; [split; [exact Hd | split; [reflexivity | lia]] |].
  exact (proj1 (TransformStrip_pixelwise _ _ [255; 255; 255; 10; 20; 30] 2 1
                  sample_reachable (sample_strip_in 5 ltac:(lia)) Hd eq_refl
                  ltac:(lia))).
Defined.

Lemma order_and_brightness_only_witness :
  let strip :=
    nth 5 (strips (LoadConfig sample_fs (@InitConfig Ideal.num ideal_runtime)))
      identity_strip in
  (plain_colors strip /\ enabled strip = true /\ 0 <= brightness strip <= 200) /\
  pixel_at (TransformStrip strip [255; 255; 255; 10; 20; 30]) 1 = (8, 16, 24).
Proof.
  cbv zeta.
  assert (Hp : plain_colors
                 (nth 5 (strips (LoadConfig sample_fs
                                   (@InitConfig Ideal.num ideal_runtime)))
                    identity_strip))
    by (unfold plain_colors, luts_current; vm_compute; repeat split; reflexivity).
  assert (He : enabled
                 (nth 5 (strips (LoadConfig sample_fs
                                   (@InitConfig Ideal.num ideal_runtime)))
                    identity_strip) = true) by (vm_compute; reflexivity).
  assert (Hb : 0 <= brightness
                      (nth 5 (strips (LoadConfig sample_fs
                                        (@InitConfig Ideal.num ideal_runtime)))
                         identity_strip) <= 200)
    by (vm_compute; split; discriminate).
  assert (Hd : Forall is_u8 [255; 255; 255; 10; 20; 30])
    by (repeat (constructor; [unfold is_u8; lia |]); constructor).
  split; [split; [exact Hp | split; [exact He | exact Hb]] |].
  exact (proj1 (order_and_brightness_only _ [255; 255; 255; 10; 20; 30] 2 1
                  Hp He Hb Hd eq_refl ltac:(lia))).
Defined.

(** the strip of the woofer in the sample file: a hue shift of 10 *)
Lemma hue_saturation_stage_witness :
  let strip :=
    nth 8 (strips (LoadConfig sample_fs (@InitConfig Ideal.num ideal_runtime)))
      identity_strip in
  (static_color_enabled strip = false /\ strip_in_range strip) /\
  (is_u8 10 /\ is_u8 200 /\ is_u8 30) /\
  value_of (color_stage strip 14 0 (10, 200, 30)) = 200.
Proof.
  cbv zeta.
  assert (Hst : static_color_enabled
                  (nth 8 (strips (LoadConfig sample_fs
                                    (@InitConfig Ideal.num ideal_runtime)))
                     identity_strip) = false) by (vm_compute; reflexivity).
  assert (Hrg : strip_in_range
                  (nth 8 (strips (LoadConfig sample_fs
                                    (@InitConfig Ideal.num ideal_runtime)))
                     identity_strip))
    by (unfold strip_in_range; vm_compute; repeat split; discriminate).
  assert (H10 : is_u8 10) by (unfold is_u8; lia).
  assert (H200 : is_u8 200) by (unfold is_u8; lia).
  assert (H30 : is_u8 30) by (unfold is_u8; lia).
  split; [split; [exact Hst | exact Hrg] |].
  split; [split; [exact H10 | split; [exact H200 | exact H30]] |].
  exact (proj1 (hue_saturation_stage _ 14 0 10 200 30 Hst Hrg H10 H200 H30)).
Defined.

(** the strip of the left wing in the sample file: blue to magenta *)
Lemma gradient_endpoints_witness :
  let strip :=
    nth 3 (strips (LoadConfig sample_fs (@InitConfig Ideal.num ideal_runtime)))
      identity_strip in
  (static_color_enabled strip = true /\ gradient_enabled strip = true /\
   strip_bytes strip) /\
  color_stage strip 56 0 (10, 200, 30) = HSVtoRGB 240 255 200 /\
  color_stage strip 56 (3 * (56 - 1)) (10, 200, 30) = HSVtoRGB 300 255 200.
Proof.
  cbv zeta.
  assert (Hst : static_color_enabled
                  (nth 3 (strips (LoadConfig sample_fs
                                    (@InitConfig Ideal.num ideal_runtime)))
                     identity_strip) = true) by (vm_compute; reflexivity).
  assert (Hgd : gradient_enabled
                  (nth 3 (strips (LoadConfig sample_fs
                                    (@InitConfig Ideal.num ideal_runtime)))
                     identity_strip) = true) by (vm_compute; reflexivity).
  assert (Hby : strip_bytes
                  (nth 3 (strips (LoadConfig sample_fs
                                    (@InitConfig Ideal.num ideal_runtime)))
                     identity_strip))
    by (unfold strip_bytes, is_u8; vm_compute; repeat split; discriminate).
  split; [split; [exact Hst | split; [exact Hgd | exact Hby]] |].
  exact (proj1 (gradient_endpoints _ 56 (10, 200, 30) Hst Hgd Hby) ltac:(lia)).
Defined.

(** the strip of the title in the sample file: a static color *)
Lemma static_color_uses_value_only_witness :
  let strip :=
    nth 0 (strips (LoadConfig sample_fs (@InitConfig Ideal.num ideal_runtime)))
      identity_strip in
  static_color_enabled strip = true /\
  value_of (10, 200, 30) = value_of (200, 0, 0) /\
  color_stage strip 74 9 (10, 200, 30) = color_stage strip 74 9 (200, 0, 0).
Proof.
  cbv zeta.
  assert (Hst : static_color_enabled
                  (nth 0 (strips (LoadConfig sample_fs
                                    (@InitConfig Ideal.num ideal_runtime)))
                     identity_strip) = true) by (vm_compute; reflexivity).
  split; [exact Hst |]. split; [reflexivity |].
  exact (proj1 (static_color_uses_value_only _ 74 9 (10, 200, 30) (200, 0, 0)
                  Hst eq_refl)).
Defined.

Lemma probe_schedule_witness :
  reachable (@InitConfig Ideal.num ideal_runtime) /\
  count_probes (snd (run_checks (repeat sample_fs 700)
                       (@InitConfig Ideal.num ideal_runtime)))
  = (0 + Z.of_nat (List.length (repeat sample_fs 700))) / RELOAD_INTERVAL.
Proof.
  assert (R : reachable (@InitConfig Ideal.num ideal_runtime)) by apply reach_init.
  split; [exact R |].
  exact (proj1 (probe_schedule (repeat sample_fs 700) _ 0 R)).
Defined.

Lemma reload_within_interval_witness :
  (reachable (@InitConfig Ideal.num ideal_runtime) /\
   attributes_ok sample_fs = true /\ open_time sample_fs = Some (mkFILETIME 7 1) /\
   mkFILETIME 7 1 <> lastWriteTime (@InitConfig Ideal.num ideal_runtime)) /\
  strips (fst (run_checks (repeat sample_fs 300) (@InitConfig Ideal.num ideal_runtime)))
  = strips (LoadConfig sample_fs InitConfig).
Proof.
  assert (R : reachable (@InitConfig Ideal.num ideal_runtime)) by apply reach_init.
  assert (T : mkFILETIME 7 1 <> lastWriteTime (@InitConfig Ideal.num ideal_runtime))
    by (intros H; discriminate H).
  split; [split; [exact R | split; [reflexivity | split; [reflexivity | exact T]]] |].
  exact (proj1 (reload_within_interval sample_fs _ (mkFILETIME 7 1) R eq_refl eq_refl T)).
Defined.

Lemma deleted_file_resets_witness :
  let c :=
    mkConfig (strips (LoadConfig sample_fs (@InitConfig Ideal.num ideal_runtime)))
      (mkFILETIME 7 1) 299 in
  let gone := mkFileSys false None ini_empty in
  (List.length (strips c) = 10%nat /\ callCounter c + 1 = RELOAD_INTERVAL /\
   open_time gone = None /\ lastWriteTime c <> FILETIME_zero) /\
  strips (fst (CheckReload gone c)) = repeat identity_strip 10.
Proof.
  cbv zeta.
  assert (L : List.length
                (strips (mkConfig
                           (strips (LoadConfig sample_fs
                                      (@InitConfig Ideal.num ideal_runtime)))
                           (mkFILETIME 7 1) 299)) = 10%nat)
    by (vm_compute; reflexivity).
  assert (T : lastWriteTime
                (mkConfig
                   (strips (LoadConfig sample_fs (@InitConfig Ideal.num ideal_runtime)))
                   (mkFILETIME 7 1) 299) <> FILETIME_zero)
    by (intros H; discriminate H).
  split; [split; [exact L | split; [reflexivity | split; [reflexivity | exact T]]] |].
  exact (proj1 (proj1 (deleted_file_resets (mkFileSys false None ini_empty) _
                         L eq_refl eq_refl) T)).
Defined.

Lemma no_file_is_transparent_witness :
  let gone := mkFileSys false None ini_empty in
  (file_absent gone /\ Forall file_absent [gone; gone] /\ 0 <= 1 < 10) /\
  snd (SetTapeLedDataHook gone
         (fst (run_checks [gone; gone]
                 (LoadConfig gone (@InitConfig Ideal.num ideal_runtime))))
         1 (repeat 255 36))
  = repeat 255 36.
Proof.
  cbv zeta.
  assert (A : file_absent (mkFileSys false None ini_empty))
    by (split; reflexivity).
  assert (As : Forall file_absent
                 [mkFileSys false None ini_empty; mkFileSys false None ini_empty])
    by (repeat constructor).
  split; [split; [exact A | split; [exact As | lia]] |].
  exact (proj1 (no_file_is_transparent (F := Ideal.num) _ _ _ 1 (repeat 255 36)
                  A As A ltac:(lia))).
Defined.

Lemma empty_file_is_identity_witness :
  let fs := mkFileSys true (Some (mkFILETIME 1 1)) ini_empty in
  (f_atof (F := Ideal.num) (truncate 64 (f_fmt4 f_one)) = f_one /\
   f_eqb (F := Ideal.num) f_one f_one = true) /\
  strips (LoadConfig fs (@InitConfig Ideal.num ideal_runtime))
  = repeat identity_strip 10.
Proof.
  cbv zeta.
  assert (H1 : f_atof (F := Ideal.num) (truncate 64 (f_fmt4 f_one)) = f_one)
    by (vm_compute; reflexivity).
  assert (H2 : f_eqb (F := Ideal.num) f_one f_one = true) by reflexivity.
  split; [split; [exact H1 | exact H2] |].
  exact (proj1 (empty_file_is_identity
                  (mkFileSys true (Some (mkFILETIME 1 1)) ini_empty)
                  (@InitConfig Ideal.num ideal_runtime) H1 H2 reach_init eq_refl
                  (fun _ _ => eq_refl))).
Defined.

Lemma hook_shared_memory_witness :
  (Z.of_nat (List.length (repeat 0 1284)) = SHARED_SIZE /\ 0 <= 1 < 10 /\
   nth (Z.to_nat 1) TapeLedDataCount 0 <= Z.of_nat (List.length (repeat 255 36))) /\
  Z.of_nat (List.length
              (snd (SetTapeLedDataHook sample_fs (@InitConfig Ideal.num ideal_runtime)
                      1 (repeat 255 36)))) = 36.
Proof.
  assert (L : Z.of_nat (List.length (repeat 0 1284)) = SHARED_SIZE)
    by (vm_compute; reflexivity).
  assert (D : nth (Z.to_nat 1) TapeLedDataCount 0
              <= Z.of_nat (List.length (repeat 255 36)))
    by (vm_compute; discriminate).
  split; [split; [exact L | split; [lia | exact D]] |].
  exact (proj1 (proj1 (hook_shared_memory sample_fs
                         (@InitConfig Ideal.num ideal_runtime)
                         (repeat 0 1284) 1 (repeat 255 36) 0 L)
                  ltac:(lia) D)).
Defined.

Lemma hook_before_InitConfig_witness :
  let gone := mkFileSys false None ini_empty in
  (Forall (fun f => open_time f = None) [gone; gone] /\ open_time gone = None /\
   0 <= 5 < 10) /\
  snd (SetTapeLedDataHook gone
         (fst (run_checks [gone; gone] (@zero_config Ideal.num ideal_runtime)))
         5 (repeat 7 282))
  = repeat 7 282.
Proof.
  cbv zeta.
  assert (As : Forall (fun f => open_time f = None)
                 [mkFileSys false None ini_empty; mkFileSys false None ini_empty])
    by (repeat constructor).
  split; [split; [exact As | split; [reflexivity | lia]] |].
  exact (proj1 (hook_before_InitConfig (F := Ideal.num)
                  (mkFileSys false None ini_empty)
                  [mkFileSys false None ini_empty; mkFileSys false None ini_empty]
                  5 (repeat 7 282) As eq_refl ltac:(lia))).
Defined.

(** * A reload as the pipeline sees it *)

Section ReloadInHook.

Context {F : Type} {RT : Runtime F}.

Local Abbreviation Strip := (StripTransform F).
Local Abbreviation Config := (TransformConfig F).

(** When [GetFileAttributesW] fails, [LoadConfig] switches the ten strips
    off and writes nothing else. *)
Lemma LoadConfig_absent_strips (fs : FileSys) (c : Config) :
  attributes_ok fs = false -> List.length (strips c) = 10%nat ->
  strips (LoadConfig fs c) = map (set_enabled false) (strips c).
Proof.
  intros A L.
  apply (nth_ext _ _ identity_strip (set_enabled false identity_strip)).
  - now rewrite LoadConfig_length, length_map.
  - intros i Hi. rewrite LoadConfig_length, L in Hi.
    rewrite (LoadConfig_absent fs c A).
    rewrite (fold_on_strip_nth (fun _ => set_enabled false) _ _ _ _ (seq_NoDup 10 0))
      by (rewrite L; exact Hi).
    assert (E : existsb (Nat.eqb i) (seq 0 10) = true).
    { apply existsb_exists. exists i. split; [apply in_seq; lia | apply Nat.eqb_refl]. }
    rewrite E. symmetry. apply (map_nth (set_enabled false)).
Qed.

(** A strip that is switched off leaves the buffer as it is. *)
Lemma TransformStrip_off (strip : Strip) (data : list Z) :
  enabled strip = false -> TransformStrip strip data = data.
Proof. intros E. unfold TransformStrip. now rewrite E. Qed.

(** C2 (as amended). The configuration is one object that [LoadConfig]
    rewrites in place, statement by statement; there is no snapshot that
    is swapped in, and the object does go through mixed states.  What the
    code has instead is the order of the statements of the hook: a hook
    call on a reachable configuration runs [CheckReload] to its end before
    [TransformStrip] reads the strip.  So the ten strips the pipeline
    reads are complete (each has the tables of its own gammas, among the
    other invariants), and they are

    - without a reload, the ten strips as they were, or ten identity
      strips after the reset for a file that is gone;
    - after a reload of a file that is there, the ten strips the file
      gives, none of them depending on the previous configuration;
    - after a reload of a file that has gone between the two probes, the
      previous strips switched off, and the buffer passes unchanged. *)
Theorem reload_completes_before_transform
  (fs : FileSys) (c : Config) (index : Z) (data : list Z) :
  reachable c -> 0 <= index < 10 ->
  let i := Z.to_nat index in
  let c' := fst (SetTapeLedDataHook fs c index data) in
  let out := snd (SetTapeLedDataHook fs c index data) in
  let loaded := existsb is_load (snd (CheckReload fs c)) in
  let new := fun sec => LoadStripFromSection (profile fs) sec
                          (fun _ => globalDefaults (profile fs)) identity_strip in
  let buf := firstn (Z.to_nat (nth i TapeLedDataCount 0)) data in
  out = TransformStrip (nth i (strips c') identity_strip) buf /\
  Forall strip_ok (strips c') /\
  (loaded = false ->
   strips c' = strips c \/
   (strips c' = repeat identity_strip 10 /\ out = buf)) /\
  (loaded = true -> attributes_ok fs = true ->
   strips c' = map new StripSectionNames /\
   out = TransformStrip (new (nth i StripSectionNames "")) buf) /\
  (loaded = true -> attributes_ok fs = false ->
   strips c' = map (set_enabled false) (strips c) /\ out = buf).
Proof.
  intros Hr Hi; cbv zeta.
  pose proof (reachable_length c Hr) as Hlen.
  pose proof (CheckReload_ok fs c (reachable_ok c Hr)) as Hok.
  assert (Hn : (Z.to_nat index < 10)%nat) by lia.
  unfold SetTapeLedDataHook.
  destruct (Z.ltb_spec index 10) as [_ | L]; [| lia]. cbn [fst snd].
  split; [reflexivity |]. split; [exact Hok |]. clear Hok.
  unfold CheckReload. cbn [callCounter set_callCounter].
  destruct (callCounter c + 1 <? RELOAD_INTERVAL).
  { cbn [fst snd existsb strips]. repeat split; try discriminate. now left. }
  destruct (open_time fs) as [ft |].
  - destruct (negb (FILETIME_eqb ft _)); cbn [fst snd existsb is_load orb strips];
      [| repeat split; try discriminate; now left].
    split; [discriminate |]. split.
    + intros _ A.
      match goal with
      | |- context [LoadConfig fs ?x] =>
          pose proof (LoadConfig_strips fs x A Hlen) as E
      end.
      split; [exact E |]. rewrite E.
      rewrite (nth_indep _ identity_strip
                 (LoadStripFromSection (profile fs) ""
                    (fun _ => globalDefaults (profile fs)) identity_strip))
        by (now rewrite length_map).
      now rewrite (map_nth (fun sec => LoadStripFromSection (profile fs) sec
                                         (fun _ => globalDefaults (profile fs))
                                         identity_strip)).
    + intros _ A.
      match goal with
      | |- context [LoadConfig fs ?x] =>
          pose proof (LoadConfig_absent_strips fs x A Hlen) as E
      end.
      split; [exact E |]. rewrite E.
      change identity_strip with (set_enabled false (@identity_strip F RT)) at 1.
      rewrite (map_nth (set_enabled false)). now apply TransformStrip_off.
  - destruct (lastWriteTime_set _);
      cbn [fst snd existsb is_load orb strips set_strips set_lastWriteTime
           set_callCounter];
      [| repeat split; try discriminate; now left].
    split; [| split; discriminate].
    intros _. right. rewrite map_const, Hlen. split; [reflexivity |].
    apply TransformStrip_off.
    destruct (nth_in_or_default (Z.to_nat index) (repeat (@identity_strip F RT) 10)
                identity_strip) as [H | ->]; [| reflexivity].
    apply repeat_spec in H. now rewrite H.
Qed.

End ReloadInHook.

Lemma reload_completes_before_transform_witness :
  let c := fst (run_checks (repeat gradient_only_fs 299)
                  (LoadConfig gradient_only_fs (@InitConfig Ideal.num ideal_runtime))) in
  let data := repeat 255 168 in
  (reachable c /\ 0 <= 3 < 10 /\
   existsb is_load (snd (CheckReload sample_fs c)) = true /\
   attributes_ok sample_fs = true) /\
  strips (fst (SetTapeLedDataHook sample_fs c 3 data))
  = map (fun sec => LoadStripFromSection (profile sample_fs) sec
                      (fun _ => globalDefaults (profile sample_fs)) identity_strip)
      StripSectionNames /\
  snd (SetTapeLedDataHook sample_fs c 3 data)
  = TransformStrip
      (LoadStripFromSection (profile sample_fs) "left_wing"
         (fun _ => globalDefaults (profile sample_fs)) identity_strip)
      data /\
  firstn 6 (snd (SetTapeLedDataHook sample_fs c 3 data)) = [0; 0; 204; 4; 0; 204].
Proof.
  cbv zeta.
  assert (R : reachable
                (fst (run_checks (repeat gradient_only_fs 299)
                        (LoadConfig gradient_only_fs
                           (@InitConfig Ideal.num ideal_runtime))))).
  { apply reachable_run_checks, reach_load, reach_init. }
  assert (I : 0 <= 3 < 10) by lia.
  assert (E : existsb is_load
                (snd (CheckReload sample_fs
                        (fst (run_checks (repeat gradient_only_fs 299)
                                (LoadConfig gradient_only_fs
                                   (@InitConfig Ideal.num ideal_runtime))))))
              = true) by (vm_compute; reflexivity).
  assert (A : attributes_ok sample_fs = true) by reflexivity.
  split; [split; [exact R | split; [exact I | split; [exact E | exact A]]] |].
  destruct (reload_completes_before_transform sample_fs _ 3 (repeat 255 168) R I)
    as (_ & _ & _ & H & _).
  destruct (H E A) as [H1 H2].
  split; [exact H1 |]. split; [exact H2 |].
  vm_compute. reflexivity.
Defined.
